(** * Dynamic CLIP printer software: motion-controller driver and print loop

    A shallow embedding of [src/src/SMC100C.cpp] and of the print-process
    functions of [src/src/individualCommands.cpp], with the properties of
    the specification stated over it.

    Conventions of the embedding:
    - [std::string] is [string]; [std::string::substr] raises
      [std::out_of_range] exactly as the library does;
    - a C++ function that may raise is a function into [result];
    - finite [float] values are rationals ([Q]); not-a-number and the
      infinities are outside the model;
    - the serial library, the clock, the window and the light engine are
      external: their calls appear as events of a trace, and what they
      return is read from an explicit environment. *)

From Stdlib Require Import ZArith QArith List String Ascii Bool Lia Arith.
From Stdlib Require Import DecimalString Qabs.
Import ListNotations.
Open Scope string_scope.
Open Scope Z_scope.


(** ** Exceptions of the C++ standard library *)

Inductive exn : Type :=
| out_of_range
| invalid_argument.

Inductive result (A : Type) : Type :=
| Ok (a : A)
| Throw (e : exn).

Arguments Ok {A} a.
Arguments Throw {A} e.

Definition rbind {A B : Type} (r : result A) (k : A -> result B) : result B :=
  match r with
  | Ok a => k a
  | Throw e => Throw e
  end.

Notation "x <- r ;; k" := (rbind r (fun x => k))
  (at level 61, r at next level, right associativity).

(** [s.substr(pos, len)]: raises [std::out_of_range] when [pos > s.size()],
    otherwise the characters from [pos], at most [len] of them. *)
Definition substr (s : string) (pos len : nat) : result string :=
  if Nat.ltb (String.length s) pos then Throw out_of_range
  else Ok (String.substring pos len s).

Definition CR : ascii := Ascii.ascii_of_nat 13.
Definition LF : ascii := Ascii.ascii_of_nat 10.
Definition CRLF : string := String CR (String LF EmptyString).

(** Decimal digits at the head of a text: the value read after [acc],
    the number of digits, and the text left. *)
Definition digit_of (c : ascii) : option Z :=
  let n := nat_of_ascii c in
  if (Nat.leb 48 n && Nat.leb n 57)%bool then Some (Z.of_nat (n - 48)) else None.

Fixpoint read_digits (s : string) (acc : Z) (count : nat) : Z * nat * string :=
  match s with
  | EmptyString => (acc, count, s)
  | String c rest =>
      match digit_of c with
      | Some d => read_digits rest (acc * 10 + d) (S count)
      | None => (acc, count, s)
      end
  end.

(** ** The SMC100C driver ([SMC100C.h], [SMC100C.cpp]) *)

Module SMC100C.

Inductive CommandType : Type :=
| CmdNone | Acceleration | BacklashComp | HysterisisComp | DriverVoltage
| KdLowPassFilterCutOff | FollowingErrorLim | FrictionComp | HomeSearchType
| StageIdentifier | LeaveJoggingState | KeypadEnable | JerkTime
| DerivativeGain | IntegralGain | ProportionalGain | VelocityFeedForward
| Enable | HomeSearchVelocity | HomeSearch | HomeSearchTimeout | MoveAbs
| MoveRel | MoveEstimate | Configure | Analog | TTLInputVal | Reset
| RS485Adress | TTLOutputVal | ControlLoopState | NegativeSoftwareLim
| PositiveSoftwareLim | StopMotion | EncoderIncrementVal | CommandErrorString
| LastCommandErr | PositionAsSet | PositionReal | ErrorStatus | Velocity
| BaseVelocity | ControllerRevisionInfo | AllConfigParam | ESPStageConfig.

(** [CommandParameterType::None] is [ParamNone]. *)
Inductive CommandParameterType : Type := ParamNone | Int | Float.

(** [CommandGetSetType::None] is [GetSetNone], [CommandGetSetType::Set] is
    [Set_]. *)
Inductive CommandGetSetType : Type :=
| GetSetNone | Get | Set_ | GetSet | GetAlways.

Record CommandStruct : Type := {
  Command : CommandType;
  CommandChar : string;
  SendType : CommandParameterType;
  GetSetType : CommandGetSetType
}.

Record CommandEntry : Type := {
  EntryCommand : CommandStruct;
  GetOrSet : CommandGetSetType;
  Parameter_ : Q
}.

Inductive StatusType : Type :=
| Unknown | Error | Config | NoReference | Homing | Moving | Ready
| Disabled | Jogging.

Record StatusCharSet : Type := {
  Code : string;
  Type_ : StatusType
}.

Definition ControllerAdress : string := "1".

Definition mkCmd (c : CommandType) (s : string) (p : CommandParameterType)
  (g : CommandGetSetType) : CommandStruct :=
  {| Command := c; CommandChar := s; SendType := p; GetSetType := g |}.

Definition CommandLibrary : list CommandStruct := [
  mkCmd CmdNone "  " ParamNone GetSetNone;
  mkCmd Acceleration "AC" Float GetSet;
  mkCmd BacklashComp "BA" Float GetSet;
  mkCmd HysterisisComp "BH" Float GetSet;
  mkCmd DriverVoltage "DV" Float GetSet;
  mkCmd KdLowPassFilterCutOff "FD" Float GetSet;
  mkCmd FollowingErrorLim "FE" Float GetSet;
  mkCmd FrictionComp "FF" Float GetSet;
  mkCmd HomeSearchType "HT" Int GetSet;
  mkCmd StageIdentifier "ID" Float GetSet;
  mkCmd LeaveJoggingState "JD" ParamNone GetSetNone;
  mkCmd KeypadEnable "JM" Int GetSet;
  mkCmd JerkTime "JR" Float GetSet;
  mkCmd DerivativeGain "KD" Float GetSet;
  mkCmd IntegralGain "KI" Float GetSet;
  mkCmd ProportionalGain "KP" Float GetSet;
  mkCmd VelocityFeedForward "KV" Float GetSet;
  mkCmd Enable "MM" Int GetSetNone;
  mkCmd HomeSearchVelocity "OH" Float GetSet;
  mkCmd HomeSearch "OR" ParamNone GetSetNone;
  mkCmd HomeSearchTimeout "OT" Float GetSet;
  mkCmd MoveAbs "PA" Float GetSet;
  mkCmd MoveRel "PR" Float GetSet;
  mkCmd MoveEstimate "PT" Float GetAlways;
  mkCmd Configure "PW" Int GetSet;
  mkCmd Analog "RA" ParamNone GetAlways;
  mkCmd TTLInputVal "RB" ParamNone GetAlways;
  mkCmd Reset "RS" ParamNone GetSetNone;
  mkCmd RS485Adress "SA" Int GetSet;
  mkCmd TTLOutputVal "SB" Int GetSet;
  mkCmd ControlLoopState "SC" Int GetSet;
  mkCmd NegativeSoftwareLim "SL" Float GetSet;
  mkCmd PositiveSoftwareLim "SR" Float GetSet;
  mkCmd StopMotion "ST" ParamNone GetSetNone;
  mkCmd EncoderIncrementVal "SU" Float GetSet;
  mkCmd CommandErrorString "TB" ParamNone GetAlways;
  mkCmd LastCommandErr "TE" ParamNone GetAlways;
  mkCmd PositionAsSet "TH" ParamNone GetAlways;
  mkCmd PositionReal "TP" ParamNone GetAlways;
  mkCmd ErrorStatus "TS" ParamNone GetAlways;
  mkCmd Velocity "VA" Float GetSet;
  mkCmd BaseVelocity "Vb" Float GetSet;
  mkCmd ControllerRevisionInfo "VE" ParamNone GetAlways;
  mkCmd AllConfigParam "ZT" ParamNone GetAlways;
  mkCmd ESPStageConfig "ZX" ParamNone GetSet
].

Definition mkStatus (c : string) (t : StatusType) : StatusCharSet :=
  {| Code := c; Type_ := t |}.

Definition StatusLibrary : list StatusCharSet := [
  mkStatus "0A" NoReference;
  mkStatus "0B" NoReference;
  mkStatus "0C" NoReference;
  mkStatus "0D" NoReference;
  mkStatus "0E" NoReference;
  mkStatus "0F" NoReference;
  mkStatus "10" NoReference;
  mkStatus "11" NoReference;
  mkStatus "14" Config;
  mkStatus "1E" Homing;
  mkStatus "1F" Homing;
  mkStatus "28" Moving;
  mkStatus "32" Ready;
  mkStatus "33" Ready;
  mkStatus "34" Ready;
  mkStatus "35" Ready;
  mkStatus "3C" Disabled;
  mkStatus "3D" Disabled;
  mkStatus "3E" Disabled;
  mkStatus "46" Jogging;
  mkStatus "47" Jogging
].

(** [static_cast<int>(Type)]: the position of the enumerator. *)
Definition CommandType_index (t : CommandType) : nat :=
  match t with
  | CmdNone => 0 | Acceleration => 1 | BacklashComp => 2
  | HysterisisComp => 3 | DriverVoltage => 4 | KdLowPassFilterCutOff => 5
  | FollowingErrorLim => 6 | FrictionComp => 7 | HomeSearchType => 8
  | StageIdentifier => 9 | LeaveJoggingState => 10 | KeypadEnable => 11
  | JerkTime => 12 | DerivativeGain => 13 | IntegralGain => 14
  | ProportionalGain => 15 | VelocityFeedForward => 16 | Enable => 17
  | HomeSearchVelocity => 18 | HomeSearch => 19 | HomeSearchTimeout => 20
  | MoveAbs => 21 | MoveRel => 22 | MoveEstimate => 23 | Configure => 24
  | Analog => 25 | TTLInputVal => 26 | Reset => 27 | RS485Adress => 28
  | TTLOutputVal => 29 | ControlLoopState => 30 | NegativeSoftwareLim => 31
  | PositiveSoftwareLim => 32 | StopMotion => 33 | EncoderIncrementVal => 34
  | CommandErrorString => 35 | LastCommandErr => 36 | PositionAsSet => 37
  | PositionReal => 38 | ErrorStatus => 39 | Velocity => 40
  | BaseVelocity => 41 | ControllerRevisionInfo => 42 | AllConfigParam => 43
  | ESPStageConfig => 44
  end%nat.

(** [SetCommand]: [CommandToPrint] is the only driver state it writes. *)
Definition SetCommand (Type_ : CommandType) (Parameter_ : Q)
  (GetOrSet : CommandGetSetType) : CommandEntry :=
  {| EntryCommand :=
       nth (CommandType_index Type_) CommandLibrary
           (mkCmd CmdNone "  " ParamNone GetSetNone);
     GetOrSet := GetOrSet;
     Parameter_ := Parameter_ |}.

(** *** The serial link

    [tx] is every byte written so far.  Each call of [write] consumes one
    entry of [short_writes] when there is one: the number of bytes the
    port accepts in that call (no entry: all of them).  [rx] holds what
    the successive calls of [readString] will come back with. *)

Inductive ReadOutcome : Type :=
| Received (line : string)   (* readStatus > 0 *)
| TimedOut                   (* readStatus == 0 *)
| BufferFull.                (* readStatus == -3 *)

Record Serial : Type := {
  is_open : bool;
  tx : string;
  short_writes : list nat;
  rx : list ReadOutcome
}.

Definition write (p : Serial) (data : string) : nat * Serial :=
  match short_writes p with
  | [] =>
      (String.length data,
       {| is_open := is_open p; tx := tx p ++ data;
          short_writes := []; rx := rx p |})
  | q :: qs =>
      let n := Nat.min q (String.length data) in
      (n,
       {| is_open := is_open p; tx := tx p ++ String.substring 0 n data;
          short_writes := qs; rx := rx p |})
  end.

(** [flushInput] drops bytes that arrived before the query; [rx] lists
    what arrives after it, so it is left as it is. *)
Definition flushInput (p : Serial) : Serial := p.

(** The text [SerialRead] returns for each status of [readString]. *)
Definition outcome_text (o : ReadOutcome) : string :=
  match o with
  | Received receivedString => receivedString
  | TimedOut => "Timeout"
  | BufferFull => "Error"
  end.

(** [SerialRead]: one call of [readString]; a device with nothing more to
    say lets it time out. *)
Definition SerialRead (p : Serial) : string * Serial :=
  match rx p with
  | [] => ("Timeout", p)
  | o :: rest =>
      (outcome_text o,
       {| is_open := is_open p; tx := tx p;
          short_writes := short_writes p; rx := rest |})
  end.

(** [std::to_string(int)]. *)
Definition to_string_int (z : Z) : string :=
  NilZero.string_of_int (Z.to_int z).

(** [static_cast<int>(float)]: truncation towards zero. *)
Definition float_to_int (q : Q) : Z :=
  Z.quot (Qnum q) (Zpos (Qden q)).

Fixpoint zeros (n : nat) : string :=
  match n with
  | O => ""
  | S k => "0" ++ zeros k
  end.

Definition pad_zeros (width : nat) (s : string) : string :=
  zeros (width - String.length s) ++ s.

(** [std::to_string(float)], the text of [printf("%f")]: six decimals,
    rounded to nearest, ties to even. *)
Definition to_string_float (q : Q) : string :=
  let num := Z.abs (Qnum q) * 1000000 in
  let den := Zpos (Qden q) in
  let fl := num / den in
  let r := num mod den in
  let scaled :=
    if (2 * r <? den) then fl
    else if (den <? 2 * r) then fl + 1
    else if Z.even fl then fl else fl + 1 in
  let int_part := NilZero.string_of_uint (N.to_uint (Z.to_N (scaled / 1000000))) in
  let frac_part :=
    pad_zeros 6 (NilZero.string_of_uint (N.to_uint (Z.to_N (scaled mod 1000000)))) in
  (if Qnum q <? 0 then "-" else "") ++ int_part ++ "." ++ frac_part.

(** [SendCurrentCommand]: [true] when the command was sent. *)
Definition SendCurrentCommand (CommandToPrint : CommandEntry)
  (my_serial : Serial) : bool * Serial :=
  let '(n, s1) := write my_serial ControllerAdress in
  if negb (Nat.eqb n (String.length ControllerAdress)) then (false, s1)
  else
    let commandString := CommandChar (EntryCommand CommandToPrint) in
    let s2 := snd (write s1 commandString) in
    let s3 :=
      match GetOrSet CommandToPrint with
      | Get => snd (write s2 "?")
      | _ =>
          let paramString :=
            match SendType (EntryCommand CommandToPrint) with
            | Int => to_string_int (float_to_int (Parameter_ CommandToPrint))
            | Float => to_string_float (Parameter_ CommandToPrint)
            | ParamNone => ""
            end in
          snd (write s2 paramString)
      end in
    (true, snd (write s3 CRLF)).

Definition Home (my_serial : Serial) : bool * Serial :=
  SendCurrentCommand (SetCommand HomeSearch 0 GetSetNone) my_serial.

Definition RelativeMove (DistanceToMove : Q) (my_serial : Serial) : Serial :=
  snd (SendCurrentCommand (SetCommand MoveRel DistanceToMove Set_) my_serial).

Definition AbsoluteMove (AbsoluteDistanceToMove : Q) (my_serial : Serial)
  : Serial :=
  snd (SendCurrentCommand (SetCommand MoveAbs AbsoluteDistanceToMove Set_)
         my_serial).

Definition StopMotion_ (my_serial : Serial) : Serial :=
  snd (SendCurrentCommand (SetCommand StopMotion 0 GetSetNone) my_serial).

Definition GetPosition (my_serial : Serial) : string * Serial :=
  let s1 := flushInput my_serial in
  let s2 := snd (SendCurrentCommand (SetCommand PositionReal 0 Get) s1) in
  SerialRead s2.

Definition SMC100CClose (my_serial : Serial) : Serial :=
  if is_open my_serial
  then {| is_open := false; tx := tx my_serial;
          short_writes := short_writes my_serial; rx := rx my_serial |}
  else my_serial.

(** The text [GetCurrentStatus] returns for a table entry. *)
Definition status_text (t : StatusType) : string :=
  match t with
  | Config => "Configuration"
  | NoReference => "No Reference"
  | Homing => "Homing"
  | Moving => "Moving"
  | Ready => "Ready"
  | Disabled => "Disabled"
  | Jogging => "Jogging"
  | Error => "Error"
  | Unknown => "Unknown"
  end.

(** The [for] loop of [GetCurrentStatus] over [StatusLibrary]. *)
Fixpoint lookup_status (statusCode : string) (lib : list StatusCharSet)
  : option string :=
  match lib with
  | [] => None
  | statusChar :: rest =>
      if String.eqb statusCode (Code statusChar)
      then Some (status_text (Type_ statusChar))
      else lookup_status statusCode rest
  end.

(** [GetCurrentStatus] from the line [SerialRead()] returned on. *)
Definition decode_status (response : string) : result string :=
  statusCode <- substr response 7 2 ;;
  match lookup_status statusCode StatusLibrary with
  | Some text => Ok text
  | None => Ok ("Unknown Status Code: " ++ statusCode)
  end.

Definition GetCurrentStatus (my_serial : Serial) : result string * Serial :=
  let s1 := flushInput my_serial in
  let s2 := snd (SendCurrentCommand (SetCommand ErrorStatus 0 Get) s1) in
  let '(response, s3) := SerialRead s2 in
  (decode_status response, s3).

End SMC100C.

(** ** Stage moves and convergence helpers ([individualCommands.cpp]) *)

Module Commands.
Import SMC100C.

(** What [moveStage] asks of the controller, in the order it asks. *)
Inductive Action : Type :=
| ActRelativeMove (moveStep : Q)
| ActStatus (outcome : result string).

Definition obind {A B : Type} (o : option A) (k : A -> option B) : option B :=
  match o with
  | Some a => k a
  | None => None
  end.

(** The inner [while (true)] of [moveAndCheckReady]: poll the status
    until it reads ["Ready"]; an exception leaves the loop for the
    handler.  [fuel] bounds the number of polls; [None] is a loop still
    running when the bound is reached. *)
Fixpoint wait_ready (fuel : nat) (controller : Serial)
  : option (result unit * list Action * Serial) :=
  match fuel with
  | O => None
  | S fuel' =>
      let '(st, c1) := GetCurrentStatus controller in
      match st with
      | Throw e => Some (Throw e, [ActStatus st], c1)
      | Ok text =>
          if String.eqb text "Ready" then Some (Ok tt, [ActStatus st], c1)
          else
            obind (wait_ready fuel' c1) (fun '(r, tr, c2) =>
            Some (r, ActStatus st :: tr, c2))
      end
  end.

(** The lambda [moveAndCheckReady]: the outer [while (true)] with its
    [try]/[catch]; the handler catches every [std::exception] and the
    loop starts again from [RelativeMove].  [fuel] bounds the attempts
    and the polls of each attempt. *)
Fixpoint moveAndCheckReady_from (attempts fuel : nat) (moveStep : Q)
  (controller : Serial) : option (list Action * Serial) :=
  match attempts with
  | O => None
  | S attempts' =>
      let c1 := RelativeMove moveStep controller in
      obind (wait_ready fuel c1) (fun '(r, tr, c2) =>
      match r with
      | Ok _ => Some (ActRelativeMove moveStep :: tr, c2)
      | Throw _ =>
          obind (moveAndCheckReady_from attempts' fuel moveStep c2)
            (fun '(tr', c3) =>
          Some ((ActRelativeMove moveStep :: tr ++ tr')%list, c3))
      end)
  end.

Definition moveAndCheckReady (fuel : nat) (moveStep : Q) (controller : Serial)
  : option (list Action * Serial) :=
  moveAndCheckReady_from fuel fuel moveStep controller.

Definition moveStage (fuel : nat) (controller : Serial) (stepSize : Q)
  (isClip : bool) (dlpPumpingAction : Q) : option (list Action * Serial) :=
  obind (if negb isClip
         then let updlp := (-1 * dlpPumpingAction)%Q in
              moveAndCheckReady fuel updlp controller
         else Some ([], controller)) (fun '(tr1, c1) =>
  obind (moveAndCheckReady fuel stepSize c1) (fun '(tr2, c2) =>
  obind (if negb isClip
         then moveAndCheckReady fuel dlpPumpingAction c2
         else Some ([], c2)) (fun '(tr3, c3) =>
  Some ((tr1 ++ tr2 ++ tr3)%list, c3)))).

(** *** [checkTimeout] and [waitForPosition]

    Time is counted in ticks of [high_resolution_clock]; [ms] is the
    number of ticks in a millisecond.  [delay i] is the time iteration
    [i] of the loop takes on top of its two [sleep_for] calls of 50 ms
    (the serial exchange, scheduling).  The parse of the position text to
    [float] and the comparison of floats are taken as they come:
    [stof] is [std::stof] and [within currentPosition targetPosition
    tolerance] is [abs(currentPosition - targetPosition) < tolerance]. *)

Inductive WaitEvent : Type :=
| EvGetPosition (pos : string)
| EvAbsoluteMove (target : Q).

Fixpoint erase_char (ch : ascii) (s : string) : string :=
  match s with
  | EmptyString => EmptyString
  | String c rest =>
      if Ascii.eqb c ch then erase_char ch rest
      else String c (erase_char ch rest)
  end.

Section WaitForPosition.

Variable stof : string -> result Q.
Variable within : Q -> Q -> Q -> bool.
Variable ms : positive.
Variable delay : nat -> N.

(** [duration_cast<seconds>(currentTime - startTime) >= timeout], with
    [elapsed = currentTime - startTime] in ticks and [timeout] in
    seconds. *)
Definition checkTimeout (elapsed : Z) (timeout : Z) : bool :=
  timeout <=? elapsed / (1000 * Zpos ms).

(** The [try] block of one iteration, from the text [GetPosition]
    returned: the value assigned to [positionMatched].  An exception of
    [substr] or [stof] is caught and leaves it [false]. *)
Definition position_matches (targetPosition tolerance : Q) (reply : string)
  : bool :=
  let pos := erase_char CR (erase_char LF reply) in
  if Nat.leb 9 (String.length pos) then
    match (text <- substr pos 3 6 ;;
           currentPosition <- stof text ;;
           Ok (within currentPosition targetPosition tolerance)) with
    | Ok b => b
    | Throw _ => false
    end
  else false.

(** The [while (!positionMatched)] loop from iteration [i] on, entered
    [elapsed] ticks after [startTime].  The result is the final
    [positionMatched], the number of iterations run, the calls made and
    the controller. *)
Fixpoint waitForPosition_loop (fuel i : nat) (elapsed : Z)
  (controller : Serial) (targetPosition tolerance : Q) (timeout : Z)
  : option (bool * nat * list WaitEvent * Serial) :=
  match fuel with
  | O => None
  | S fuel' =>
      (* sleep_for(50 ms) *)
      let '(pos, c1) := GetPosition controller in
      (* sleep_for(50 ms) *)
      let positionMatched := position_matches targetPosition tolerance pos in
      let c2 := AbsoluteMove targetPosition c1 in
      let now := elapsed + 100 * Zpos ms + Z.of_N (delay i) in
      let events := [EvGetPosition pos; EvAbsoluteMove targetPosition] in
      if checkTimeout now timeout then Some (positionMatched, 1%nat, events, c2)
      else if positionMatched then Some (true, 1%nat, events, c2)
      else
        obind (waitForPosition_loop fuel' (S i) now c2 targetPosition
                 tolerance timeout) (fun '(m, n, tr, c3) =>
        Some (m, S n, (events ++ tr)%list, c3))
  end.

Definition waitForPosition (fuel : nat) (controller : Serial)
  (targetPosition tolerance : Q) (timeout : Z)
  : option (bool * nat * list WaitEvent * Serial) :=
  waitForPosition_loop fuel 0 0 controller targetPosition tolerance timeout.

End WaitForPosition.

End Commands.

(** ** The settings table ([LayerSettings], [readSettingsOrdered]) *)

Module Settings.

(** [struct LayerSettings] of [individualCommands.h]. *)
Record LayerSettings : Type := {
  intensity : Z;
  exposureTime : Z;
  darkTime : Z
}.

(** [operator<]: [std::tie(...) < std::tie(...)], lexicographic. *)
Definition lt (a b : LayerSettings) : bool :=
  if intensity a <? intensity b then true
  else if intensity b <? intensity a then false
  else if exposureTime a <? exposureTime b then true
  else if exposureTime b <? exposureTime a then false
  else darkTime a <? darkTime b.

(** [operator==]. *)
Definition eqb (a b : LayerSettings) : bool :=
  ((intensity a =? intensity b) && (exposureTime a =? exposureTime b)
   && (darkTime a =? darkTime b))%bool.

(** *** Reading the file

    A file is its content, or [None] when it cannot be opened.
    [std::getline] fails on a stream that is not open and at the end of
    the content; a last line need not end with a newline. *)

Fixpoint getlines (line : string) (content : string) : list string :=
  match content with
  | EmptyString =>
      match line with
      | EmptyString => []
      | _ => [line]
      end
  | String c rest =>
      if Ascii.eqb c LF then line :: getlines "" rest
      else getlines (line ++ String c "") rest
  end.

Definition file_lines (file : option string) : list string :=
  match file with
  | None => []
  | Some content => getlines "" content
  end.

(** *** Formatted extraction from [std::istringstream]

    [good] is false once [failbit] is set; every later extraction then
    leaves its target as it was. *)

Record istream : Type := {
  buf : string;
  good : bool
}.

Definition is_space (c : ascii) : bool :=
  let n := nat_of_ascii c in
  (Nat.eqb n 32 || (Nat.leb 9 n && Nat.leb n 13))%bool.

Fixpoint skipws (s : string) : string :=
  match s with
  | EmptyString => s
  | String c rest => if is_space c then skipws rest else s
  end.

Definition INT_MAX : Z := 2147483647.
Definition INT_MIN : Z := -2147483648.

(** [iss >> value] for an [int] that holds [old]: at the end of the text
    the target is left alone; without a digit it becomes 0; out of range
    it becomes the nearest bound; in the three cases [failbit] is set. *)
Definition extract_int (st : istream) (old : Z) : Z * istream :=
  if negb (good st) then (old, st)
  else
    match skipws (buf st) with
    | EmptyString => (old, {| buf := ""; good := false |})
    | String c rest =>
        let negative := Ascii.eqb c "-" in
        let s1 :=
          if (negative || Ascii.eqb c "+")%bool then rest else String c rest in
        let '(v, n, s2) := read_digits s1 0 0 in
        if Nat.eqb n 0 then (0, {| buf := s2; good := false |})
        else
          let value := if negative then - v else v in
          if INT_MAX <? value then (INT_MAX, {| buf := s2; good := false |})
          else if value <? INT_MIN
               then (INT_MIN, {| buf := s2; good := false |})
               else (value, {| buf := s2; good := true |})
    end.

(** [iss >> delim] for a [char]. *)
Definition extract_char (st : istream) (old : ascii) : ascii * istream :=
  if negb (good st) then (old, st)
  else
    match skipws (buf st) with
    | EmptyString => (old, {| buf := ""; good := false |})
    | String c rest => (c, {| buf := rest; good := true |})
    end.

(** What the locals of a loop iteration hold before the extraction
    writes them: they are declared without initialiser. *)
Record Uninit : Type := {
  u_layer : Z;
  u_intensity : Z;
  u_exposureTime : Z;
  u_darkTime : Z;
  u_delim : ascii
}.

(** The extraction statement of a row and the [LayerSettings] built from
    it, with the state of the stream after it. *)
Definition parse_row (u : Uninit) (line : string) : LayerSettings * istream :=
  let iss := {| buf := line; good := true |} in
  let '(layer, iss) := extract_int iss (u_layer u) in
  let '(delim, iss) := extract_char iss (u_delim u) in
  let '(intensity, iss) := extract_int iss (u_intensity u) in
  let '(delim, iss) := extract_char iss delim in
  let '(exposureTime, iss) := extract_int iss (u_exposureTime u) in
  let '(delim, iss) := extract_char iss delim in
  let '(darkTime, iss) := extract_int iss (u_darkTime u) in
  ({| intensity := intensity; exposureTime := exposureTime;
      darkTime := darkTime |}, iss).

(** *** The table

    [std::map<LayerSettings, int>] as an association list: two keys are
    the same key when neither is less than the other. *)

Definition equiv (a b : LayerSettings) : bool :=
  (negb (lt a b) && negb (lt b a))%bool.

Fixpoint map_find (settingsCount : list (LayerSettings * Z))
  (key : LayerSettings) : option Z :=
  match settingsCount with
  | [] => None
  | (k, v) :: rest => if equiv k key then Some v else map_find rest key
  end.

(** [++] on an [int]; the wrap-around stands for the overflow. *)
Definition int_incr (v : Z) : Z :=
  (v + 1 + 2147483648) mod 4294967296 - 2147483648.

(** [settingsCount[key]++]: a missing key is inserted with 0 first. *)
Fixpoint map_incr (settingsCount : list (LayerSettings * Z))
  (key : LayerSettings) : list (LayerSettings * Z) :=
  match settingsCount with
  | [] => [(key, int_incr 0)]
  | (k, v) :: rest =>
      if equiv k key then (k, int_incr v) :: rest
      else (k, v) :: map_incr rest key
  end.

(** The [for] loop over [orderedSettings] that increments the first
    entry equal to the setting and breaks. *)
Fixpoint vector_incr (orderedSettings : list (LayerSettings * Z))
  (currentSetting : LayerSettings) : list (LayerSettings * Z) :=
  match orderedSettings with
  | [] => []
  | (setting, count) :: rest =>
      if eqb setting currentSetting then (setting, int_incr count) :: rest
      else (setting, count) :: vector_incr rest currentSetting
  end.

(** The body of the [while] loop once the row is parsed. *)
Definition add_setting
  (state : list (LayerSettings * Z) * list (LayerSettings * Z))
  (currentSetting : LayerSettings)
  : list (LayerSettings * Z) * list (LayerSettings * Z) :=
  let '(orderedSettings, settingsCount) := state in
  let '(orderedSettings1, settingsCount1) :=
    match map_find settingsCount currentSetting with
    | None => ((orderedSettings ++ [(currentSetting, 1)])%list, settingsCount)
    | Some _ =>
        (vector_incr orderedSettings currentSetting,
         map_incr settingsCount currentSetting)
    end in
  (orderedSettings1, map_incr settingsCount1 currentSetting).

(** The settings the data rows carry: the header is skipped, row [i]
    (from 0) is parsed with the locals as [uninit i] has them. *)
Fixpoint parse_rows (uninit : nat -> Uninit) (i : nat) (rows : list string)
  : list LayerSettings :=
  match rows with
  | [] => []
  | line :: rest =>
      fst (parse_row (uninit i) line) :: parse_rows uninit (S i) rest
  end.

Definition data_rows (file : option string) : list string :=
  tl (file_lines file).

Definition readSettingsOrdered (uninit : nat -> Uninit) (file : option string)
  : list (LayerSettings * Z) :=
  fst (fold_left add_setting (parse_rows uninit 0 (data_rows file)) ([], [])).

End Settings.

(** ** The print loop ([RunFull], [RunFullDynamic])

    One iteration of the frame loop is a function of the loop variables
    and of what the outside world answers during that iteration (a
    [Tick]).  The calls made on the window, the stage, the light engine
    and the log are the events of the run, in order. *)

Module PrintLoop.

Import Settings.

Inductive Event : Type :=
| Log (message : string)                 (* logCallback(message) *)
| Draw (textureIndex : nat)              (* clear, draw textures[i], display *)
| Blank                                  (* clear, display *)
| LoadTexture (textureIndex imageIndex : nat)
| Launch                                 (* stageThread = std::async(moveStage, ...) *)
| Join                                   (* stageThread.get() *)
| GetPositionCall (reply : string)       (* controller.GetPosition() *)
| HomeCall (sent : bool)                 (* controller.Home() *)
| CloseCall                              (* controller.SMC100CClose() *)
| SetCurrent (value : Z)                 (* SetCurrent(0, value) *)
| PrintedLayer (settings : LayerSettings)(* the "Printed layer" line of the swap *)
| WindowClose.                           (* window.close() *)

(** What the outside world answers in one iteration. *)
Record Tick : Type := {
  closeRequested : bool;   (* pollEvent delivers sf::Event::Closed *)
  abortFlag : bool;        (* getAbortFlag() *)
  phaseClock : Z;          (* the reading [now] of the phase logs, in ms *)
  clock : Z;               (* the reading for the dark timer, in ms *)
  stageReady : bool;       (* wait_for(0) == future_status::ready *)
  positionReply : string   (* what controller.GetPosition() returns *)
}.

Record LoopState : Type := {
  windowOpen : bool;
  currentTextureIndex : nat;
  currentImageIndex : nat;
  texture0 : option nat;        (* image last loaded into textures[0] *)
  texture1 : option nat;        (* image last loaded into textures[1] *)
  nextImageLoaded : bool;
  isNextImageLoading : bool;
  allImagesShown : bool;
  stageThread : bool;           (* the future holds a stage move not yet got *)
  isStageThreadRunning : bool;
  darkTimeStart : Z;
  phaseStartTime : Z;
  imageDisplayCount : Z;
  filenameLogged : bool;
  inLightPhase : bool;
  displayImage : bool;
  currentLayer : Z;
  inInitialPhase : bool;
  layercounter : Z
}.

Definition texture (s : LoopState) (i : nat) : option nat :=
  match i with
  | O => texture0 s
  | _ => texture1 s
  end.

(** How an iteration ends. *)
Inductive Flow : Type :=
| Continue
| Return_.     (* the [return] of the abort check *)

(** The static run and the dynamic run share the text of the loop body
    but for the exposure threshold, the phase bookkeeping of the first
    layers and the layer counter of the group. *)
Inductive Mode : Type :=
| Static (maxImageDisplayCount initialExposureCounter initialLayers : Z)
| Dynamic (currentSetting : LayerSettings).

Definition maxCount_of (mode : Mode) (s : LoopState) : Z :=
  match mode with
  | Static maxImageDisplayCount initialExposureCounter _ =>
      if inInitialPhase s then initialExposureCounter else maxImageDisplayCount
  | Dynamic currentSetting => exposureTime currentSetting
  end.

(** The log lines of the position query at the end of a light phase. *)
Definition position_log (reply : string) : Event :=
  let pos := Commands.erase_char CR (Commands.erase_char LF reply) in
  if Nat.leb 9 (String.length pos)
  then Log ("Position: " ++ String.substring 3 6 pos ++ " mm")
  else Log "Error: Position string too short or in unexpected format.".

Definition to_string_nat (n : nat) : string :=
  SMC100C.to_string_int (Z.of_nat n).

Section Body.

Variable imagePaths : list string.
Variable mode : Mode.
Variable darkDuration : Z.

(** The branch [if (displayImage)]. *)
Definition light_branch (s : LoopState) (e : Tick)
  : LoopState * list Event * Flow :=
  if abortFlag e then (s, [Log "Run Full aborted."], Return_)
  else
    let first := (negb (filenameLogged s) && inLightPhase s)%bool in
    let ev_first :=
      if first
      then [Log ("Displaying: " ++ nth (currentImageIndex s) imagePaths "");
            Log ("Dark phase duration: "
                 ++ SMC100C.to_string_int (phaseClock e - phaseStartTime s)
                 ++ " ms")]
      else [] in
    let filenameLogged1 := if first then true else filenameLogged s in
    let inLightPhase1 := if first then false else inLightPhase s in
    let phaseStartTime1 := if first then phaseClock e else phaseStartTime s in
    let maxCount := maxCount_of mode s in
    let imageDisplayCount1 := imageDisplayCount s + 1 in
    if maxCount <=? imageDisplayCount1 then
      let currentLayer1 := currentLayer s + 1 in
      let inInitialPhase1 :=
        match mode with
        | Static _ _ initialLayers =>
            if initialLayers <=? currentLayer1 then false else inInitialPhase s
        | Dynamic _ => inInitialPhase s
        end in
      ({| windowOpen := windowOpen s;
          currentTextureIndex := currentTextureIndex s;
          currentImageIndex := currentImageIndex s;
          texture0 := texture0 s; texture1 := texture1 s;
          nextImageLoaded := nextImageLoaded s;
          isNextImageLoading := isNextImageLoading s;
          allImagesShown := allImagesShown s;
          stageThread := stageThread s;
          isStageThreadRunning := isStageThreadRunning s;
          darkTimeStart := clock e;
          phaseStartTime := phaseStartTime1;
          imageDisplayCount := 0;
          filenameLogged := filenameLogged1;
          inLightPhase := inLightPhase1;
          displayImage := false;
          currentLayer := currentLayer1;
          inInitialPhase := inInitialPhase1;
          layercounter := layercounter s |},
       (Draw (currentTextureIndex s) :: ev_first
        ++ [GetPositionCall (positionReply e);
            position_log (positionReply e);
            Log ("Current Image Index: " ++ to_string_nat (currentImageIndex s)
                 ++ " / " ++ to_string_nat (List.length imagePaths))])%list,
       Continue)
    else
      ({| windowOpen := windowOpen s;
          currentTextureIndex := currentTextureIndex s;
          currentImageIndex := currentImageIndex s;
          texture0 := texture0 s; texture1 := texture1 s;
          nextImageLoaded := nextImageLoaded s;
          isNextImageLoading := isNextImageLoading s;
          allImagesShown := allImagesShown s;
          stageThread := stageThread s;
          isStageThreadRunning := isStageThreadRunning s;
          darkTimeStart := darkTimeStart s;
          phaseStartTime := phaseStartTime1;
          imageDisplayCount := imageDisplayCount1;
          filenameLogged := filenameLogged1;
          inLightPhase := inLightPhase1;
          displayImage := displayImage s;
          currentLayer := currentLayer s;
          inInitialPhase := inInitialPhase s;
          layercounter := layercounter s |},
       (Draw (currentTextureIndex s) :: ev_first)%list,
       Continue).

(** The branch [else]: the dark screen, the launch of the stage move,
    the preload of the next image, the poll of the stage move and the
    swap. *)
Definition dark_branch (s : LoopState) (e : Tick)
  : LoopState * list Event * Flow :=
  (* phase log *)
  let ev_phase :=
    if negb (inLightPhase s)
    then [Log ("Light phase duration: "
               ++ SMC100C.to_string_int (phaseClock e - phaseStartTime s)
               ++ " ms")]
    else [] in
  let phaseStartTime1 :=
    if negb (inLightPhase s) then phaseClock e else phaseStartTime s in
  (* if (!isStageThreadRunning && !nextImageLoaded) *)
  let launch := (negb (isStageThreadRunning s) && negb (nextImageLoaded s))%bool in
  let ev_launch := if launch then [Launch] else [] in
  let running1 := if launch then true else isStageThreadRunning s in
  let thread1 := if launch then true else stageThread s in
  (* loading of the next image *)
  let more := Nat.ltb (currentImageIndex s + 1) (List.length imagePaths) in
  let load := (more && negb (isNextImageLoading s))%bool in
  let nextTextureIndex := (1 - currentTextureIndex s)%nat in
  let ev_load :=
    if load
    then [LoadTexture nextTextureIndex (currentImageIndex s + 1);
          Log "Next Image Loaded."]
    else [] in
  let loading1 := if load then true else isNextImageLoading s in
  let loaded1 := if load then true else nextImageLoaded s in
  let texture0_1 :=
    if load then
      match nextTextureIndex with
      | O => Some (currentImageIndex s + 1)%nat
      | _ => texture0 s
      end
    else texture0 s in
  let texture1_1 :=
    if load then
      match nextTextureIndex with
      | O => texture1 s
      | _ => Some (currentImageIndex s + 1)%nat
      end
    else texture1 s in
  let allShown1 :=
    if load then allImagesShown s
    else if (negb more && negb (isNextImageLoading s))%bool then true
         else allImagesShown s in
  (* poll of the stage move *)
  let done := (running1 && stageReady e)%bool in
  let ev_join := if done then [Join] else [] in
  let running2 := if done then false else running1 in
  let thread2 := if done then false else thread1 in
  (* the swap *)
  let swap :=
    ((darkDuration <? clock e - darkTimeStart s) && loaded1
     && negb running2)%bool in
  let ev_swap :=
    if swap then
      ([Blank; Blank] ++
       match mode with
       | Dynamic currentSetting => [PrintedLayer currentSetting]
       | Static _ _ _ => []
       end)%list
    else [] in
  ({| windowOpen := windowOpen s;
      currentTextureIndex :=
        if swap then (1 - currentTextureIndex s)%nat
        else currentTextureIndex s;
      currentImageIndex :=
        if swap then S (currentImageIndex s) else currentImageIndex s;
      texture0 := texture0_1; texture1 := texture1_1;
      nextImageLoaded := if swap then false else loaded1;
      isNextImageLoading := if swap then false else loading1;
      allImagesShown := allShown1;
      stageThread := thread2;
      isStageThreadRunning := running2;
      darkTimeStart := darkTimeStart s;
      phaseStartTime := phaseStartTime1;
      imageDisplayCount := imageDisplayCount s;
      filenameLogged := if swap then false else filenameLogged s;
      inLightPhase := if negb (inLightPhase s) then true else inLightPhase s;
      displayImage := if swap then true else displayImage s;
      currentLayer := currentLayer s;
      inInitialPhase := inInitialPhase s;
      layercounter :=
        match mode with
        | Dynamic _ => if swap then layercounter s + 1 else layercounter s
        | Static _ _ _ => layercounter s
        end |},
   (Blank :: ev_phase ++ ev_launch ++ ev_load ++ ev_join ++ ev_swap)%list,
   Continue).

(** The body shared by the two loops: the branch on [displayImage]. *)
Definition body (s : LoopState) (e : Tick) : LoopState * list Event * Flow :=
  if displayImage s then light_branch s e else dark_branch s e.

(** [if (allImagesShown && !displayImage)]. *)
Definition finished (s : LoopState) : bool :=
  (allImagesShown s && negb (displayImage s))%bool.

Definition finish_events : list Event :=
  [Log "All images shown, exiting program."; SetCurrent 0].

End Body.

Definition close_window (s : LoopState) : LoopState :=
  {| windowOpen := false;
     currentTextureIndex := currentTextureIndex s;
     currentImageIndex := currentImageIndex s;
     texture0 := texture0 s; texture1 := texture1 s;
     nextImageLoaded := nextImageLoaded s;
     isNextImageLoading := isNextImageLoading s;
     allImagesShown := allImagesShown s;
     stageThread := stageThread s;
     isStageThreadRunning := isStageThreadRunning s;
     darkTimeStart := darkTimeStart s;
     phaseStartTime := phaseStartTime s;
     imageDisplayCount := imageDisplayCount s;
     filenameLogged := filenameLogged s;
     inLightPhase := inLightPhase s;
     displayImage := displayImage s;
     currentLayer := currentLayer s;
     inInitialPhase := inInitialPhase s;
     layercounter := layercounter s |}.

(** The loop variables as declared before the loop; [startClock] is the
    clock reading that initialises [phaseStartTime], [open] what
    [window.isOpen()] is on entry. *)
Definition initial_state (open : bool) (startClock : Z) : LoopState :=
  {| windowOpen := open;
     currentTextureIndex := 0;
     currentImageIndex := 0;
     texture0 := Some 0%nat; texture1 := None;
     nextImageLoaded := false;
     isNextImageLoading := false;
     allImagesShown := false;
     stageThread := false;
     isStageThreadRunning := false;
     darkTimeStart := 0;
     phaseStartTime := startClock;
     imageDisplayCount := 0;
     filenameLogged := false;
     inLightPhase := true;
     displayImage := true;
     currentLayer := 0;
     inInitialPhase := true;
     layercounter := 0 |}.

Definition set_layercounter (s : LoopState) (v : Z) : LoopState :=
  {| windowOpen := windowOpen s;
     currentTextureIndex := currentTextureIndex s;
     currentImageIndex := currentImageIndex s;
     texture0 := texture0 s; texture1 := texture1 s;
     nextImageLoaded := nextImageLoaded s;
     isNextImageLoading := isNextImageLoading s;
     allImagesShown := allImagesShown s;
     stageThread := stageThread s;
     isStageThreadRunning := isStageThreadRunning s;
     darkTimeStart := darkTimeStart s;
     phaseStartTime := phaseStartTime s;
     imageDisplayCount := imageDisplayCount s;
     filenameLogged := filenameLogged s;
     inLightPhase := inLightPhase s;
     displayImage := displayImage s;
     currentLayer := currentLayer s;
     inInitialPhase := inInitialPhase s;
     layercounter := v |}.

(** What the outside world answers during a whole run.  [directory] is
    the listing of the image directory after [std::sort] with
    [customSort], or [None] when the enumeration raises
    [filesystem_error]. *)
Record World : Type := {
  directory : option (list string);
  fsErrorText : string;        (* e.what() of the filesystem_error *)
  firstLoadOk : bool;          (* textures[0].loadFromFile(imagePaths[0]) *)
  initOk : bool;               (* initializeController(controller) *)
  windowIsOpen : bool;         (* window.isOpen() on entry of the loop *)
  startClock : Z;
  firstPollCloses : bool;      (* RunFullDynamic polls the window once *)
  ticks : list Tick;
  finalPosition : string;      (* the last controller.GetPosition() *)
  homeSent : bool              (* what controller.Home() returns *)
}.

Inductive RunResult : Type :=
| FilesystemError      (* return from the catch of the enumeration *)
| EmptyDirectory       (* imagePaths[0] of an empty vector: undefined *)
| ProcessExit          (* exit(0): the controller did not initialise *)
| Aborted              (* return from the abort check *)
| Completed.           (* the end of the function *)

Inductive LoopExit : Type :=
| LoopAborted
| LoopEnded.

(** [while (window.isOpen())] of [RunFull].  [None]: the ticks given do
    not reach the end of the loop. *)
Fixpoint RunFull_loop (imagePaths : list string) (mode : Mode)
  (darkDuration : Z) (env : list Tick) (s : LoopState)
  : option (LoopExit * LoopState * list Event) :=
  if negb (windowOpen s) then Some (LoopEnded, s, [])
  else
    match env with
    | [] => None
    | e :: rest =>
        let s0 := if closeRequested e then close_window s else s in
        let ev0 := if closeRequested e then [WindowClose] else [] in
        let '(s1, ev1, flow) := body imagePaths mode darkDuration s0 e in
        match flow with
        | Return_ => Some (LoopAborted, s1, (ev0 ++ ev1)%list)
        | Continue =>
            if finished s1
            then Some (LoopEnded, s1, (ev0 ++ ev1 ++ finish_events)%list)
            else
              Commands.obind (RunFull_loop imagePaths mode darkDuration rest s1)
                (fun '(x, s2, evs) => Some (x, s2, (ev0 ++ ev1 ++ evs)%list))
        end
    end.

(** The code after the loop, shared by the two runs. *)
Definition shutdown (s : LoopState) (w : World) : list Event :=
  ((if isStageThreadRunning s then [Join] else [])
   ++ [GetPositionCall (finalPosition w);
       Log ("Final position: " ++ finalPosition w);
       HomeCall (homeSent w)]
   ++ (if homeSent w then [Log "Homed"] else [])
   ++ [CloseCall; Log "Closed connection"; WindowClose])%list.

(** The code before the loop, shared by the two runs but for the first
    log line: either the result that ends the run there, or the image
    paths. *)
Definition setup (started : string) (isClip : bool) (w : World)
  : list Event * (RunResult + list string) :=
  let ev_start :=
    (Log started :: (if negb isClip then [Log "Dlp mode initialized."] else [])
     ++ [Log "Adding paths to imagePaths vector."])%list in
  match directory w with
  | None =>
      ((ev_start ++ [Log ("Filesystem error: " ++ fsErrorText w)])%list,
       inl FilesystemError)
  | Some [] => (ev_start, inl EmptyDirectory)
  | Some (first :: others) =>
      let imagePaths := first :: others in
      let ev_load :=
        (LoadTexture 0 0
         :: (if firstLoadOk w then []
             else [Log ("Failed to load first image: " ++ first)]))%list in
      let ev_init := [Log "Testing Initialization..."] in
      if initOk w
      then ((ev_start ++ ev_load ++ ev_init ++ [Log "Success"])%list,
            inr imagePaths)
      else ((ev_start ++ ev_load ++ ev_init)%list, inl ProcessExit)
  end.

Definition RunFull (maxImageDisplayCount : Z) (mindarktime : Z)
  (isClip : bool) (initialExposureCounter initialLayers : Z) (w : World)
  : option (RunResult * list Event) :=
  match setup "Run Full has started" isClip w with
  | (ev, inl stop) => Some (stop, ev)
  | (ev, inr imagePaths) =>
      let mode :=
        Static maxImageDisplayCount initialExposureCounter initialLayers in
      Commands.obind
        (RunFull_loop imagePaths mode mindarktime (ticks w)
           (initial_state (windowIsOpen w) (startClock w)))
        (fun '(x, s, evs) =>
           match x with
           | LoopAborted => Some (Aborted, (ev ++ evs)%list)
           | LoopEnded => Some (Completed, (ev ++ evs ++ shutdown s w)%list)
           end)
  end.

(** *** The dynamic run *)

Inductive GroupExit : Type :=
| GroupAborted    (* return from the abort check *)
| GroupBreak      (* break: all images shown *)
| GroupDone.      (* layercounter > layerCount *)

(** [while (layercounter <= layerCount)] of one group; the ticks left
    over are returned. *)
Fixpoint group_loop (imagePaths : list string) (currentSetting : LayerSettings)
  (layerCount : Z) (env : list Tick) (s : LoopState)
  : option (GroupExit * LoopState * list Event * list Tick) :=
  if layerCount <? layercounter s then Some (GroupDone, s, [], env)
  else
    match env with
    | [] => None
    | e :: rest =>
        let '(s1, ev1, flow) :=
          body imagePaths (Dynamic currentSetting) (darkTime currentSetting)
            s e in
        match flow with
        | Return_ => Some (GroupAborted, s1, ev1, rest)
        | Continue =>
            if finished s1
            then Some (GroupBreak, s1, (ev1 ++ finish_events)%list, rest)
            else
              Commands.obind
                (group_loop imagePaths currentSetting layerCount rest s1)
                (fun '(x, s2, evs, rest') =>
                   Some (x, s2, (ev1 ++ evs)%list, rest'))
        end
    end.

Definition apply_events (currentSetting : LayerSettings) : list Event :=
  [Log ("Applying settings: Intensity "
        ++ SMC100C.to_string_int (intensity currentSetting)
        ++ ", Exposure Time: "
        ++ SMC100C.to_string_int (exposureTime currentSetting)
        ++ ", Dark Time: "
        ++ SMC100C.to_string_int (darkTime currentSetting));
   (* static_cast<U8>(currentSetting.intensity) *)
   SetCurrent (intensity currentSetting mod 256)].

(** [for (const auto& setting : orderedSettings)]. *)
Fixpoint settings_loop (imagePaths : list string)
  (orderedSettings : list (LayerSettings * Z)) (env : list Tick)
  (s : LoopState) : option (LoopExit * LoopState * list Event) :=
  match orderedSettings with
  | [] => Some (LoopEnded, s, [])
  | (currentSetting, layerCount) :: more =>
      Commands.obind
        (group_loop imagePaths currentSetting layerCount env
           (set_layercounter s 0))
        (fun '(x, s1, evs, rest) =>
           match x with
           | GroupAborted =>
               Some (LoopAborted, s1, (apply_events currentSetting ++ evs)%list)
           | _ =>
               Commands.obind (settings_loop imagePaths more rest s1)
                 (fun '(y, s2, evs') =>
                    Some (y, s2,
                          (apply_events currentSetting ++ evs ++ evs')%list))
           end)
  end.

(** The first [for] loop of [RunFullDynamic] only writes to [std::cout]:
    for each group, [layerCount] times the "Printed layer" line. *)
Definition prelude (orderedSettings : list (LayerSettings * Z)) : list Event :=
  flat_map (fun setting : LayerSettings * Z =>
              repeat (PrintedLayer (fst setting)) (Z.to_nat (snd setting)))
    orderedSettings.

Definition RunFullDynamic (isClip : bool)
  (orderedSettings : list (LayerSettings * Z)) (w : World)
  : option (RunResult * list Event) :=
  match setup "Run Full Dynamic has started" isClip w with
  | (ev, inl stop) => Some (stop, (prelude orderedSettings ++ ev)%list)
  | (ev1, inr imagePaths) =>
      let ev := (prelude orderedSettings ++ ev1)%list in
      let s := initial_state (windowIsOpen w) (startClock w) in
      if negb (windowOpen s)
      then Some (Completed, (ev ++ shutdown s w)%list)
      else
        let s0 := if firstPollCloses w then close_window s else s in
        let ev0 :=
          ((if firstPollCloses w then [WindowClose] else [])
           ++ [Log "Just before loop."])%list in
        Commands.obind (settings_loop imagePaths orderedSettings (ticks w) s0)
          (fun '(x, s1, evs) =>
             match x with
             | LoopAborted => Some (Aborted, (ev ++ ev0 ++ evs)%list)
             | LoopEnded =>
                 Some (Completed, (ev ++ ev0 ++ evs ++ shutdown s1 w)%list)
             end)
  end.

End PrintLoop.

(** ** The rest of the driver ([SMC100C.cpp], [SMC100C.h]) *)

(** *** Error texts ([ConvertToErrorString]) *)

Module ErrorCodes.
Import SMC100C.

Definition ConvertToErrorString (ErrorChar : ascii) : string :=
  match ErrorChar with
  | "@"%char => "No Error Encountered"
  | "A"%char => "Unknown message"
  | "B"%char => "Incorrect address"
  | "C"%char => "Parameter missing"
  | "D"%char => "Command not allowed"
  | "E"%char => "Already homing"
  | "F"%char => "ESP stage unknown"
  | "G"%char => "Displacement out of limits"
  | "H"%char => "Not allowed in NOT REFERENCED"
  | "I"%char => "Not allowed in CONFIGURATION"
  | "J"%char => "Not allowed in DISABLED"
  | "K"%char => "Not allowed in READY"
  | "L"%char => "Not allowed in HOMING"
  | "M"%char => "Not allowed in MOVING"
  | "N"%char => "Out of soft limits"
  | "S"%char => "Communication time out"
  | "U"%char => "EEPROM error"
  | "V"%char => "Error during command execution"
  | "W"%char => "Command not allowed for PP"
  | "X"%char => "Command not allowed for CC"
  | _ => "0"
  end.

Definition NUL : ascii := Ascii.zero.

End ErrorCodes.

(** *** The polling read ([readString], [SerialRead])

    The port's input buffer is the text [pending]; each turn of the loop
    meets a clock reading, [elapsedTime] milliseconds after [startTime],
    and the bytes that [arrived] since the turn before.  [available] and
    [read] are taken at their word: [read] hands out the bytes asked for,
    oldest first, when that many are there. *)

Module LineRead.
Import SMC100C ErrorCodes.

Record Poll : Type := {
  elapsedTime : Z;
  arrived : string
}.

(** The [for] loop over the bytes just read: each is stored, and the
    final character ends the call. *)
Fixpoint copy_bytes (finalChar : ascii) (buffer receivedString : string)
  : bool * string :=
  match buffer with
  | EmptyString => (false, receivedString)
  | String c rest =>
      let receivedString' := receivedString ++ String c "" in
      if Ascii.eqb c finalChar then (true, receivedString')
      else copy_bytes finalChar rest receivedString'
  end.

(** [readString] from the state [nbBytes = length receivedString]: the
    value returned, the bytes stored, and what the port still holds.
    [None] is a loop that has used up the turns it was given. *)
Fixpoint readString_loop (polls : list Poll) (pending receivedString : string)
  (finalChar : ascii) (maxNbBytes : nat) (timeOut_ms : Z)
  : option (Z * string * string) :=
  if Nat.leb maxNbBytes (String.length receivedString)
  then Some (-3, receivedString, pending)
  else
    match polls with
    | [] => None
    | p :: rest =>
        let inbuf := pending ++ arrived p in
        if timeOut_ms <? elapsedTime p then Some (0, receivedString, inbuf)
        else if Nat.eqb (String.length inbuf) 0
        then readString_loop rest inbuf receivedString finalChar maxNbBytes
               timeOut_ms
        else
          let bytesToRead :=
            Nat.min (String.length inbuf)
              (maxNbBytes - String.length receivedString) in
          let buffer := String.substring 0 bytesToRead inbuf in
          let unread :=
            String.substring bytesToRead (String.length inbuf - bytesToRead)
              inbuf in
          match copy_bytes finalChar buffer receivedString with
          | (true, r) => Some (Z.of_nat (String.length r), r, unread)
          | (false, r) =>
              readString_loop rest unread r finalChar maxNbBytes timeOut_ms
          end
    end.

Definition readString (polls : list Poll) (pending : string)
  (finalChar : ascii) (maxNbBytes : nat) (timeOut_ms : Z)
  : option (Z * string * string) :=
  readString_loop polls pending "" finalChar maxNbBytes timeOut_ms.

(** A [char*] read as a text: the characters before the first null. *)
Fixpoint c_str (s : string) : string :=
  match s with
  | EmptyString => EmptyString
  | String c rest => if Ascii.eqb c NUL then EmptyString else String c (c_str rest)
  end.

(** [SerialRead]: a buffer of 64, the line feed as final character, 20 ms;
    the outcome as the rest of the driver reads it. *)
Definition SerialRead_outcome (polls : list Poll) (pending : string)
  : option (ReadOutcome * string) :=
  match readString polls pending LF 63 20 with
  | None => None
  | Some (readStatus, receivedString, unread) =>
      Some (if 0 <? readStatus then Received (c_str receivedString)
            else if readStatus =? 0 then TimedOut
            else BufferFull, unread)
  end.

End LineRead.

(** ** The order of the images ([customSort]) *)

Module FileOrder.
Import Settings.

(** [s] without the prefix [p], when it starts with it. *)
Fixpoint strip_prefix (p s : string) : option string :=
  match p with
  | EmptyString => Some s
  | String a p' =>
      match s with
      | EmptyString => None
      | String b s' => if Ascii.eqb a b then strip_prefix p' s' else None
      end
  end.

(** A match of [SEC_(\d+)\.PNG] that starts at the head of [s]: the
    digits of the group.  After ["SEC_"] the digits are taken as far as
    they go, and the dot has to follow; a shorter run of digits would be
    followed by a digit. *)
Definition match_at (s : string) : option string :=
  match strip_prefix "SEC_" s with
  | None => None
  | Some r =>
      let '(_, n, after) := read_digits r 0 0 in
      if Nat.eqb n 0 then None
      else
        match strip_prefix ".PNG" after with
        | Some _ => Some (String.substring 0 n r)
        | None => None
        end
  end.

(** [std::regex_search]: the leftmost match; the result is [match[1]]. *)
Fixpoint regex_search (s : string) : option string :=
  match match_at s with
  | Some digits => Some digits
  | None =>
      match s with
      | EmptyString => None
      | String _ rest => regex_search rest
      end
  end.

(** [std::stoi] on the digits of the group: [std::out_of_range] when the
    number does not fit an [int]. *)
Definition stoi (digits : string) : result Z :=
  let v := fst (fst (read_digits digits 0 0)) in
  if INT_MAX <? v then Throw out_of_range else Ok v.

Definition customSort (a b : string) : result bool :=
  match regex_search a with
  | Some matchA =>
      match regex_search b with
      | Some matchB =>
          x <- stoi matchA ;;
          y <- stoi matchB ;;
          Ok (x <? y)
      | None => Ok (String.ltb a b)
      end
  | None => Ok (String.ltb a b)
  end.

End FileOrder.

(** ** The velocity helper ([SetVelocity], [GetVelocity],
    [waitForVelocity]) *)

Module Velocity.
Import SMC100C Commands.

Definition SetVelocity (VelocityToSet : Q) (my_serial : Serial) : Serial :=
  snd (SendCurrentCommand (SetCommand SMC100C.Velocity VelocityToSet Set_)
         my_serial).

Definition GetVelocity (my_serial : Serial) : string * Serial :=
  let s1 := flushInput my_serial in
  let s2 := snd (SendCurrentCommand (SetCommand SMC100C.Velocity 0 Get) s1) in
  SerialRead s2.

Inductive VelocityEvent : Type :=
| EvGetVelocity (vel : string)
| EvSetVelocity (target : Q).

Section WaitForVelocity.

Variable stof : string -> result Q.
Variable within : Q -> Q -> Q -> bool.
Variable ms : positive.
Variable delay : nat -> N.

(** The [try] block of one iteration, from the text [GetVelocity]
    returned: the value assigned to [velocityMatched].  The guard asks
    for two characters and [substr] starts at the fourth. *)
Definition velocity_matches (targetVelocity tolerance : Q) (reply : string)
  : bool :=
  let vel := erase_char CR (erase_char LF reply) in
  if Nat.leb 2 (String.length vel) then
    match (text <- substr vel 3 2 ;;
           currentVelocity <- stof text ;;
           Ok (within currentVelocity targetVelocity tolerance)) with
    | Ok b => b
    | Throw _ => false
    end
  else false.

(** The [while (!velocityMatched)] loop, as [waitForPosition_loop]; the
    two [sleep_for] calls of an iteration are of 50 ms and 100 ms. *)
Fixpoint waitForVelocity_loop (fuel i : nat) (elapsed : Z)
  (controller : Serial) (targetVelocity tolerance : Q) (timeout : Z)
  : option (bool * nat * list VelocityEvent * Serial) :=
  match fuel with
  | O => None
  | S fuel' =>
      let '(vel, c1) := GetVelocity controller in
      let velocityMatched := velocity_matches targetVelocity tolerance vel in
      let c2 := SetVelocity targetVelocity c1 in
      let now := elapsed + 150 * Zpos ms + Z.of_N (delay i) in
      let events := [EvGetVelocity vel; EvSetVelocity targetVelocity] in
      if checkTimeout ms now timeout then Some (velocityMatched, 1%nat, events, c2)
      else if velocityMatched then Some (true, 1%nat, events, c2)
      else
        obind (waitForVelocity_loop fuel' (S i) now c2 targetVelocity
                 tolerance timeout) (fun '(m, n, tr, c3) =>
        Some (m, S n, (events ++ tr)%list, c3))
  end.

Definition waitForVelocity (fuel : nat) (controller : Serial)
  (targetVelocity tolerance : Q) (timeout : Z)
  : option (bool * nat * list VelocityEvent * Serial) :=
  waitForVelocity_loop fuel 0 0 controller targetVelocity tolerance timeout.

End WaitForVelocity.

End Velocity.

(** ** The light engine ([TurnLightEngineOn]) *)

Module LightEngine.

(** The calls on the light engine library. *)
Inductive EngineCall : Type :=
| EnumUsbDevice
| SetUsbDeviceIndex (deviceIndex : Z)
| CheckUSBOnline
| PowerOnOff (flag : Z)
| GetSysStatus (stat : Z).

(** What one turn of the warm-up loop meets: the status the engine
    reports and, at the check that ends the turn, the whole seconds since
    the loop was entered. *)
Record WarmTick : Type := {
  sysStatus : Z;
  total : Z
}.

Inductive WarmResult : Type :=
| Warm        (* the loop ended on status 1 *)
| Exit1.      (* exit(1) *)

(** [while (stat != 1)], entered with [stat]. *)
Fixpoint warm_loop (env : list WarmTick) (stat : Z)
  : option (WarmResult * list EngineCall) :=
  if stat =? 1 then Some (Warm, [])
  else
    match env with
    | [] => None
    | e :: rest =>
        if 600 <? total e
        then Some (Exit1, [GetSysStatus (sysStatus e); PowerOnOff 0])
        else
          Commands.obind (warm_loop rest (sysStatus e)) (fun '(r, calls) =>
          Some (r, GetSysStatus (sysStatus e) :: calls))
    end.

(** [TurnLightEngineOn]: what [EnumUsbDevice], [CheckUSBOnline] and
    [PowerOnOff] return is printed and otherwise unused. *)
Definition TurnLightEngineOn (env : list WarmTick)
  : option (WarmResult * list EngineCall) :=
  Commands.obind (warm_loop env 4) (fun '(r, calls) =>
  Some (r, ([EnumUsbDevice; SetUsbDeviceIndex 0; CheckUSBOnline; PowerOnOff 1]
            ++ calls)%list)).

End LightEngine.

(** ** The preview of the images ([RunFullDummy]) *)

Module Preview.

Inductive PreviewEvent : Type :=
| Shown (path : string)        (* clear, draw, display; one second of sleep *)
| LoadFailed (path : string)
| Closed                       (* window.close() *)
| DirectoryError.

(** What one turn of the loop meets. *)
Record PreviewTick : Type := {
  closeRequested : bool;       (* pollEvent delivers sf::Event::Closed *)
  loadOk : bool                (* texture.loadFromFile(...) *)
}.

(** [while (window.isOpen() && currentImageIndex < imagePaths.size())]. *)
Fixpoint preview_loop (imagePaths : list string) (env : list PreviewTick)
  (isOpen : bool) (currentImageIndex : nat) : option (list PreviewEvent) :=
  if (isOpen && Nat.ltb currentImageIndex (List.length imagePaths))%bool then
    match env with
    | [] => None
    | e :: rest =>
        let isOpen1 := if closeRequested e then false else isOpen in
        let ev0 := if closeRequested e then [Closed] else [] in
        let path := nth currentImageIndex imagePaths "" in
        if loadOk e
        then Commands.obind
               (preview_loop imagePaths rest isOpen1 (S currentImageIndex))
               (fun evs => Some (ev0 ++ Shown path :: evs)%list)
        else Commands.obind
               (preview_loop imagePaths rest isOpen1 currentImageIndex)
               (fun evs => Some (ev0 ++ LoadFailed path :: evs)%list)
    end
  else Some [Closed].

(** [directory] is the listing after [std::sort], or [None] when the
    enumeration raises [filesystem_error]. *)
Definition RunFullDummy (directory : option (list string)) (isOpen : bool)
  (env : list PreviewTick) : option (list PreviewEvent) :=
  match directory with
  | None => Some [DirectoryError]
  | Some imagePaths => preview_loop imagePaths env isOpen 0
  end.

End Preview.

(** ** Vocabulary of the statements

    Readings of traces, the states a loop reaches, the table the
    specification describes, and the example inputs. *)

(** *** Vocabulary for the driver *)

Module SMC100CSpec.
Import SMC100C.

(** The reply of the controller to the status query: the address, the
    command, four characters of error bits, the two characters of the
    state, and the line terminator. *)
Definition status_line (code : string) : string :=
  "1TS0000" ++ code ++ CRLF.

End SMC100CSpec.

(** *** Vocabulary for stage moves and the convergence helper *)

Module CommandsSpec.
Import SMC100C Commands SMC100CSpec.

(** The relative moves of a trace, and the number of status queries that
    raised. *)
Fixpoint moves (tr : list Action) : list Q :=
  match tr with
  | [] => []
  | ActRelativeMove d :: rest => d :: moves rest
  | ActStatus _ :: rest => moves rest
  end.

Fixpoint raised (tr : list Action) : nat :=
  match tr with
  | [] => 0
  | ActStatus (Throw _) :: rest => S (raised rest)
  | _ :: rest => raised rest
  end.

(** A status query that returned a text other than ["Ready"]. *)
Definition not_ready (a : Action) : Prop :=
  exists text, a = ActStatus (Ok text) /\ text <> "Ready".

(** The trace of one completed sub-move of [d]: the move, polls that do
    not read ["Ready"], then either the poll that reads ["Ready"], or a
    poll that raised followed by the whole sub-move again. *)
Inductive submove (d : Q) : list Action -> Prop :=
| submove_done (polls : list Action) :
    Forall not_ready polls ->
    submove d (ActRelativeMove d :: polls ++ [ActStatus (Ok "Ready")])
| submove_retry (polls : list Action) (e : exn) (rest : list Action) :
    Forall not_ready polls ->
    submove d rest ->
    submove d (ActRelativeMove d :: polls ++ ActStatus (Throw e) :: rest).

(** A reply that decodes to a text other than ["Ready"], and one that
    decodes to ["Ready"]. *)
Definition busy (o : ReadOutcome) : Prop :=
  exists text, decode_status (outcome_text o) = Ok text /\ text <> "Ready".

Definition ready (o : ReadOutcome) : Prop :=
  decode_status (outcome_text o) = Ok "Ready".

Definition polls_of (replies : list ReadOutcome) : list Action :=
  map (fun o => ActStatus (decode_status (outcome_text o))) replies.

Definition quiet_port (replies : list ReadOutcome) : Serial :=
  {| is_open := true; tx := ""; short_writes := []; rx := replies |}.

Section WaitForPositionSpec.

Variable stof : string -> result Q.
Variable within : Q -> Q -> Q -> bool.
Variable ms : positive.
Variable delay : nat -> N.
Variables targetPosition tolerance : Q.
Variable timeout : Z.

(** The text the [j]-th call of [GetPosition] from [c] on comes back
    with. *)
Definition reply_at (c : Serial) (j : nat) : string :=
  match nth_error (rx c) j with
  | Some o => outcome_text o
  | None => "Timeout"
  end.

(** Whether the position reported at the [j]-th call is within the
    tolerance of the target. *)
Definition matches_at (c : Serial) (j : nat) : bool :=
  position_matches stof within targetPosition tolerance (reply_at c j).

(** Ticks since [startTime] at the timeout check that ends iteration
    [j - 1], for a loop entered at iteration [i] with [e] ticks gone. *)
Fixpoint elapsed_from (i : nat) (e : Z) (j : nat) : Z :=
  match j with
  | O => e
  | S j' => elapsed_from i e j' + 100 * Zpos ms + Z.of_N (delay (i + j'))
  end.

Definition timed_out (elapsed : Z) : bool := checkTimeout ms elapsed timeout.

Definition wait_trace (c : Serial) (n : nat) : list WaitEvent :=
  flat_map (fun j => [EvGetPosition (reply_at c j);
                      EvAbsoluteMove targetPosition]) (seq 0 n).

End WaitForPositionSpec.

(** An instance of the two float operations in exact arithmetic, to run
    the loop on examples: decimal text without exponent, and the
    comparison on rationals. *)
Definition stof_decimal (s : string) : result Q :=
  let '(neg, s1) :=
    match s with
    | String "-" r => (true, r)
    | String "+" r => (false, r)
    | _ => (false, s)
    end in
  let '(ip, n1, s2) := read_digits s1 0 0 in
  let '(fp, n2, _) :=
    match s2 with
    | String "." r => read_digits r 0 0
    | _ => (0, 0%nat, s2)
    end in
  if Nat.eqb (n1 + n2) 0 then Throw invalid_argument
  else
    let scale := 10 ^ Z.of_nat n2 in
    let v := Qmake (ip * scale + fp) (Z.to_pos scale) in
    Ok (if neg then Qopp v else v).

Definition within_exact (currentPosition targetPosition tolerance : Q) : bool :=
  let d := Qabs (currentPosition - targetPosition) in
  Qnum d * Zpos (Qden tolerance) <? Qnum tolerance * Zpos (Qden d).

Definition converging_stage : Serial :=
  quiet_port [Received ("1TP5.0000" ++ CRLF); Received ("1TP10.000" ++ CRLF)].

End CommandsSpec.

(** *** Vocabulary for the print loop *)

Module PrintLoopSpec.
Import Settings PrintLoop.

(** The states the loops go through: from the initial state, by closing
    the window, by resetting the layer counter at the start of a group,
    and by the loop body, whatever the mode and the dark time of the
    moment. *)
Inductive reachable (imagePaths : list string) : LoopState -> Prop :=
| reach_init (open : bool) (startClock : Z) :
    reachable imagePaths (initial_state open startClock)
| reach_close (s : LoopState) :
    reachable imagePaths s -> reachable imagePaths (close_window s)
| reach_group (s : LoopState) :
    reachable imagePaths s -> reachable imagePaths (set_layercounter s 0)
| reach_body (mode : Mode) (darkDuration : Z) (s s' : LoopState) (e : Tick)
    (evs : list Event) (flow : Flow) :
    reachable imagePaths s ->
    body imagePaths mode darkDuration s e = (s', evs, flow) ->
    reachable imagePaths s'.

(** What holds of the loop variables throughout. *)
Definition Inv (s : LoopState) : Prop :=
  isStageThreadRunning s = stageThread s /\
  (displayImage s = true -> stageThread s = false) /\
  (currentTextureIndex s <= 1)%nat /\
  texture s (currentTextureIndex s) = Some (currentImageIndex s) /\
  (nextImageLoaded s = true ->
   texture s (1 - currentTextureIndex s) = Some (S (currentImageIndex s))).

(** Example worlds: the stage answers at once, the clock advances one
    second per iteration. *)
Definition tick_at (k : Z) (abort : bool) : Tick :=
  {| closeRequested := false; abortFlag := abort;
     phaseClock := 1000 * k; clock := 1000 * k;
     stageReady := true; positionReply := "1TP0.0000" ++ CRLF |}.

Fixpoint ticks_from (k : Z) (n : nat) : list Tick :=
  match n with
  | O => []
  | S n' => tick_at k false :: ticks_from (k + 1) n'
  end.

Definition five_images : list string :=
  ["SEC_1.PNG"; "SEC_2.PNG"; "SEC_3.PNG"; "SEC_4.PNG"; "SEC_5.PNG"].

Definition world_of (images : list string) (env : list Tick) : World :=
  {| directory := Some images; fsErrorText := ""; firstLoadOk := true;
     initOk := true; windowIsOpen := true; startClock := 0;
     firstPollCloses := false; ticks := env;
     finalPosition := "1TP0.0000" ++ CRLF; homeSent := true |}.

(** The launches and gets of a trace, read from a state with a stage
    move in flight or not: [None] when a launch comes while a move is in
    flight, or a get while none is; otherwise whether a move is in flight
    at the end. *)
Fixpoint flight (inflight : bool) (evs : list Event) : option bool :=
  match evs with
  | [] => Some inflight
  | Launch :: rest => if inflight then None else flight true rest
  | Join :: rest => if inflight then flight false rest else None
  | _ :: rest => flight inflight rest
  end.

(** The calls of the shutdown sequence on the stage. *)
Definition stage_shutdown (ev : Event) : bool :=
  match ev with
  | HomeCall _ | CloseCall => true
  | _ => false
  end.

Definition no_shutdown (evs : list Event) : Prop :=
  Forall (fun ev => stage_shutdown ev = false) evs.

(** Five images, one frame for the first layer and two afterwards; the
    abort flag is seen at the first light iteration of layer 3. *)
Definition abort_in_layer_3 : World :=
  world_of five_images (ticks_from 1 5 ++ [tick_at 6 true]).

End PrintLoopSpec.

(** *** Vocabulary for the settings table *)

Module SettingsSpec.
Import Settings.

(** Equality of settings is decidable. *)
Definition LayerSettings_eq_dec (a b : LayerSettings) : {a = b} + {a <> b}.
Proof. decide equality; apply Z.eq_dec. Defined.

(** The distinct settings of the rows, in the order of their first
    appearance. *)
Fixpoint first_occurrences (rows : list LayerSettings) : list LayerSettings :=
  match rows with
  | [] => []
  | x :: rest =>
      x :: filter (fun y => negb (eqb y x)) (first_occurrences rest)
  end.

Definition occurrences (rows : list LayerSettings) (x : LayerSettings) : Z :=
  Z.of_nat (count_occ LayerSettings_eq_dec rows x).

(** One entry per distinct setting, in the order of first appearance,
    with the number of rows that carry it. *)
Definition table_of (rows : list LayerSettings) : list (LayerSettings * Z) :=
  map (fun x => (x, occurrences rows x)) (first_occurrences rows).

(** The keys of the map are the settings seen so far. *)
Definition map_tracks (settingsCount : list (LayerSettings * Z))
  (seen : list LayerSettings) : Prop :=
  forall x, map_find settingsCount x <> None <-> In x seen.

Definition INT_ROWS : Z := 2147483648.

Definition line (text : string) : string := text ++ String LF "".

(** A settings file with the two groups of the specification, the first
    one coming again after the second. *)
Definition two_group_file : option string :=
  Some (line "Layer,Intensity,Exposure,Dark"
        ++ line "1,10,5,100" ++ line "2,10,5,100" ++ line "3,20,8,150"
        ++ line "4,10,5,100" ++ line "5,20,8,150").

Definition uninit_sevens : nat -> Uninit :=
  fun _ => {| u_layer := 7; u_intensity := 77; u_exposureTime := 777;
              u_darkTime := 7777; u_delim := "x" |}.

Fixpoint total (table : list (LayerSettings * Z)) : Z :=
  match table with
  | [] => 0
  | (_, count) :: rest => count + total rest
  end.

(** Rows that are well formed: four fields of decimal digits, separated
    by commas.  [is_number] holds of a non-empty text of digits and
    [digits_value] is the number it writes. *)
Fixpoint all_digits (s : string) : bool :=
  match s with
  | EmptyString => true
  | String c rest =>
      match digit_of c with
      | Some _ => all_digits rest
      | None => false
      end
  end.

Definition is_number (s : string) : bool :=
  match s with
  | EmptyString => false
  | _ => all_digits s
  end.

Fixpoint digits_value (acc : Z) (s : string) : Z :=
  match s with
  | EmptyString => acc
  | String c rest =>
      match digit_of c with
      | Some d => digits_value (acc * 10 + d) rest
      | None => acc
      end
  end.

Definition starts_without_digit (s : string) : Prop :=
  match s with
  | EmptyString => True
  | String c _ => digit_of c = None
  end.

Definition row_text (layer intensity exposureTime darkTime : string) : string :=
  layer ++ "," ++ intensity ++ "," ++ exposureTime ++ "," ++ darkTime.

Definition malformed_file : option string :=
  Some (line "Layer,Intensity,Exposure,Dark" ++ line "1,abc,5,100").

End SettingsSpec.

(** *** Vocabulary for the dynamic run *)

Module DynamicRunSpec.
Import Settings PrintLoop PrintLoopSpec SettingsSpec.

(** The number of "Printed layer" lines for [settings] in a trace: the
    light/dark cycles completed under these settings. *)
Fixpoint printed (settings : LayerSettings) (evs : list Event) : Z :=
  match evs with
  | [] => 0
  | PrintedLayer s :: rest =>
      (if LayerSettings_eq_dec s settings then 1 else 0) + printed settings rest
  | _ :: rest => printed settings rest
  end.

(** The settings table of the scenario of the specification. *)
Definition group_a : LayerSettings :=
  {| intensity := 10; exposureTime := 5; darkTime := 100 |}.
Definition group_b : LayerSettings :=
  {| intensity := 20; exposureTime := 8; darkTime := 150 |}.
Definition scenario_table : list (LayerSettings * Z) :=
  [(group_a, 3); (group_b, 2)].

Definition ten_images : list string :=
  (five_images ++ ["SEC_6.PNG"; "SEC_7.PNG"; "SEC_8.PNG"; "SEC_9.PNG";
                   "SEC_10.PNG"])%list.

(** The cycles completed under the two groups in a run of the [for]
    loop over the table. *)
Definition cycles_per_group (images : list string) (env : list Tick)
  : option (Z * Z) :=
  option_map (fun r => (printed group_a (snd r), printed group_b (snd r)))
    (settings_loop images scenario_table env (initial_state true 0)).

Fixpoint has_newline (s : string) : bool :=
  match s with
  | EmptyString => false
  | String c rest => (Ascii.eqb c LF || has_newline rest)%bool
  end.

(** The events of the work on a layer. *)
Definition layer_event (ev : Event) : bool :=
  match ev with
  | Draw _ | Blank | Launch | SetCurrent _ | PrintedLayer _ => true
  | _ => false
  end.

End DynamicRunSpec.

(** *** Vocabulary for the wire format, the error texts and the polling
    read *)

Module DriverSpec.
Import SMC100C ErrorCodes LineRead.

(** A text without carriage return or line feed. *)
Fixpoint one_line (s : string) : bool :=
  match s with
  | EmptyString => true
  | String c rest =>
      (negb (Ascii.eqb c CR) && negb (Ascii.eqb c LF) && one_line rest)%bool
  end.

(** The state names [GetCurrentStatus] has a text for in its table. *)
Definition state_names : list string :=
  ["No Reference"; "Configuration"; "Homing"; "Moving"; "Ready"; "Disabled";
   "Jogging"].

(** The error characters of the manual. *)
Definition documented_errors : list ascii :=
  ["@"; "A"; "B"; "C"; "D"; "E"; "F"; "G"; "H"; "I"; "J"; "K"; "L"; "M"; "N";
   "S"; "U"; "V"; "W"; "X"]%char.

Definition accepting_port : Serial :=
  {| is_open := true; tx := ""; short_writes := []; rx := [] |}.

(** The bytes a port delivers over the turns of a read, oldest first. *)
Fixpoint stream (pending : string) (polls : list Poll) : string :=
  match polls with
  | [] => pending
  | p :: rest => stream (pending ++ arrived p) rest
  end.

Fixpoint occurs (c : ascii) (s : string) : bool :=
  match s with
  | EmptyString => false
  | String x rest => (Ascii.eqb x c || occurs c rest)%bool
  end.

(** The three ways [readString] ends, on the bytes stored. *)
Definition readString_ending (finalChar : ascii) (maxNbBytes : nat)
  (readStatus : Z) (receivedString : string) : Prop :=
  (0 < readStatus /\ readStatus = Z.of_nat (String.length receivedString) /\
   exists body, receivedString = body ++ String finalChar "" /\
                occurs finalChar body = false) \/
  (readStatus = 0 /\ occurs finalChar receivedString = false /\
   (String.length receivedString < maxNbBytes)%nat) \/
  (readStatus = -3 /\ occurs finalChar receivedString = false /\
   String.length receivedString = maxNbBytes).

(** Clock readings of a loop that sleeps 5 ms a turn: the reading of turn
    [i], counted from [first], is at least [5 * i] later than [base]. *)
Fixpoint paced (base : Z) (polls : list Poll) : Prop :=
  match polls with
  | [] => True
  | p :: rest => base <= elapsedTime p /\ paced (base + 5) rest
  end.

(** A device that answers the position query within the first turn, and
    one that stays silent while the clock runs. *)
Definition prompt_reply : list Poll :=
  [ {| elapsedTime := 0; arrived := "1TP5.0000" ++ CRLF |} ].

Definition silent_polls : list Poll :=
  map (fun i => {| elapsedTime := 5 * Z.of_nat i; arrived := "" |}) (seq 0 6).

End DriverSpec.

(** *** Vocabulary for the order of the images *)

Module FileOrderSpec.
Import Settings SettingsSpec FileOrder.

(** The name of the slice numbered by the digits [ds], in a directory. *)
Definition slice_name (dir ds : string) : string :=
  dir ++ "SEC_" ++ ds ++ ".PNG".

(** The number [customSort] compares a name by, when it has one. *)
Definition sort_key (a : string) : option Z :=
  match regex_search a with
  | Some digits =>
      match stoi digits with
      | Ok v => Some v
      | Throw _ => None
      end
  | None => None
  end.

End FileOrderSpec.

(** *** Vocabulary for the lines of the settings file *)

Module SettingsFileSpec.
Import Settings.

(** The lines put together again, each followed by a line feed. *)
Fixpoint unlines (lines : list string) : string :=
  match lines with
  | [] => ""
  | l :: rest => l ++ String LF (unlines rest)
  end.

Fixpoint ends_with (c : ascii) (s : string) : bool :=
  match s with
  | EmptyString => false
  | String x EmptyString => Ascii.eqb x c
  | String _ rest => ends_with c rest
  end.

(** The order of [operator<], by fields. *)
Definition lex_lt (a b : LayerSettings) : Prop :=
  intensity a < intensity b \/
  (intensity a = intensity b /\
   (exposureTime a < exposureTime b \/
    (exposureTime a = exposureTime b /\ darkTime a < darkTime b))).

End SettingsFileSpec.

(** *** Vocabulary for the frames of a layer *)

Module FrameSpec.
Import Settings PrintLoop PrintLoopSpec.

(** The loop body over consecutive turns of the loop. *)
Fixpoint run_body (imagePaths : list string) (mode : Mode) (darkDuration : Z)
  (env : list Tick) (s : LoopState) : LoopState * list Event :=
  match env with
  | [] => (s, [])
  | e :: rest =>
      let '(s1, ev1, _) := body imagePaths mode darkDuration s e in
      let '(s2, ev2) := run_body imagePaths mode darkDuration rest s1 in
      (s2, (ev1 ++ ev2)%list)
  end.

(** The frames that show an image. *)
Fixpoint draws (evs : list Event) : nat :=
  match evs with
  | [] => 0
  | Draw _ :: rest => S (draws rest)
  | _ :: rest => draws rest
  end.

(** The states of a run whose mode and dark time stay the same. *)
Inductive run_states (imagePaths : list string) (mode : Mode)
  (darkDuration : Z) : LoopState -> Prop :=
| run_init (open : bool) (startClock : Z) :
    run_states imagePaths mode darkDuration (initial_state open startClock)
| run_close (s : LoopState) :
    run_states imagePaths mode darkDuration s ->
    run_states imagePaths mode darkDuration (close_window s)
| run_step (s s' : LoopState) (e : Tick) (evs : list Event) (flow : Flow) :
    run_states imagePaths mode darkDuration s ->
    body imagePaths mode darkDuration s e = (s', evs, flow) ->
    run_states imagePaths mode darkDuration s'.

(** Events that leave the stage where it is and the light as it is. *)
Definition keeps_state (ev : Event) : bool :=
  match ev with
  | SetCurrent _ | HomeCall _ | CloseCall => false
  | _ => true
  end.

(** A dynamic run over five images, two groups; the abort flag is seen
    at the first light iteration of the second layer. *)
Definition abort_in_group : World :=
  world_of five_images (ticks_from 1 2 ++ [tick_at 3 true]).

(** The exposure threshold of [RunFull] for the layer numbered
    [layer], from 0. *)
Definition static_threshold
  (maxImageDisplayCount initialExposureCounter initialLayers layer : Z) : Z :=
  if ((layer =? 0) || (layer <? initialLayers))%bool
  then initialExposureCounter else maxImageDisplayCount.

End FrameSpec.

(** *** Vocabulary for the velocity helper, the warm-up and the
    preview *)

Module HelpersSpec.
Import SMC100C Commands CommandsSpec Velocity LightEngine Preview.

(** The calls of [n] iterations of [waitForVelocity] on the controller
    [c]. *)
Definition velocity_trace (targetVelocity : Q) (c : Serial) (n : nat)
  : list VelocityEvent :=
  flat_map (fun j => [EvGetVelocity (reply_at c j);
                      EvSetVelocity targetVelocity]) (seq 0 n).

(** A stage that reports the velocity 20.5. *)
Definition steady_stage : Serial :=
  quiet_port [Received ("1VA20.5" ++ CRLF); Received ("1VA20.5" ++ CRLF)].

(** An engine that is ready at the third status query. *)
Definition warming_engine : list WarmTick :=
  [ {| sysStatus := 4; total := 0 |}; {| sysStatus := 4; total := 0 |};
    {| sysStatus := 1; total := 0 |} ].

(** The status queries among the calls, and whether the engine is
    switched off among them. *)
Fixpoint statuses (calls : list EngineCall) : list Z :=
  match calls with
  | [] => []
  | GetSysStatus stat :: rest => stat :: statuses rest
  | _ :: rest => statuses rest
  end.

Fixpoint switched_off (calls : list EngineCall) : bool :=
  match calls with
  | [] => false
  | PowerOnOff 0 :: _ => true
  | _ :: rest => switched_off rest
  end.

(** Turns at which every image loads and nobody closes the window. *)
Definition smooth (e : PreviewTick) : Prop :=
  closeRequested e = false /\ loadOk e = true.

(** Turns at which the image does not load and nobody closes the
    window. *)
Definition stuck (e : PreviewTick) : Prop :=
  closeRequested e = false /\ loadOk e = false.

End HelpersSpec.

(** ** Facts about the driver *)

Module SMC100CFacts.
Import SMC100C SMC100CSpec.

(** [SetCommand] picks the table entry of the command it is given: the
    table lists the commands in the order of the enumeration. *)
Lemma SetCommand_entry (t : CommandType) (q : Q) (g : CommandGetSetType) :
  Command (EntryCommand (SetCommand t q g)) = t.
Proof. destruct t; reflexivity. Qed.

Lemma write_rx (p : Serial) (data : string) : rx (snd (write p data)) = rx p.
Proof. unfold write. destruct (short_writes p); reflexivity. Qed.

Lemma write_is_open (p : Serial) (data : string) :
  is_open (snd (write p data)) = is_open p.
Proof. unfold write. destruct (short_writes p); reflexivity. Qed.

Lemma write_all (p : Serial) (data : string) :
  short_writes p = [] ->
  write p data =
  (String.length data,
   {| is_open := is_open p; tx := tx p ++ data; short_writes := [];
      rx := rx p |}).
Proof. intros H. unfold write. rewrite H. reflexivity. Qed.

Lemma SendCurrentCommand_rx (e : CommandEntry) (p : Serial) :
  rx (snd (SendCurrentCommand e p)) = rx p.
Proof.
  unfold SendCurrentCommand.
  destruct (write p ControllerAdress) as [n s1] eqn:E1.
  assert (R1 : rx s1 = rx p) by (change s1 with (snd (n, s1)); rewrite <- E1; apply write_rx).
  destruct (negb (n =? String.length ControllerAdress)%nat); simpl; [exact R1|].
  rewrite write_rx.
  destruct (GetOrSet e); rewrite write_rx, write_rx; exact R1.
Qed.

Lemma append_assoc (a b c : string) : ((a ++ b) ++ c = a ++ (b ++ c))%string.
Proof. induction a as [|x a IH]; simpl; [reflexivity | now rewrite IH]. Qed.

Lemma append_nil_r (a : string) : (a ++ "" = a)%string.
Proof. induction a as [|x a IH]; simpl; [reflexivity | now rewrite IH]. Qed.

Lemma lookup_status_none (statusCode : string) (lib : list StatusCharSet) :
  ~ In statusCode (map Code lib) -> lookup_status statusCode lib = None.
Proof.
  induction lib as [|e lib IH]; simpl; intros H; [reflexivity|].
  destruct (String.eqb_spec statusCode (Code e)) as [E|E].
  - exfalso. apply H. left. symmetry. exact E.
  - apply IH. intros HI. apply H. right. exact HI.
Qed.

Lemma lookup_status_some (statusCode : string) (lib : list StatusCharSet) :
  In statusCode (map Code lib) ->
  exists t, lookup_status statusCode lib = Some (status_text t).
Proof.
  induction lib as [|e lib IH]; simpl; intros H; [contradiction|].
  destruct (String.eqb_spec statusCode (Code e)) as [E|E].
  - eexists. reflexivity.
  - destruct H as [H|H]; [congruence | now apply IH].
Qed.

Lemma unknown_code_text_distinct (statusCode : string) (t : StatusType) :
  ("Unknown Status Code: " ++ statusCode)%string <> status_text t.
Proof. destruct t; simpl; discriminate. Qed.

Lemma substr_ok (s : string) (pos len : nat) :
  (pos <= String.length s)%nat ->
  substr s pos len = Ok (String.substring pos len s).
Proof.
  intros H. unfold substr.
  destruct (Nat.ltb_spec (String.length s) pos); [lia | reflexivity].
Qed.

Lemma substr_throw (s : string) (pos len : nat) :
  (String.length s < pos)%nat -> substr s pos len = Throw out_of_range.
Proof.
  intros H. unfold substr.
  destruct (Nat.ltb_spec (String.length s) pos); [reflexivity | lia].
Qed.

(** C5, as amended: on every response of at least seven characters the
    status decode of [GetCurrentStatus] takes the (at most) two characters
    at offset 7 as the token and returns a text: ["Ready"] for the token
    ["33"], and for a token without an entry in [StatusLibrary] the text
    ["Unknown Status Code: <token>"], which differs from ["Unknown"] and
    from every other text of the table.  On a response shorter than seven
    characters the extraction raises [std::out_of_range]. *)
Theorem decode_status_spec (response : string) :
  ((7 <= String.length response)%nat ->
     let token := String.substring 7 2 response in
     (exists text, decode_status response = Ok text) /\
     (token = "33" -> decode_status response = Ok "Ready") /\
     (~ In token (map Code StatusLibrary) ->
        decode_status response = Ok ("Unknown Status Code: " ++ token)%string /\
        forall t, ("Unknown Status Code: " ++ token)%string <> status_text t)) /\
  ((String.length response < 7)%nat ->
     decode_status response = Throw out_of_range).
Proof.
  split.
  - intros Hlen token. unfold decode_status.
    rewrite (substr_ok _ _ 2 Hlen). cbn [rbind]. fold token.
    split; [|split].
    + destruct (lookup_status token StatusLibrary); eexists; reflexivity.
    + intros ->. reflexivity.
    + intros Hnot. rewrite (lookup_status_none _ _ Hnot).
      split; [reflexivity | apply unknown_code_text_distinct].
  - intros Hlen. unfold decode_status.
    rewrite (substr_throw _ _ 2 Hlen). reflexivity.
Qed.

(** A status line of the device with token ["33"], one with a token the
    table does not have, and a line cut short. *)
Lemma decode_status_spec_witness :
  decode_status (status_line "33") = Ok "Ready" /\
  decode_status (status_line "ZZ") = Ok "Unknown Status Code: ZZ" /\
  decode_status ("1TS" ++ CRLF) = Throw out_of_range.
Proof.
  destruct (decode_status_spec (status_line "33")) as [H1 _].
  destruct (decode_status_spec (status_line "ZZ")) as [H2 _].
  destruct (decode_status_spec ("1TS" ++ CRLF)) as [_ H3].
  split; [|split].
  - apply H1; [simpl; lia | reflexivity].
  - apply H2; [simpl; lia |].
    simpl. intros H. repeat (destruct H as [H|H]; [discriminate H|]). exact H.
  - apply H3. simpl. lia.
Defined.

(** C5 as stated fails: when [readString] reports a full buffer,
    [SerialRead] hands ["Error"] to [GetCurrentStatus], which raises
    instead of returning; so does a line cut short. *)
Lemma GetCurrentStatus_raises_on_short_response :
  fst (GetCurrentStatus
         {| is_open := true; tx := ""; short_writes := [];
            rx := [BufferFull] |}) = Throw out_of_range /\
  fst (GetCurrentStatus
         {| is_open := true; tx := ""; short_writes := [];
            rx := [Received ("1TS33" ++ String LF "")] |}) = Throw out_of_range.
Proof. split; reflexivity. Qed.

(** C8, as amended: for a command whose parameter kind is [None], sent
    with intent [Set], [SendCurrentCommand] does not fail on the shape of
    the request: on a port that takes every byte it returns [true] and
    has transmitted the address, the two-character code and the line
    terminator, with no parameter text. *)
Theorem SendCurrentCommand_none_set (t : CommandType) (q : Q) (p : Serial) :
  SendType (EntryCommand (SetCommand t q Set_)) = ParamNone ->
  short_writes p = [] ->
  SendCurrentCommand (SetCommand t q Set_) p =
  (true,
   {| is_open := is_open p;
      tx := tx p ++ ControllerAdress
              ++ CommandChar (EntryCommand (SetCommand t q Set_)) ++ CRLF;
      short_writes := []; rx := rx p |}).
Proof.
  intros HT HS. unfold SendCurrentCommand.
  rewrite (write_all _ _ HS). cbn [negb Nat.eqb String.length ControllerAdress].
  cbn [GetOrSet SetCommand]. fold (SetCommand t q Set_).
  rewrite HT.
  repeat (rewrite write_all by reflexivity; cbn [snd is_open tx short_writes rx]).
  rewrite append_nil_r, !append_assoc. reflexivity.
Qed.

Lemma SendCurrentCommand_none_set_witness :
  SendCurrentCommand (SetCommand HomeSearch 0 Set_)
    {| is_open := true; tx := ""; short_writes := []; rx := [] |} =
  (true,
   {| is_open := true; tx := "1OR" ++ CRLF; short_writes := []; rx := [] |}).
Proof.
  exact (SendCurrentCommand_none_set HomeSearch 0
           {| is_open := true; tx := ""; short_writes := []; rx := [] |}
           eq_refl eq_refl).
Defined.

(** C8 as stated fails: a [Set] request for [StopMotion], whose
    parameter kind is [None], is encoded and transmitted, and the call
    reports success. *)
Lemma SendCurrentCommand_none_set_transmits :
  SendCurrentCommand (SetCommand StopMotion (5 # 2) Set_)
    {| is_open := true; tx := ""; short_writes := []; rx := [] |} =
  (true,
   {| is_open := true; tx := "1ST" ++ CRLF; short_writes := []; rx := [] |}).
Proof. reflexivity. Qed.

End SMC100CFacts.

Module CommandsFacts.
Import SMC100C Commands SMC100CSpec CommandsSpec SMC100CFacts.

Lemma moves_app (a b : list Action) : moves (a ++ b) = (moves a ++ moves b)%list.
Proof.
  induction a as [|x a IH]; simpl; [reflexivity|].
  destruct x; simpl; now rewrite IH.
Qed.

Lemma raised_app (a b : list Action) : raised (a ++ b) = (raised a + raised b)%nat.
Proof.
  induction a as [|x a IH]; simpl; [reflexivity|].
  destruct x as [d|[text|e]]; simpl; now rewrite IH.
Qed.

Lemma not_ready_quiet (polls : list Action) :
  Forall not_ready polls -> moves polls = [] /\ raised polls = 0%nat.
Proof.
  induction 1 as [|a polls [text [-> _]] _ [IHm IHr]]; simpl; auto.
Qed.

Lemma submove_moves (d : Q) (tr : list Action) :
  submove d tr -> moves tr = repeat d (S (raised tr)).
Proof.
  induction 1 as [polls Hq | polls e rest Hq _ IH];
    destruct (not_ready_quiet _ Hq) as [Hm Hr]; simpl;
    rewrite moves_app, raised_app, Hm, Hr; simpl; [reflexivity|].
  now rewrite IH.
Qed.

(** Every completed sub-move ends with the poll that read ["Ready"]. *)
Lemma submove_last (d : Q) (tr : list Action) :
  submove d tr -> exists front, tr = (front ++ [ActStatus (Ok "Ready")])%list.
Proof.
  induction 1 as [polls Hq | polls e rest Hq _ [front ->]].
  - exists (ActRelativeMove d :: polls). reflexivity.
  - exists (ActRelativeMove d :: polls ++ ActStatus (Throw e) :: front)%list.
    simpl. rewrite <- app_assoc. reflexivity.
Qed.

Lemma GetCurrentStatus_step (c : Serial) :
  GetCurrentStatus c =
  match rx c with
  | [] => (decode_status "Timeout", snd (GetCurrentStatus c))
  | o :: rest => (decode_status (outcome_text o), snd (GetCurrentStatus c))
  end /\
  rx (snd (GetCurrentStatus c)) = tl (rx c).
Proof.
  unfold GetCurrentStatus, flushInput, SerialRead.
  rewrite SendCurrentCommand_rx.
  destruct (rx c) as [|o rest] eqn:E; simpl.
  - split; [reflexivity|]. rewrite SendCurrentCommand_rx. exact E.
  - split; reflexivity.
Qed.

Lemma wait_ready_shape (fuel : nat) :
  forall c r tr c',
    wait_ready fuel c = Some (r, tr, c') ->
    exists polls,
      Forall not_ready polls /\
      tr = (polls ++ [ActStatus (match r with
                                 | Ok _ => Ok "Ready"
                                 | Throw e => Throw e
                                 end)])%list.
Proof.
  induction fuel as [|fuel IH]; intros c r tr c' H; simpl in H; [discriminate|].
  destruct (GetCurrentStatus c) as [st c1].
  destruct st as [text|e].
  - destruct (String.eqb_spec text "Ready") as [->|Hne].
    + injection H as <- <- <-. exists []. split; [constructor | reflexivity].
    + destruct (wait_ready fuel c1) as [[[r1 tr1] c2]|] eqn:E; simpl in H;
        [|discriminate].
      injection H as <- <- <-.
      destruct (IH _ _ _ _ E) as [polls [Hq ->]].
      exists (ActStatus (Ok text) :: polls). split; [|reflexivity].
      constructor; [exists text; split; [reflexivity | exact Hne] | exact Hq].
  - injection H as <- <- <-. exists []. split; [constructor | reflexivity].
Qed.

Lemma moveAndCheckReady_from_shape (attempts fuel : nat) (d : Q) :
  forall c tr c',
    moveAndCheckReady_from attempts fuel d c = Some (tr, c') -> submove d tr.
Proof.
  induction attempts as [|attempts IH]; intros c tr c' H; simpl in H;
    [discriminate|].
  destruct (wait_ready fuel (RelativeMove d c)) as [[[r tr1] c2]|] eqn:E;
    simpl in H; [|discriminate].
  destruct (wait_ready_shape _ _ _ _ _ E) as [polls [Hq ->]].
  destruct r as [u|e].
  - injection H as <- <-. now constructor.
  - destruct (moveAndCheckReady_from attempts fuel d c2) as [[tr' c3]|] eqn:E2;
      simpl in H; [|discriminate].
    injection H as <- <-. rewrite <- app_assoc. simpl.
    constructor; [exact Hq | exact (IH _ _ _ E2)].
Qed.

(** C4, as amended: whenever [moveStage] returns, what it asked of the
    controller is, in clip mode, one completed sub-move of [stepSize],
    and otherwise three completed sub-moves one after the other: of
    [-1 * dlpPumpingAction], of [stepSize], of [dlpPumpingAction].  A
    completed sub-move starts with its relative move and ends with the
    first status query that reads ["Ready"]; each status query that
    raised before that is followed by the same relative move once more.
    So when no status query raised, exactly one relative move (clip mode)
    or exactly the three relative moves in that order were issued, and in
    general each is issued once plus once per exception in its wait. *)
Theorem moveStage_trace (fuel : nat) (controller : Serial) (stepSize : Q)
  (isClip : bool) (dlpPumpingAction : Q) (tr : list Action) (c' : Serial) :
  moveStage fuel controller stepSize isClip dlpPumpingAction = Some (tr, c') ->
  exists t1 t2 t3,
    tr = (t1 ++ t2 ++ t3)%list /\
    (if isClip then t1 = [] else submove (-1 * dlpPumpingAction)%Q t1) /\
    submove stepSize t2 /\
    (if isClip then t3 = [] else submove dlpPumpingAction t3) /\
    moves tr =
      (if isClip then repeat stepSize (S (raised t2))
       else repeat (-1 * dlpPumpingAction)%Q (S (raised t1))
            ++ repeat stepSize (S (raised t2))
            ++ repeat dlpPumpingAction (S (raised t3)))%list /\
    (raised tr = 0%nat ->
     moves tr =
       if isClip then [stepSize]
       else [(-1 * dlpPumpingAction)%Q; stepSize; dlpPumpingAction]).
Proof.
  unfold moveStage, moveAndCheckReady. intros H.
  destruct isClip; cbn [negb obind] in H.
  - destruct (moveAndCheckReady_from fuel fuel stepSize controller)
      as [[tr2 c2]|] eqn:E2; simpl in H; [|discriminate].
    injection H as <- <-.
    pose proof (moveAndCheckReady_from_shape _ _ _ _ _ _ E2) as S2.
    exists [], tr2, []. rewrite app_nil_r. simpl.
    split; [reflexivity|]. split; [reflexivity|]. split; [exact S2|].
    split; [reflexivity|]. split; [exact (submove_moves _ _ S2)|].
    intros Hz. rewrite (submove_moves _ _ S2), Hz. reflexivity.
  - destruct (moveAndCheckReady_from fuel fuel (-1 * dlpPumpingAction)%Q controller)
      as [[tr1 c1]|] eqn:E1; simpl in H; [|discriminate].
    destruct (moveAndCheckReady_from fuel fuel stepSize c1)
      as [[tr2 c2]|] eqn:E2; simpl in H; [|discriminate].
    destruct (moveAndCheckReady_from fuel fuel dlpPumpingAction c2)
      as [[tr3 c3]|] eqn:E3; simpl in H; [|discriminate].
    injection H as <- <-.
    pose proof (moveAndCheckReady_from_shape _ _ _ _ _ _ E1) as S1.
    pose proof (moveAndCheckReady_from_shape _ _ _ _ _ _ E2) as S2.
    pose proof (moveAndCheckReady_from_shape _ _ _ _ _ _ E3) as S3.
    assert (M : moves (tr1 ++ tr2 ++ tr3) =
                (repeat (-1 * dlpPumpingAction)%Q (S (raised tr1))
                 ++ repeat stepSize (S (raised tr2))
                 ++ repeat dlpPumpingAction (S (raised tr3)))%list).
    { rewrite !moves_app, (submove_moves _ _ S1), (submove_moves _ _ S2),
        (submove_moves _ _ S3). reflexivity. }
    exists tr1, tr2, tr3.
    split; [reflexivity|]. split; [exact S1|]. split; [exact S2|].
    split; [exact S3|]. split; [exact M|].
    intros Hz. rewrite M. rewrite !raised_app in Hz.
    assert (raised tr1 = 0 /\ raised tr2 = 0 /\ raised tr3 = 0)%nat
      as [-> [-> ->]] by lia.
    reflexivity.
Qed.

(** *** [moveStage] returns when the stage gets ready *)

Lemma wait_ready_returns (pre : list ReadOutcome) :
  forall (o : ReadOutcome) (rest : list ReadOutcome) (fuel : nat) (c : Serial),
    rx c = (pre ++ o :: rest)%list ->
    Forall busy pre -> ready o -> (List.length pre < fuel)%nat ->
    exists c',
      wait_ready fuel c =
        Some (Ok tt, (polls_of pre ++ [ActStatus (Ok "Ready")])%list, c') /\
      rx c' = rest.
Proof.
  induction pre as [|b pre IH]; intros o rest fuel c E B R L;
    (destruct fuel as [|fuel]; [cbn in L; lia|]);
    cbn [wait_ready];
    destruct (GetCurrentStatus_step c) as [G1 G2];
    rewrite E in G1, G2; cbn [app tl] in G1, G2;
    destruct (GetCurrentStatus c) as [st c1]; cbn [snd] in G1, G2;
    injection G1 as ->.
  - unfold ready in R. rewrite R. cbn.
    exists c1. split; [reflexivity | exact G2].
  - inversion B as [|b' pre' [text [Hb Hne]] B']; subst.
    rewrite Hb. apply String.eqb_neq in Hne. rewrite Hne.
    cbn in L.
    destruct (IH o rest fuel c1 G2 B' R ltac:(lia)) as [c' [W Rx]].
    rewrite W. cbn [Commands.obind]. exists c'. split; [|exact Rx].
    cbn [polls_of map app]. rewrite Hb. reflexivity.
Qed.

Lemma moveAndCheckReady_returns (pre : list ReadOutcome) (o : ReadOutcome)
  (rest : list ReadOutcome) (fuel : nat) (d : Q) (c : Serial) :
  rx c = (pre ++ o :: rest)%list ->
  Forall busy pre -> ready o -> (List.length pre < fuel)%nat ->
  exists c',
    moveAndCheckReady fuel d c =
      Some ((ActRelativeMove d :: polls_of pre
             ++ [ActStatus (Ok "Ready")])%list, c') /\
    rx c' = rest.
Proof.
  intros E B R L. unfold moveAndCheckReady.
  destruct fuel as [|fuel]; [lia|]. cbn [moveAndCheckReady_from].
  assert (E1 : rx (RelativeMove d c) = (pre ++ o :: rest)%list)
    by (unfold RelativeMove; rewrite SendCurrentCommand_rx; exact E).
  destruct (wait_ready_returns pre o rest (S fuel) _ E1 B R L) as [c' [W Rx]].
  rewrite W. cbn [Commands.obind]. exists c'. split; [reflexivity | exact Rx].
Qed.

Lemma moves_sub (d : Q) (pre : list ReadOutcome) :
  moves (ActRelativeMove d :: polls_of pre ++ [ActStatus (Ok "Ready")]) = [d].
Proof.
  cbn [moves]. f_equal. rewrite moves_app. cbn.
  rewrite app_nil_r. induction pre as [|o pre IH]; [reflexivity | exact IH].
Qed.

(** X25: when the replies never raise and read ["Ready"] once per
    sub-move, [moveStage] returns, having issued exactly the one or the
    three relative moves and taken the replies up to the last
    ["Ready"]. *)
Lemma moveStage_returns (fuel : nat) (c : Serial) (stepSize : Q)
  (isClip : bool) (dlpPumpingAction : Q)
  (pre1 pre2 pre3 : list ReadOutcome) (o1 o2 o3 : ReadOutcome)
  (rest : list ReadOutcome) :
  rx c = (if isClip then pre2 ++ o2 :: rest
          else pre1 ++ o1 :: pre2 ++ o2 :: pre3 ++ o3 :: rest)%list ->
  Forall busy pre1 -> Forall busy pre2 -> Forall busy pre3 ->
  ready o1 -> ready o2 -> ready o3 ->
  (List.length pre1 < fuel)%nat -> (List.length pre2 < fuel)%nat ->
  (List.length pre3 < fuel)%nat ->
  exists tr c',
    moveStage fuel c stepSize isClip dlpPumpingAction = Some (tr, c') /\
    moves tr = (if isClip then [stepSize]
                else [(-1 * dlpPumpingAction)%Q; stepSize; dlpPumpingAction]) /\
    rx c' = rest.
Proof.
  intros E B1 B2 B3 R1 R2 R3 L1 L2 L3. unfold moveStage.
  destruct isClip; cbn [negb Commands.obind].
  - destruct (moveAndCheckReady_returns pre2 o2 rest fuel stepSize c
                E B2 R2 L2) as [c2 [M2 X2]].
    rewrite M2. cbn [Commands.obind]. eexists _, c2.
    split; [reflexivity|]. split; [|exact X2].
    cbn [app]. rewrite app_nil_r. apply moves_sub.
  - destruct (moveAndCheckReady_returns pre1 o1 _ fuel
                (-1 * dlpPumpingAction)%Q c E B1 R1 L1) as [c1 [M1 X1]].
    rewrite M1. cbn [Commands.obind].
    destruct (moveAndCheckReady_returns pre2 o2 _ fuel stepSize c1
                X1 B2 R2 L2) as [c2 [M2 X2]].
    rewrite M2. cbn [Commands.obind].
    destruct (moveAndCheckReady_returns pre3 o3 _ fuel dlpPumpingAction c2
                X2 B3 R3 L3) as [c3 [M3 X3]].
    rewrite M3. cbn [Commands.obind]. eexists _, c3.
    split; [reflexivity|]. split; [|exact X3].
    rewrite !moves_app, !moves_sub. reflexivity.
Qed.

Lemma moveStage_trace_witness :
  exists t1 t2 t3,
    [ActRelativeMove (-1 * 3)%Q; ActStatus (Ok "Moving"); ActStatus (Ok "Ready");
     ActRelativeMove (1 # 2); ActStatus (Ok "Ready");
     ActRelativeMove 3; ActStatus (Ok "Ready")] = (t1 ++ t2 ++ t3)%list /\
    submove (-1 * 3)%Q t1 /\ submove (1 # 2) t2 /\ submove 3 t3.
Proof.
  assert (E0 : moveStage 5
              (quiet_port [Received (status_line "28"); Received (status_line "33");
                           Received (status_line "33"); Received (status_line "33")])
              (1 # 2) false 3 =
            Some ([ActRelativeMove (-1 * 3)%Q; ActStatus (Ok "Moving");
                   ActStatus (Ok "Ready");
                   ActRelativeMove (1 # 2); ActStatus (Ok "Ready");
                   ActRelativeMove 3; ActStatus (Ok "Ready")],
                  {| is_open := true;
                     tx := tx (snd (GetCurrentStatus (RelativeMove 3
                            (snd (GetCurrentStatus (RelativeMove (1 # 2)
                            (snd (GetCurrentStatus (snd (GetCurrentStatus
                            (RelativeMove (-1 * 3)%Q (quiet_port []))))))))))));
                     short_writes := []; rx := [] |}))
    by (vm_compute; reflexivity).
  destruct (moveStage_trace _ _ _ _ _ _ _ E0)
    as [t1 [t2 [t3 [E [S1 [S2 [S3 _]]]]]]].
  exists t1, t2, t3. split; [exact E|]. split; [exact S1|].
  split; [exact S2 | exact S3].
Defined.

(** C4 as stated fails: in clip mode, with a status read that comes back
    as ["Error"] (buffer full) while the stage is moving, the relative
    move of [stepSize] is issued twice. *)
Lemma moveStage_reissues_move_after_exception :
  option_map (fun r => moves (fst r))
    (moveStage 5
       (quiet_port [Received (status_line "28"); BufferFull; Received (status_line "33")])
       (1 # 2) true 3) = Some [1 # 2; 1 # 2].
Proof. vm_compute. reflexivity. Qed.

(** *** [waitForPosition] *)

Section WaitForPositionFacts.

Variable stof : string -> result Q.
Variable within : Q -> Q -> Q -> bool.
Variable ms : positive.
Variable delay : nat -> N.
Variables targetPosition tolerance : Q.
Variable timeout : Z.

Local Abbreviation matches_at :=
  (CommandsSpec.matches_at stof within targetPosition tolerance).
Local Abbreviation elapsed_from := (CommandsSpec.elapsed_from ms delay).
Local Abbreviation timed_out := (CommandsSpec.timed_out ms timeout).
Local Abbreviation wait_trace := (CommandsSpec.wait_trace targetPosition).

Lemma elapsed_from_shift (i : nat) (e : Z) (j : nat) :
  elapsed_from (S i) (e + 100 * Zpos ms + Z.of_N (delay i)) j =
  elapsed_from i e (S j).
Proof.
  induction j as [|j IH].
  - simpl. now rewrite Nat.add_0_r.
  - cbn [elapsed_from] in *. rewrite IH.
    replace (S i + j)%nat with (i + S j)%nat by lia. reflexivity.
Qed.

Lemma GetPosition_step (c : Serial) :
  fst (GetPosition c) = reply_at c 0 /\
  rx (snd (GetPosition c)) = tl (rx c).
Proof.
  unfold GetPosition, flushInput, SerialRead, reply_at.
  rewrite SendCurrentCommand_rx.
  destruct (rx c) as [|o rest] eqn:E; simpl; split; try reflexivity.
  rewrite SendCurrentCommand_rx. exact E.
Qed.

Lemma AbsoluteMove_rx (q : Q) (c : Serial) : rx (AbsoluteMove q c) = rx c.
Proof. apply SendCurrentCommand_rx. Qed.

Lemma reply_at_tl (c c2 : Serial) (j : nat) :
  rx c2 = tl (rx c) -> reply_at c2 j = reply_at c (S j).
Proof.
  unfold reply_at. intros ->. destruct (rx c) as [|o rest]; simpl;
    [destruct j|]; reflexivity.
Qed.

Lemma wait_trace_S (c c2 : Serial) (n : nat) :
  rx c2 = tl (rx c) ->
  wait_trace c (S n) =
  ([EvGetPosition (reply_at c 0); EvAbsoluteMove targetPosition]
   ++ wait_trace c2 n)%list.
Proof.
  intros H. unfold wait_trace. cbn [seq flat_map]. f_equal.
  rewrite <- seq_shift, flat_map_concat_map, map_map,
    <- flat_map_concat_map.
  apply flat_map_ext. intros j. now rewrite (reply_at_tl _ _ _ H).
Qed.

Lemma timed_out_false (elapsed : Z) :
  timed_out elapsed = false -> elapsed < timeout * (1000 * Zpos ms).
Proof.
  unfold timed_out, checkTimeout. intros H.
  apply Z.leb_gt in H.
  destruct (Z_lt_le_dec elapsed (timeout * (1000 * Zpos ms))) as [L|L];
    [exact L|].
  exfalso. apply (Z.lt_irrefl timeout).
  eapply Z.le_lt_trans; [|exact H].
  apply Z.div_le_lower_bound; lia.
Qed.

Lemma timed_out_true (elapsed : Z) :
  timed_out elapsed = true -> timeout * (1000 * Zpos ms) <= elapsed.
Proof.
  unfold timed_out, checkTimeout. intros H. apply Z.leb_le in H.
  pose proof (Z.mul_div_le elapsed (1000 * Zpos ms) ltac:(lia)) as M.
  nia.
Qed.

(** A run of the loop that is given fuel for the timeout to pass. *)
Lemma waitForPosition_loop_run (fuel : nat) :
  forall (i : nat) (e : Z) (c : Serial),
    (1 <= fuel)%nat ->
    timeout * (1000 * Zpos ms) <= e + Z.of_nat fuel * (100 * Zpos ms) ->
    exists m n c',
      waitForPosition_loop stof within ms delay fuel i e c targetPosition
        tolerance timeout = Some (m, n, wait_trace c n, c') /\
      (1 <= n <= fuel)%nat /\
      (forall j, (S j < n)%nat ->
         matches_at c j = false /\ timed_out (elapsed_from i e (S j)) = false) /\
      m = matches_at c (n - 1) /\
      (m = true \/ timed_out (elapsed_from i e n) = true).
Proof.
  induction fuel as [|fuel IH]; intros i e c Hf Ht; [lia|].
  cbn [waitForPosition_loop].
  destruct (GetPosition_step c) as [G1 G2].
  destruct (GetPosition c) as [pos c1]. cbn [fst snd] in G1, G2. subst pos.
  set (c2 := AbsoluteMove targetPosition c1).
  assert (R2 : rx c2 = tl (rx c))
    by (unfold c2; rewrite AbsoluteMove_rx; exact G2).
  set (now := e + 100 * Zpos ms + Z.of_N (delay i)).
  assert (Enow : elapsed_from i e 1 = now)
    by (cbn [elapsed_from]; now rewrite Nat.add_0_r).
  fold (matches_at c 0). fold (timed_out now).
  destruct (timed_out now) eqn:TO.
  - exists (matches_at c 0), 1%nat, c2.
    split; [rewrite (wait_trace_S _ _ 0%nat R2); reflexivity|].
    split; [lia|]. split; [intros j Hj; lia|]. split; [reflexivity|].
    right. rewrite Enow. exact TO.
  - destruct (matches_at c 0) eqn:M0.
    + exists true, 1%nat, c2.
      split; [rewrite (wait_trace_S _ _ 0%nat R2); reflexivity|].
      split; [lia|]. split; [intros j Hj; lia|].
      split; [symmetry; exact M0 | left; reflexivity].
    + pose proof (timed_out_false _ TO) as Lt.
      assert (Hfuel : (1 <= fuel)%nat).
      { destruct fuel; [|lia]. exfalso. unfold now in Lt. lia. }
      destruct (IH (S i) now c2 Hfuel) as [m [n [c' [E [Hn [Hearly [Hm Hexit]]]]]]].
      { unfold now. lia. }
      exists m, (S n), c'. rewrite E. cbn [obind].
      split; [rewrite (wait_trace_S _ _ n R2); reflexivity|].
      split; [lia|]. split; [|split].
      * intros [|j] Hj.
        -- split; [exact M0 | rewrite Enow; exact TO].
        -- destruct (Hearly j ltac:(lia)) as [A B]. split.
           ++ unfold matches_at in *. now rewrite <- (reply_at_tl _ _ _ R2).
           ++ unfold now in B. now rewrite elapsed_from_shift in B.
      * rewrite Hm. unfold matches_at. rewrite (reply_at_tl _ _ _ R2).
        replace (S n - 1)%nat with (S (n - 1)) by lia. reflexivity.
      * destruct Hexit as [Hx|Hx]; [left; exact Hx | right].
        unfold now in Hx. now rewrite elapsed_from_shift in Hx.
Qed.


End WaitForPositionFacts.


End CommandsFacts.

(** ** Facts about the print loop *)

Module PrintLoopFacts.
Import Settings PrintLoop PrintLoopSpec.

Lemma light_branch_inv imagePaths mode s e s' evs flow :
  Inv s -> displayImage s = true ->
  light_branch imagePaths mode s e = (s', evs, flow) -> Inv s'.
Proof.
  unfold Inv, light_branch. intros (I1 & I2 & I3 & I4 & I5) D H.
  destruct (abortFlag e).
  - injection H as <- _ _. auto.
  - destruct (maxCount_of mode s <=? imageDisplayCount s + 1);
      injection H as <- _ _; cbn; repeat split; auto.
Qed.

Lemma dark_branch_inv imagePaths mode darkDuration s e s' evs flow :
  Inv s -> displayImage s = false ->
  dark_branch imagePaths mode darkDuration s e = (s', evs, flow) -> Inv s'.
Proof.
  unfold Inv, dark_branch. intros (I1 & I2 & I3 & I4 & I5) D H.
  injection H as <- _ _.
  destruct s as [wo cti cii t0 t1 nil inl ais st isr dts pst idc fl ilp di cl iip lc].
  cbn -[Nat.ltb Z.ltb] in *. subst st.
  assert (cti = 0 \/ cti = 1)%nat as [-> | ->] by lia;
    destruct isr, nil, inl, (stageReady e),
      (darkDuration <? clock e - dts),
      (Nat.ltb (cii + 1) (List.length imagePaths));
    cbn -[Nat.ltb Z.ltb] in *; rewrite ?Nat.add_1_r;
    repeat split; auto; try discriminate; try lia; intros; auto;
    try discriminate; try congruence.
Qed.

Lemma body_inv imagePaths mode darkDuration s e s' evs flow :
  Inv s -> body imagePaths mode darkDuration s e = (s', evs, flow) -> Inv s'.
Proof.
  unfold body. intros I H. destruct (displayImage s) eqn:D.
  - eapply light_branch_inv; eauto.
  - eapply dark_branch_inv; eauto.
Qed.

Lemma reachable_inv imagePaths s : reachable imagePaths s -> Inv s.
Proof.
  induction 1 as [open startClock | s _ IH | s _ IH | mode dd s s' e evs flow _ IH H].
  - unfold Inv. cbn. repeat split; auto. discriminate.
  - exact IH.
  - exact IH.
  - eapply body_inv; eauto.
Qed.

Lemma position_log_is_log (reply : string) :
  exists message, position_log reply = Log message.
Proof.
  unfold position_log.
  destruct (Nat.leb 9 _); eexists; reflexivity.
Qed.

Lemma light_branch_events imagePaths mode s e s' evs flow :
  light_branch imagePaths mode s e = (s', evs, flow) ->
  forall ev, In ev evs ->
    (exists message, ev = Log message) \/ (exists i, ev = Draw i) \/
    (exists reply, ev = GetPositionCall reply).
Proof.
  unfold light_branch. intros H ev Hin.
  destruct (position_log_is_log (positionReply e)) as [pm Hpm].
  rewrite Hpm in H. clear Hpm.
  destruct (abortFlag e).
  - injection H as _ <- _. destruct Hin as [<-|[]]. left. eexists; reflexivity.
  - destruct (maxCount_of mode s <=? imageDisplayCount s + 1);
      injection H as _ <- _;
      destruct (negb (filenameLogged s) && inLightPhase s)%bool;
      cbn [app In] in Hin;
      repeat (destruct Hin as [<-|Hin];
              [solve [left; eexists; reflexivity
                     | right; left; eexists; reflexivity
                     | right; right; eexists; reflexivity]|]);
      contradiction.
Qed.


Lemma triple_eta {A B C : Type} (r : A * B * C) :
  r = (fst (fst r), snd (fst r), snd r).
Proof. destruct r as [[a b] c]. reflexivity. Qed.


(** The final state of the loop of a run from a reachable state is
    reachable: the loop goes through reachable states only. *)
Lemma RunFull_loop_reachable imagePaths mode darkDuration env :
  forall s x s' evs,
    reachable imagePaths s ->
    RunFull_loop imagePaths mode darkDuration env s = Some (x, s', evs) ->
    reachable imagePaths s'.
Proof.
  induction env as [|e rest IH]; intros s x s' evs R H;
    cbn [RunFull_loop] in H;
    destruct (negb (windowOpen s));
    try (injection H as _ <- _; exact R); try discriminate.
  set (s0 := if closeRequested e then close_window s else s) in H.
  assert (R0 : reachable imagePaths s0)
    by (unfold s0; destruct (closeRequested e); [constructor|]; exact R).
  destruct (body imagePaths mode darkDuration s0 e) as [[s1 ev1] flow] eqn:B.
  pose proof (reach_body _ _ _ _ _ _ _ _ R0 B) as R1.
  destruct flow.
  - destruct (finished s1).
    + injection H as _ <- _. exact R1.
    + destruct (RunFull_loop imagePaths mode darkDuration rest s1)
        as [[[y s2] evs2]|] eqn:L; cbn in H; [|discriminate].
      injection H as _ <- _. eapply IH; eauto.
  - injection H as _ <- _. exact R1.
Qed.

(** *** Stage moves along a whole run *)

Lemma flight_app (b : bool) (a c : list Event) :
  flight b (a ++ c) = Commands.obind (flight b a) (fun b' => flight b' c).
Proof.
  revert b. induction a as [|ev a IH]; intros b; cbn [app flight];
    [reflexivity|].
  destruct ev; try apply IH; destruct b; try reflexivity; apply IH.
Qed.

Lemma flight_quiet (b : bool) (evs : list Event) :
  Forall (fun ev => ev <> Launch /\ ev <> Join) evs -> flight b evs = Some b.
Proof.
  induction 1 as [|ev evs [NL NJ] _ IH]; cbn [flight]; [reflexivity|].
  destruct ev; try exact IH; congruence.
Qed.

Lemma body_flight imagePaths mode darkDuration s e s' evs flow :
  Inv s ->
  body imagePaths mode darkDuration s e = (s', evs, flow) ->
  flight (stageThread s) evs = Some (stageThread s').
Proof.
  intros I H. unfold body in H. destruct (displayImage s) eqn:D.
  - pose proof (light_branch_events _ _ _ _ _ _ _ H) as Hev.
    assert (Hsame : stageThread s' = stageThread s).
    { unfold light_branch in H. destruct (abortFlag e).
      - injection H as <- _ _. reflexivity.
      - destruct (maxCount_of mode s <=? imageDisplayCount s + 1);
          injection H as <- _ _; reflexivity. }
    rewrite Hsame. apply flight_quiet. apply Forall_forall. intros ev Hin.
    destruct (Hev _ Hin) as [[m ->]|[[i ->]|[r ->]]]; split; discriminate.
  - destruct I as (I1 & _).
    unfold dark_branch in H. injection H as <- <- _.
    destruct s as [wo cti cii t0 t1 nil inl ais st isr dts pst idc fl ilp di cl iip lc].
    cbn -[Nat.ltb Z.ltb SMC100C.to_string_int] in *. subst st.
    destruct mode, (darkDuration <? clock e - dts), isr, nil, inl,
      (stageReady e), ilp, (Nat.ltb (cii + 1) (List.length imagePaths));
      reflexivity.
Qed.

Lemma RunFull_loop_flight imagePaths mode darkDuration env :
  forall s x s' evs,
    reachable imagePaths s ->
    RunFull_loop imagePaths mode darkDuration env s = Some (x, s', evs) ->
    flight (stageThread s) evs = Some (stageThread s').
Proof.
  induction env as [|e rest IH]; intros s x s' evs R H;
    cbn [RunFull_loop] in H;
    destruct (negb (windowOpen s));
    try (injection H as _ <- <-; reflexivity); try discriminate.
  set (s0 := if closeRequested e then close_window s else s) in H.
  set (ev0 := if closeRequested e then [WindowClose] else []) in H.
  assert (R0 : reachable imagePaths s0)
    by (unfold s0; destruct (closeRequested e); [constructor|]; exact R).
  assert (T0 : stageThread s0 = stageThread s)
    by (unfold s0; destruct (closeRequested e); reflexivity).
  assert (F0 : flight (stageThread s) ev0 = Some (stageThread s0))
    by (rewrite T0; unfold ev0; destruct (closeRequested e); reflexivity).
  destruct (body imagePaths mode darkDuration s0 e) as [[s1 ev1] flow] eqn:B.
  pose proof (body_flight _ _ _ _ _ _ _ _ (reachable_inv _ _ R0) B) as F1.
  pose proof (reach_body _ _ _ _ _ _ _ _ R0 B) as R1.
  destruct flow.
  - destruct (finished s1).
    + injection H as _ <- <-.
      rewrite flight_app, F0. cbn [Commands.obind].
      rewrite flight_app, F1. reflexivity.
    + destruct (RunFull_loop imagePaths mode darkDuration rest s1)
        as [[[y s2] evs2]|] eqn:L; cbn in H; [|discriminate].
      injection H as _ <- <-.
      rewrite flight_app, F0. cbn [Commands.obind].
      rewrite flight_app, F1. cbn [Commands.obind]. eapply IH; eauto.
  - injection H as _ <- <-. rewrite flight_app, F0. exact F1.
Qed.

Lemma setup_flight started isClip w :
  flight false (fst (setup started isClip w)) = Some false.
Proof.
  apply flight_quiet. unfold setup.
  destruct (directory w) as [[|first others]|]; cbn [fst];
    [| destruct (initOk w); cbn [fst] |];
    repeat match goal with
           | |- Forall _ (_ ++ _) => apply Forall_app; split
           | |- Forall _ (_ :: _) =>
               apply Forall_cons; [split; discriminate|]
           | |- Forall _ [] => apply Forall_nil
           | |- Forall _ (if ?b then _ else _) => destruct b
           end.
Qed.

(** X24: along every run of [RunFull], a stage move is launched only
    when none is in flight and got only when one is; a run that reaches
    the end of the function leaves none in flight. *)
Lemma RunFull_stage_moves_alternate maxImageDisplayCount mindarktime isClip
  initialExposureCounter initialLayers w result tr :
  RunFull maxImageDisplayCount mindarktime isClip initialExposureCounter
    initialLayers w = Some (result, tr) ->
  exists inflight,
    flight false tr = Some inflight /\
    (result = Completed -> inflight = false).
Proof.
  unfold RunFull. intros H.
  pose proof (setup_flight "Run Full has started" isClip w) as F.
  destruct (setup "Run Full has started" isClip w)
    as [ev [stop|imagePaths]] eqn:S; cbn [fst] in F.
  - injection H as <- <-. exists false. split; [exact F|reflexivity].
  - destruct (RunFull_loop imagePaths _ mindarktime (ticks w) _)
      as [[[x s] evs]|] eqn:L; cbn in H; [|discriminate].
    pose proof (RunFull_loop_flight _ _ _ _ _ _ _ _
                  (reach_init imagePaths _ _) L) as FL.
    cbn [initial_state stageThread] in FL.
    pose proof (RunFull_loop_reachable _ _ _ _ _ _ _ _
                  (reach_init imagePaths _ _) L) as R.
    destruct (reachable_inv _ _ R) as (I1 & _).
    destruct x; injection H as <- <-.
    + exists (stageThread s). rewrite flight_app, F. cbn [Commands.obind].
      split; [exact FL | discriminate].
    + exists false. rewrite flight_app, F. cbn [Commands.obind].
      rewrite flight_app, FL. cbn [Commands.obind]. split; [|reflexivity].
      unfold shutdown. rewrite I1.
      destruct (stageThread s), (homeSent w); reflexivity.
Qed.

(** *** Abort *)

Lemma no_shutdown_app (a b : list Event) :
  no_shutdown a -> no_shutdown b -> no_shutdown (a ++ b).
Proof. intros A B. apply Forall_app. split; assumption. Qed.

(** Decomposition of a list of events written with [++], [::] and
    conditionals. *)
Ltac quiet_events :=
  repeat match goal with
         | |- Forall _ (_ ++ _) => apply Forall_app; split
         | |- Forall _ (_ :: _) => apply Forall_cons; [reflexivity|]
         | |- Forall _ [] => apply Forall_nil
         | |- Forall _ (if ?b then _ else _) => destruct b
         | |- Forall _ (match ?m with Static _ _ _ => _ | Dynamic _ => _ end) =>
             destruct m
         end.

Lemma body_no_shutdown imagePaths mode darkDuration s e s' evs flow :
  body imagePaths mode darkDuration s e = (s', evs, flow) -> no_shutdown evs.
Proof.
  unfold body, no_shutdown. intros H. destruct (displayImage s).
  - apply Forall_forall. intros ev Hin.
    destruct (light_branch_events _ _ _ _ _ _ _ H _ Hin)
      as [[m ->]|[[i ->]|[r ->]]]; reflexivity.
  - unfold dark_branch in H. injection H as _ <- _.
    quiet_events.
Qed.

Lemma RunFull_loop_aborted imagePaths mode darkDuration env :
  forall s s' evs,
    RunFull_loop imagePaths mode darkDuration env s = Some (LoopAborted, s', evs) ->
    no_shutdown evs /\
    displayImage s' = true /\
    exists front, evs = (front ++ [Log "Run Full aborted."])%list.
Proof.
  induction env as [|e rest IH]; intros s s' evs H;
    cbn [RunFull_loop] in H;
    destruct (negb (windowOpen s)); try discriminate.
  set (s0 := if closeRequested e then close_window s else s) in H.
  set (ev0 := if closeRequested e then [WindowClose] else []) in H.
  assert (Q0 : no_shutdown ev0).
  { unfold ev0. destruct (closeRequested e); repeat constructor. }
  destruct (body imagePaths mode darkDuration s0 e) as [[s1 ev1] flow] eqn:B.
  pose proof (body_no_shutdown _ _ _ _ _ _ _ _ B) as Q1.
  destruct flow.
  - destruct (finished s1); [discriminate|].
    destruct (RunFull_loop imagePaths mode darkDuration rest s1)
      as [[[y s2] evs2]|] eqn:L; cbn in H; [|discriminate].
    injection H as -> <- <-.
    destruct (IH _ _ _ L) as [Q2 [D2 [front ->]]]. split; [|split].
    + apply no_shutdown_app; [exact Q0 | apply no_shutdown_app; [exact Q1 | exact Q2]].
    + exact D2.
    + exists (ev0 ++ ev1 ++ front)%list. now rewrite <- !app_assoc.
  - injection H as <- <-. split; [now apply no_shutdown_app|].
    unfold body in B. destruct (displayImage s0) eqn:D0.
    + unfold light_branch in B. destruct (abortFlag e).
      * injection B as <- <-. split; [exact D0|]. exists ev0. reflexivity.
      * destruct (maxCount_of mode s0 <=? imageDisplayCount s0 + 1);
          discriminate.
    + discriminate.
Qed.

Lemma setup_no_shutdown started isClip w :
  no_shutdown (fst (setup started isClip w)).
Proof.
  unfold setup, no_shutdown.
  destruct (directory w) as [[|first others]|]; cbn [fst];
    [| destruct (initOk w); cbn [fst] |];
    quiet_events.
Qed.

(** What [RunFull] does when it observes the abort flag (C1): every run
    that ends by the abort check ends with the log line of the abort,
    with no stage move in flight (each one launched before had been
    got) and so none issued afterwards; but it has made no call of
    [Home] and no call of [SMC100CClose] at all, and, the abort line
    being last, no query of the final position follows it.  (The port
    is released only when the local controller object is destroyed.) *)
Theorem RunFull_abort_skips_shutdown maxImageDisplayCount mindarktime isClip
  initialExposureCounter initialLayers w tr :
  RunFull maxImageDisplayCount mindarktime isClip initialExposureCounter
    initialLayers w = Some (Aborted, tr) ->
  (exists front, tr = (front ++ [Log "Run Full aborted."])%list) /\
  flight false tr = Some false /\
  (forall sent, ~ In (HomeCall sent) tr) /\
  ~ In CloseCall tr.
Proof.
  unfold RunFull. intros H.
  pose proof (setup_no_shutdown "Run Full has started" isClip w) as Q.
  pose proof (setup_flight "Run Full has started" isClip w) as F.
  destruct (setup "Run Full has started" isClip w) as [ev [stop|imagePaths]] eqn:S.
  - injection H as -> <-. unfold setup in S.
    destruct (directory w) as [[|first others]|]; try discriminate.
    destruct (initOk w); discriminate.
  - cbn [fst] in Q, F.
    destruct (RunFull_loop imagePaths _ mindarktime (ticks w) _)
      as [[[x s] evs]|] eqn:L; cbn in H; [|discriminate].
    destruct x; [|discriminate]. injection H as <-.
    pose proof (RunFull_loop_flight _ _ _ _ _ _ _ _
                  (reach_init imagePaths _ _) L) as FL.
    cbn [initial_state stageThread] in FL.
    pose proof (RunFull_loop_reachable _ _ _ _ _ _ _ _
                  (reach_init imagePaths _ _) L) as R.
    destruct (reachable_inv _ _ R) as (_ & I2 & _).
    destruct (RunFull_loop_aborted _ _ _ _ _ _ _ L) as [Q1 [D [front E]]].
    rewrite (I2 D) in FL.
    assert (Qall : no_shutdown (ev ++ evs)) by (now apply no_shutdown_app).
    split; [exists (ev ++ front)%list; rewrite E; now rewrite <- app_assoc|].
    split; [rewrite flight_app, F; exact FL|].
    unfold no_shutdown in Qall. rewrite Forall_forall in Qall.
    split; [intros sent Hin | intros Hin];
      apply Qall in Hin; discriminate.
Qed.

Lemma RunFull_abort_skips_shutdown_witness :
  exists tr,
    RunFull 2 100 true 1 1 abort_in_layer_3 = Some (Aborted, tr) /\
    (forall sent, ~ In (HomeCall sent) tr) /\ ~ In CloseCall tr.
Proof.
  eexists. split; [vm_compute; reflexivity|].
  refine (proj2 (proj2 (RunFull_abort_skips_shutdown 2 100 true 1 1
                          abort_in_layer_3 _ _))).
  vm_compute. reflexivity.
Defined.

End PrintLoopFacts.




(** ** Facts about the settings table *)

Module SettingsFacts.
Import Settings SettingsSpec.

Lemma eqb_spec (a b : LayerSettings) : eqb a b = true <-> a = b.
Proof.
  destruct a as [i e d], b as [i' e' d']. unfold eqb. cbn.
  rewrite !Bool.andb_true_iff, !Z.eqb_eq. split.
  - intros [[-> ->] ->]. reflexivity.
  - intros H. injection H as -> -> ->. auto.
Qed.

(** The equivalence of the ordering of the map is the equality of the
    vector. *)
Lemma equiv_spec (a b : LayerSettings) : equiv a b = true <-> a = b.
Proof.
  destruct a as [i e d], b as [i' e' d']. unfold equiv, lt. cbn. split.
  - intros H.
    destruct (Z.ltb_spec i i'), (Z.ltb_spec i' i), (Z.ltb_spec e e'),
      (Z.ltb_spec e' e), (Z.ltb_spec d d'), (Z.ltb_spec d' d);
      cbn in H; try discriminate H; try lia.
    f_equal; lia.
  - intros H. injection H as -> -> ->.
    rewrite !Z.ltb_irrefl. reflexivity.
Qed.

Lemma equiv_false (a b : LayerSettings) : equiv a b = false <-> a <> b.
Proof.
  rewrite <- equiv_spec. destruct (equiv a b); split; congruence.
Qed.

Lemma eqb_false (a b : LayerSettings) : eqb a b = false <-> a <> b.
Proof.
  rewrite <- eqb_spec. destruct (eqb a b); split; congruence.
Qed.

(** *** The table the specification describes *)

Lemma first_occurrences_In (rows : list LayerSettings) (x : LayerSettings) :
  In x (first_occurrences rows) <-> In x rows.
Proof.
  induction rows as [|a rows IH]; cbn; [tauto|].
  rewrite filter_In, IH, Bool.negb_true_iff, eqb_false.
  destruct (LayerSettings_eq_dec a x) as [->|N]; [tauto|].
  split; [tauto|]. intros [H|H]; [tauto|]. right. split; [exact H|congruence].
Qed.

Lemma first_occurrences_NoDup (rows : list LayerSettings) :
  NoDup (first_occurrences rows).
Proof.
  induction rows as [|a rows IH]; cbn; constructor.
  - rewrite filter_In, Bool.negb_true_iff, eqb_false. tauto.
  - now apply NoDup_filter.
Qed.

Lemma first_occurrences_snoc (rows : list LayerSettings) (x : LayerSettings) :
  first_occurrences (rows ++ [x]) =
  if in_dec LayerSettings_eq_dec x rows then first_occurrences rows
  else (first_occurrences rows ++ [x])%list.
Proof.
  induction rows as [|a rows IH]; cbn [app first_occurrences].
  - destruct (in_dec LayerSettings_eq_dec x []) as [[]|_]. reflexivity.
  - rewrite IH.
    destruct (in_dec LayerSettings_eq_dec x rows) as [I|N];
      destruct (in_dec LayerSettings_eq_dec x (a :: rows)) as [I'|N'];
      try reflexivity.
    + exfalso. apply N'. right. exact I.
    + rewrite filter_app. cbn [filter].
      destruct I' as [->|I']; [|contradiction].
      replace (eqb x x) with true by (symmetry; now apply eqb_spec).
      cbn. now rewrite app_nil_r.
    + rewrite filter_app. cbn [filter].
      replace (eqb x a) with false.
      * reflexivity.
      * symmetry. apply eqb_false. intros ->. apply N'. left. reflexivity.
Qed.

Lemma occurrences_snoc (rows : list LayerSettings) (x y : LayerSettings) :
  occurrences (rows ++ [x]) y =
  if LayerSettings_eq_dec x y then occurrences rows y + 1 else occurrences rows y.
Proof.
  unfold occurrences. rewrite count_occ_app. cbn [count_occ].
  destruct (LayerSettings_eq_dec x y); lia.
Qed.

Lemma occurrences_bound (rows : list LayerSettings) (x : LayerSettings) :
  0 <= occurrences rows x <= Z.of_nat (List.length rows).
Proof.
  unfold occurrences.
  pose proof (count_occ_bound LayerSettings_eq_dec x rows). lia.
Qed.

Lemma occurrences_not_In (rows : list LayerSettings) (x : LayerSettings) :
  ~ In x rows -> occurrences rows x = 0.
Proof.
  intros H. unfold occurrences.
  apply (count_occ_not_In LayerSettings_eq_dec) in H. now rewrite H.
Qed.

Lemma int_incr_small (v : Z) :
  -2147483648 <= v + 1 < 2147483648 -> int_incr v = v + 1.
Proof.
  intros H. unfold int_incr.
  rewrite Z.mod_small by lia. lia.
Qed.

(** *** The loop against the table *)

Lemma map_find_incr (m : list (LayerSettings * Z)) (key x : LayerSettings) :
  map_find (map_incr m key) x <> None <-> (x = key \/ map_find m x <> None).
Proof.
  induction m as [|[k v] m IH]; cbn.
  - destruct (equiv key x) eqn:E.
    + apply equiv_spec in E. subst. split; [auto | discriminate].
    + apply equiv_false in E. split; [congruence|].
      intros [->|H]; congruence.
  - destruct (equiv k key) eqn:E; cbn.
    + apply equiv_spec in E. subst k.
      destruct (equiv key x) eqn:E2.
      * split; [intros _; right|]; discriminate.
      * apply equiv_false in E2. split; [auto|].
        intros [->|H]; [congruence | exact H].
    + destruct (equiv k x) eqn:E2.
      * split; [intros _; right|]; discriminate.
      * exact IH.
Qed.

Lemma map_tracks_incr m seen key :
  map_tracks m seen -> map_tracks (map_incr m key) (seen ++ [key]).
Proof.
  unfold map_tracks. intros H x.
  rewrite map_find_incr, in_app_iff, H. cbn. intuition congruence.
Qed.

Lemma map_tracks_incr_seen m seen key :
  map_tracks m seen -> In key seen -> map_tracks (map_incr m key) seen.
Proof.
  unfold map_tracks. intros H I x.
  rewrite map_find_incr, H. intuition congruence.
Qed.

Lemma vector_incr_map (count : LayerSettings -> Z) (keys : list LayerSettings)
  (x : LayerSettings) :
  NoDup keys ->
  vector_incr (map (fun k => (k, count k)) keys) x =
  map (fun k => (k, if LayerSettings_eq_dec x k then int_incr (count k)
                    else count k)) keys.
Proof.
  induction 1 as [|k keys Hk _ IH]; cbn; [reflexivity|].
  destruct (eqb k x) eqn:E.
  - apply eqb_spec in E. subst k.
    destruct (LayerSettings_eq_dec x x); [|congruence]. f_equal.
    apply map_ext_in. intros k Hin.
    destruct (LayerSettings_eq_dec x k); [congruence | reflexivity].
  - apply eqb_false in E.
    destruct (LayerSettings_eq_dec x k); [congruence|]. now rewrite IH.
Qed.

(** One iteration of the loop takes the table of the rows read so far
    to the table of the rows read so far and the new one. *)
Lemma add_setting_table (seen : list LayerSettings)
  (m : list (LayerSettings * Z)) (x : LayerSettings) :
  map_tracks m seen ->
  Z.of_nat (List.length seen) + 1 < INT_ROWS ->
  exists m',
    add_setting (table_of seen, m) x = (table_of (seen ++ [x]), m') /\
    map_tracks m' (seen ++ [x]).
Proof.
  unfold INT_ROWS. intros T L. unfold add_setting.
  destruct (map_find m x) as [v|] eqn:F.
  - assert (I : In x seen) by (apply T; congruence).
    eexists. split.
    + f_equal. unfold table_of.
      rewrite first_occurrences_snoc.
      destruct (in_dec LayerSettings_eq_dec x seen) as [_|N]; [|contradiction].
      rewrite vector_incr_map by apply first_occurrences_NoDup.
      apply map_ext. intros k. rewrite occurrences_snoc.
      destruct (LayerSettings_eq_dec x k); [|reflexivity].
      pose proof (occurrences_bound seen k).
      now rewrite int_incr_small by lia.
    + apply map_tracks_incr. apply map_tracks_incr_seen; assumption.
  - assert (N : ~ In x seen) by (intros I; apply T in I; congruence).
    eexists. split.
    + f_equal. unfold table_of.
      rewrite first_occurrences_snoc.
      destruct (in_dec LayerSettings_eq_dec x seen) as [I|_]; [contradiction|].
      rewrite map_app. cbn [map]. f_equal.
      * apply map_ext_in. intros k Hk. rewrite occurrences_snoc.
        destruct (LayerSettings_eq_dec x k) as [->|_]; [|reflexivity].
        exfalso. apply N. now apply first_occurrences_In.
      * rewrite occurrences_snoc, (occurrences_not_In _ _ N).
        destruct (LayerSettings_eq_dec x x); [reflexivity | congruence].
    + now apply map_tracks_incr.
Qed.

Lemma fold_add_setting_table (rows : list LayerSettings) :
  forall (seen : list LayerSettings) (m : list (LayerSettings * Z)),
    map_tracks m seen ->
    Z.of_nat (List.length (seen ++ rows)) < INT_ROWS ->
    fst (fold_left add_setting rows (table_of seen, m)) =
    table_of (seen ++ rows).
Proof.
  induction rows as [|x rows IH]; intros seen m T L; cbn [fold_left].
  - now rewrite app_nil_r.
  - rewrite length_app in L. cbn [List.length] in L.
    destruct (add_setting_table seen m x T ltac:(lia)) as [m' [-> T']].
    rewrite (IH _ _ T').
    + now rewrite <- app_assoc.
    + rewrite <- app_assoc, length_app. cbn [List.length app]. lia.
Qed.

(** The loader builds the table the specification describes. *)
Lemma readSettingsOrdered_table (uninit : nat -> Uninit) (file : option string) :
  Z.of_nat (List.length (data_rows file)) < INT_ROWS ->
  readSettingsOrdered uninit file =
  table_of (parse_rows uninit 0 (data_rows file)).
Proof.
  intros L. unfold readSettingsOrdered.
  change (@nil (LayerSettings * Z)) with (table_of []) at 1.
  rewrite fold_add_setting_table; [reflexivity | |].
  - intros x. cbn. tauto.
  - cbn [app].
    assert (E : forall rows i,
               List.length (parse_rows uninit i rows) = List.length rows).
    { induction rows as [|r rows IHr]; intros i; cbn; [|rewrite IHr];
        reflexivity. }
    now rewrite E.
Qed.

Lemma table_of_keys (rows : list LayerSettings) :
  map fst (table_of rows) = first_occurrences rows.
Proof.
  unfold table_of. rewrite map_map. cbn. apply map_id.
Qed.

Lemma table_of_In (rows : list LayerSettings) (x : LayerSettings) (n : Z) :
  In (x, n) (table_of rows) <-> In x rows /\ n = occurrences rows x.
Proof.
  unfold table_of. rewrite in_map_iff. split.
  - intros [k [E I]]. injection E as -> <-.
    split; [now apply first_occurrences_In | reflexivity].
  - intros [I ->]. exists x. split; [reflexivity|].
    now apply first_occurrences_In.
Qed.



(** *** Rows that parse *)

Lemma read_digits_number (ds : string) :
  forall (acc : Z) (n : nat) (rest : string),
    all_digits ds = true -> starts_without_digit rest ->
    read_digits (ds ++ rest) acc n =
    (digits_value acc ds, (n + String.length ds)%nat, rest).
Proof.
  induction ds as [|c ds IH]; intros acc n rest D R; cbn [append].
  - cbn [digits_value String.length]. rewrite Nat.add_0_r.
    destruct rest as [|c rest]; cbn [read_digits]; [reflexivity|].
    cbn in R. now rewrite R.
  - cbn [all_digits] in D. cbn [read_digits digits_value String.length].
    destruct (digit_of c) as [d|]; [|discriminate].
    rewrite (IH _ _ _ D R). f_equal. f_equal. lia.
Qed.

Lemma digit_is_plain (c : ascii) (d : Z) :
  digit_of c = Some d ->
  is_space c = false /\ Ascii.eqb c "-" = false /\ Ascii.eqb c "+" = false.
Proof.
  destruct c as [[] [] [] [] [] [] [] []]; vm_compute; intros H;
    try discriminate H; repeat split.
Qed.

Lemma extract_int_number (ds rest : string) (old : Z) :
  is_number ds = true -> starts_without_digit rest ->
  digits_value 0 ds <= INT_MAX ->
  0 <= digits_value 0 ds ->
  extract_int {| buf := ds ++ rest; good := true |} old =
  (digits_value 0 ds, {| buf := rest; good := true |}).
Proof.
  intros N R Hmax Hmin. destruct ds as [|c ds]; [discriminate|].
  cbn [is_number] in N. unfold extract_int. cbn [good negb buf append skipws].
  pose proof N as N'. cbn [all_digits] in N'.
  destruct (digit_of c) as [d|] eqn:Dc; [|discriminate].
  destruct (digit_is_plain c d Dc) as (Sp & Mi & Pl).
  rewrite Sp, Mi, Pl. cbn [orb].
  change (String c (ds ++ rest)) with (String c ds ++ rest).
  rewrite (read_digits_number (String c ds) 0 0 rest N R).
  cbn [Nat.add String.length Nat.eqb].
  destruct (Z.ltb_spec INT_MAX (digits_value 0 (String c ds))); [lia|].
  destruct (Z.ltb_spec (digits_value 0 (String c ds)) INT_MIN);
    [unfold INT_MIN in *; lia | reflexivity].
Qed.

Lemma extract_comma (rest : string) (old : ascii) :
  extract_char {| buf := "," ++ rest; good := true |} old =
  (","%char, {| buf := rest; good := true |}).
Proof. reflexivity. Qed.

(** X20: a well-formed row carries the three numbers written in its
    fields two to four, whatever the locals held before. *)
Lemma parse_row_well_formed (u : Uninit)
  (layer intensity exposureTime darkTime : string) :
  is_number layer = true -> is_number intensity = true ->
  is_number exposureTime = true -> is_number darkTime = true ->
  0 <= digits_value 0 layer <= INT_MAX ->
  0 <= digits_value 0 intensity <= INT_MAX ->
  0 <= digits_value 0 exposureTime <= INT_MAX ->
  0 <= digits_value 0 darkTime <= INT_MAX ->
  fst (parse_row u (row_text layer intensity exposureTime darkTime)) =
  {| Settings.intensity := digits_value 0 intensity;
     Settings.exposureTime := digits_value 0 exposureTime;
     Settings.darkTime := digits_value 0 darkTime |}.
Proof.
  intros N1 N2 N3 N4 [L1 H1] [L2 H2] [L3 H3] [L4 H4].
  unfold parse_row, row_text.
  rewrite (extract_int_number layer) by (assumption || reflexivity).
  rewrite extract_comma.
  rewrite (extract_int_number intensity) by (assumption || reflexivity).
  rewrite extract_comma.
  rewrite (extract_int_number exposureTime) by (assumption || reflexivity).
  rewrite extract_comma.
  replace darkTime with (darkTime ++ "")%string at 1
    by (clear; induction darkTime as [|c r IH]; cbn; [|rewrite IH]; reflexivity).
  rewrite (extract_int_number darkTime "") by (assumption || exact I).
  reflexivity.
Qed.

(** *** Rows that do not parse *)

Lemma total_table (keys rows : list LayerSettings) :
  NoDup keys ->
  (forall x, In x rows -> In x keys) ->
  total (map (fun k => (k, occurrences rows k)) keys) =
  Z.of_nat (List.length rows).
Proof.
  intros ND. revert rows.
  assert (One : forall (a : LayerSettings) (rows : list LayerSettings) keys0,
             NoDup keys0 ->
             total (map (fun k => (k, occurrences (a :: rows) k)) keys0) =
             total (map (fun k => (k, occurrences rows k)) keys0)
             + (if in_dec LayerSettings_eq_dec a keys0 then 1 else 0)).
  { intros a rows keys0 ND0.
    induction ND0 as [|k keys0 Hk ND0 IH]; cbn [map total]; [reflexivity|].
    rewrite IH. unfold occurrences. cbn [count_occ].
    destruct (LayerSettings_eq_dec a k) as [->|N].
    - destruct (in_dec LayerSettings_eq_dec k keys0) as [I|_];
        [contradiction|].
      destruct (in_dec LayerSettings_eq_dec k (k :: keys0)) as [_|N'];
        [lia | exfalso; apply N'; now left].
    - destruct (in_dec LayerSettings_eq_dec a keys0) as [I|N'];
        destruct (in_dec LayerSettings_eq_dec a (k :: keys0)) as [I'|N''];
        try lia.
      + exfalso. apply N''. now right.
      + destruct I' as [E|I']; [congruence | contradiction]. }
  induction rows as [|a rows IH]; intros Hin.
  - cbn. clear Hin. induction keys as [|k keys IHk]; cbn; [reflexivity|].
    inversion ND; subst. rewrite IHk by assumption. reflexivity.
  - rewrite (One a rows keys ND).
    rewrite IH by (intros x I; apply Hin; now right).
    destruct (in_dec LayerSettings_eq_dec a keys) as [_|N].
    + cbn [List.length]. lia.
    + exfalso. apply N. apply Hin. now left.
Qed.

(** C7, as amended: [readSettingsOrdered] has no parse failure.  Every
    data row, whatever its text, is counted in the table: the counts add
    up to the number of data rows, so no row is skipped and none is
    rejected.  A field that does not start with a digit or a sign is
    read as 0 and sets [failbit]; with [failbit] set every later field
    is left as the uninitialised local holds it.  The settings built
    from such values enter the table like any other. *)
Theorem readSettingsOrdered_absorbs_malformed_rows :
  (forall (uninit : nat -> Uninit) (file : option string),
     Z.of_nat (List.length (data_rows file)) < INT_ROWS ->
     total (readSettingsOrdered uninit file) =
     Z.of_nat (List.length (data_rows file))) /\
  (forall (st : istream) (old : Z) (c : ascii) (rest : string),
     good st = true ->
     skipws (buf st) = String c rest ->
     digit_of c = None -> c <> "-"%char -> c <> "+"%char ->
     extract_int st old = (0, {| buf := String c rest; good := false |})) /\
  (forall (st : istream) (old : Z) (oldc : ascii),
     good st = false ->
     extract_int st old = (old, st) /\ extract_char st oldc = (oldc, st)).
Proof.
  split; [|split].
  - intros uninit file L.
    rewrite (readSettingsOrdered_table uninit file L). unfold table_of.
    rewrite total_table.
    + assert (E : forall rows i,
                 List.length (parse_rows uninit i rows) = List.length rows).
      { induction rows as [|r rows IHr]; intros i; cbn; [|rewrite IHr];
          reflexivity. }
      now rewrite E.
    + apply first_occurrences_NoDup.
    + intros x I. now apply first_occurrences_In.
  - intros st old c rest G S D Nm Np. unfold extract_int.
    rewrite G, S. cbn [negb].
    replace (Ascii.eqb c "-") with false
      by (symmetry; now apply Ascii.eqb_neq).
    replace (Ascii.eqb c "+") with false
      by (symmetry; now apply Ascii.eqb_neq).
    cbn [orb read_digits]. rewrite D. reflexivity.
  - intros st old oldc G. unfold extract_int, extract_char. rewrite G.
    split; reflexivity.
Qed.

Lemma readSettingsOrdered_absorbs_malformed_rows_witness :
  total (readSettingsOrdered uninit_sevens malformed_file) = 1.
Proof.
  refine (proj1 readSettingsOrdered_absorbs_malformed_rows uninit_sevens
            malformed_file _).
  vm_compute. reflexivity.
Defined.

(** C7 as stated fails: the row ["1,abc,5,100"] raises no error and is
    not skipped; it enters the table as a settings entry, with intensity
    0 and the two fields after it as the locals happened to hold them. *)
Lemma malformed_row_enters_table :
  readSettingsOrdered uninit_sevens malformed_file =
  [({| intensity := 0; exposureTime := 777; darkTime := 7777 |}, 1)].
Proof. vm_compute. reflexivity. Qed.

End SettingsFacts.

(** ** Facts about the dynamic run *)

Module DynamicRunFacts.
Import Settings PrintLoop PrintLoopSpec SettingsSpec DynamicRunSpec.
Import PrintLoopFacts SettingsFacts.

Lemma printed_app settings (a b : list Event) :
  printed settings (a ++ b) = printed settings a + printed settings b.
Proof.
  induction a as [|ev a IH]; cbn [app printed]; [reflexivity|].
  destruct ev; rewrite IH; lia.
Qed.

Lemma printed_finish settings : printed settings finish_events = 0.
Proof. reflexivity. Qed.

(** An iteration of the body of a group completes at most one cycle, and
    [layercounter] counts the cycles completed. *)
Lemma body_dynamic_count imagePaths currentSetting darkDuration s e s1 ev1 flow :
  body imagePaths (Dynamic currentSetting) darkDuration s e = (s1, ev1, flow) ->
  layercounter s1 = layercounter s + printed currentSetting ev1 /\
  0 <= printed currentSetting ev1 <= 1.
Proof.
  unfold body. intros H. destruct (displayImage s).
  - assert (P : printed currentSetting ev1 = 0).
    { pose proof (light_branch_events _ _ _ _ _ _ _ H) as Hev.
      clear H. induction ev1 as [|ev ev1 IH]; [reflexivity|].
      destruct (Hev ev (or_introl eq_refl)) as [[m ->]|[[i ->]|[r ->]]];
        cbn [printed]; apply IH; intros ev' I; apply Hev; now right. }
    rewrite P. split; [|lia].
    unfold light_branch in H. destruct (abortFlag e).
    + injection H as <- _ _. lia.
    + destruct (maxCount_of _ s <=? imageDisplayCount s + 1);
        injection H as <- _ _; cbn; lia.
  - unfold dark_branch in H. injection H as <- <- _.
    destruct s as [wo cti cii t0 t1 nil inl ais st isr dts pst idc fl ilp di cl iip lc].
    cbn -[Nat.ltb Z.ltb SMC100C.to_string_int LayerSettings_eq_dec].
    destruct (darkDuration <? clock e - dts), isr, nil, inl, (stageReady e),
      ilp, (Nat.ltb (cii + 1) (List.length imagePaths));
      cbn -[Nat.ltb Z.ltb SMC100C.to_string_int LayerSettings_eq_dec];
      try (destruct (LayerSettings_eq_dec currentSetting currentSetting);
           [|congruence]);
      lia.
Qed.

(** The [while] loop of a group: its cycles are counted by
    [layercounter], and when it ends by its condition the counter is one
    more than [layerCount]. *)
Lemma group_loop_count imagePaths currentSetting layerCount env :
  forall s x s' evs rest,
    group_loop imagePaths currentSetting layerCount env s
      = Some (x, s', evs, rest) ->
    layercounter s' = layercounter s + printed currentSetting evs /\
    (x = GroupDone -> layercounter s <= layerCount + 1 ->
     layercounter s' = Z.max (layercounter s) (layerCount + 1)).
Proof.
  induction env as [|e env IH]; intros s x s' evs rest H;
    cbn [group_loop] in H;
    destruct (Z.ltb_spec layerCount (layercounter s)) as [Lt|Le];
    try (injection H as <- <- <- <-; cbn [printed]; split; intros; lia);
    try discriminate.
  destruct (body imagePaths (Dynamic currentSetting) (darkTime currentSetting)
              s e) as [[s1 ev1] flow] eqn:B.
  destruct (body_dynamic_count _ _ _ _ _ _ _ _ B) as [C1 C2].
  destruct flow.
  - destruct (finished s1).
    + injection H as <- <- <- <-.
      rewrite printed_app, printed_finish. split; [lia | discriminate].
    + destruct (group_loop imagePaths currentSetting layerCount env s1)
        as [[[[y s2] evs2] rest2]|] eqn:G; cbn in H; [|discriminate].
      injection H as <- <- <- <-.
      destruct (IH _ _ _ _ _ G) as [D1 D2].
      rewrite printed_app. split; [lia|].
      intros Hx _. specialize (D2 Hx ltac:(lia)). lia.
  - injection H as <- <- <- <-. split; [lia | discriminate].
Qed.

(** Every group that runs to the end of its loop has completed
    [layerCount + 1] light/dark cycles under its settings, one more than
    the count of the table. *)
Lemma group_runs_one_cycle_more imagePaths currentSetting layerCount env s
  s' evs rest :
  0 <= layerCount ->
  group_loop imagePaths currentSetting layerCount env (set_layercounter s 0)
    = Some (GroupDone, s', evs, rest) ->
  printed currentSetting evs = layerCount + 1.
Proof.
  intros Hn H.
  destruct (group_loop_count _ _ _ _ _ _ _ _ _ H) as [C D].
  cbn [set_layercounter layercounter] in C, D.
  specialize (D eq_refl ltac:(lia)). lia.
Qed.

(** What [RunFullDynamic] does with the table
    [[(10,5,100) x 3; (20,8,150) x 2]] (C2): the settings are applied in
    the order of the table, but with ten images at hand the first group
    runs four cycles and the second three; with the five images of the
    scenario the first group runs four cycles and leaves a single,
    last, exposure to the second. *)
Theorem dynamic_groups_run_one_cycle_more :
  cycles_per_group ten_images (ticks_from 1 100) = Some (4, 3) /\
  cycles_per_group five_images (ticks_from 1 100) = Some (4, 0) /\
  option_map (fun r => filter (fun ev => match ev with
                                         | SetCurrent _ => true
                                         | _ => false
                                         end) (snd r))
    (settings_loop ten_images scenario_table (ticks_from 1 100)
       (initial_state true 0)) = Some [SetCurrent 10; SetCurrent 20].
Proof. repeat split; vm_compute; reflexivity. Qed.

(** *** A table without groups *)

Lemma getlines_one_line (header : string) :
  forall acc,
    has_newline header = false ->
    tl (getlines acc header) = [] /\
    tl (getlines acc (header ++ String LF "")) = [].
Proof.
  induction header as [|c header IH]; intros acc H.
  - split; [destruct acc|]; reflexivity.
  - cbn [has_newline] in H. apply Bool.orb_false_iff in H.
    destruct H as [Hc Hr]. cbn [getlines append]. rewrite Hc.
    apply IH. exact Hr.
Qed.

Lemma setup_no_layer_event started isClip w :
  Forall (fun ev => layer_event ev = false) (fst (setup started isClip w)).
Proof.
  unfold setup.
  destruct (directory w) as [[|first others]|]; cbn [fst];
    [| destruct (initOk w); cbn [fst] |];
    quiet_events.
Qed.

Lemma shutdown_no_layer_event s w :
  Forall (fun ev => layer_event ev = false) (shutdown s w).
Proof. unfold shutdown. quiet_events. Qed.

(** C10: a settings file that cannot be opened, and one that holds the
    header line only (with or without its newline), give the empty
    table, and nothing reports an error; a dynamic run on that table
    returns whatever the ticks are, and applies no settings and shows no
    layer: after the setup it goes to the shutdown sequence. *)
Theorem empty_table_runs_no_group (uninit : nat -> Uninit) :
  readSettingsOrdered uninit None = [] /\
  (forall header,
     has_newline header = false ->
     readSettingsOrdered uninit (Some header) = [] /\
     readSettingsOrdered uninit (Some (header ++ String LF "")) = []) /\
  (forall isClip w,
     exists result tr,
       RunFullDynamic isClip (readSettingsOrdered uninit None) w
         = Some (result, tr) /\
       Forall (fun ev => layer_event ev = false) tr).
Proof.
  split; [reflexivity|]. split.
  - intros header H. unfold readSettingsOrdered, data_rows, file_lines.
    destruct (getlines_one_line header "" H) as [-> ->]. split; reflexivity.
  - intros isClip w. change (readSettingsOrdered uninit None) with
      (@nil (LayerSettings * Z)).
    unfold RunFullDynamic. cbn [prelude flat_map app].
    pose proof (setup_no_layer_event "Run Full Dynamic has started" isClip w)
      as Q.
    destruct (setup "Run Full Dynamic has started" isClip w)
      as [ev [stop|imagePaths]]; cbn [fst] in Q.
    + eexists _, _. split; [reflexivity | exact Q].
    + cbn [initial_state windowOpen settings_loop Commands.obind].
      destruct (windowIsOpen w); cbn [negb].
      * eexists _, _. split; [reflexivity|].
        apply Forall_app. split; [exact Q|].
        apply Forall_app. split; [quiet_events|].
        cbn [app]. apply shutdown_no_layer_event.
      * eexists _, _. split; [reflexivity|].
        apply Forall_app. split; [exact Q | apply shutdown_no_layer_event].
Qed.

Lemma empty_table_runs_no_group_witness :
  readSettingsOrdered uninit_sevens (Some "Layer,Intensity,Exposure,Dark") = [] /\
  readSettingsOrdered uninit_sevens
    (Some ("Layer,Intensity,Exposure,Dark" ++ String LF "")) = [].
Proof.
  exact (proj1 (proj2 (empty_table_runs_no_group uninit_sevens))
           "Layer,Intensity,Exposure,Dark" eq_refl).
Defined.

End DynamicRunFacts.

(** ** More facts about the driver *)

Module DriverFacts.
Import SMC100C ErrorCodes LineRead SMC100CSpec DriverSpec SMC100CFacts.

(** *** The command table *)

(** X1: [SetCommand] selects, for every command, the entry of
    [CommandLibrary] that carries this command; its code has two
    characters, and two commands with the same code are the same
    command. *)
Theorem CommandLibrary_codes_identify (t1 t2 : CommandType) (q1 q2 : Q)
  (g1 g2 : CommandGetSetType) :
  Command (EntryCommand (SetCommand t1 q1 g1)) = t1 /\
  String.length (CommandChar (EntryCommand (SetCommand t1 q1 g1))) = 2%nat /\
  (CommandChar (EntryCommand (SetCommand t1 q1 g1)) =
   CommandChar (EntryCommand (SetCommand t2 q2 g2)) -> t1 = t2).
Proof.
  split; [destruct t1; reflexivity|].
  split; [destruct t1; reflexivity|].
  destruct t1; destruct t2; cbn; intros H;
    first [reflexivity | discriminate H].
Qed.

(** *** What [SendCurrentCommand] reports *)

(** X2: [SendCurrentCommand] returns [false] exactly when the port took
    no byte of the address; it has then written nothing and has made
    that one call of [write] only. *)
Theorem SendCurrentCommand_false_iff (e : CommandEntry) (p : Serial) :
  fst (SendCurrentCommand e p) =
    match short_writes p with
    | [] => true
    | q :: _ => negb (Nat.eqb q 0)
    end /\
  (fst (SendCurrentCommand e p) = false ->
   snd (SendCurrentCommand e p) =
   {| is_open := is_open p; tx := tx p;
      short_writes := tl (short_writes p); rx := rx p |}).
Proof.
  unfold SendCurrentCommand.
  destruct (write p ControllerAdress) as [n s1] eqn:W.
  unfold write in W. change (String.length ControllerAdress) with 1%nat in W.
  destruct (short_writes p) as [|q qs].
  - injection W as <- <-. cbn [Nat.eqb negb fst].
    split; [reflexivity | intros H; discriminate H].
  - destruct q as [|q].
    + injection W as <- <-. cbn [Nat.eqb negb fst snd tl Nat.min String.substring].
      rewrite append_nil_r. split; reflexivity.
    + replace (Nat.min (S q) 1) with 1%nat in W by lia.
      injection W as <- <-. cbn [Nat.eqb negb fst].
      split; [reflexivity | intros H; discriminate H].
Qed.

Lemma substring_0_0 (s : string) : String.substring 0 0 s = "".
Proof. destruct s; reflexivity. Qed.

(** X3: only the write of the address is checked.  When the port takes
    the address and then refuses every byte of the three writes that
    follow, [SendCurrentCommand] still returns [true], with the address
    alone on the wire. *)
Theorem SendCurrentCommand_unchecked_writes (e : CommandEntry) (p : Serial)
  (later : list nat) :
  short_writes p = (1 :: 0 :: 0 :: 0 :: later)%nat ->
  SendCurrentCommand e p =
  (true,
   {| is_open := is_open p; tx := tx p ++ ControllerAdress;
      short_writes := later; rx := rx p |}).
Proof.
  intros H. unfold SendCurrentCommand, write. rewrite H.
  cbn -[to_string_float to_string_int].
  destruct (GetOrSet e); cbn -[to_string_float to_string_int];
    rewrite ?substring_0_0, ?append_nil_r; reflexivity.
Qed.

Lemma SendCurrentCommand_unchecked_writes_witness :
  SendCurrentCommand (SetCommand MoveAbs 5 Set_)
    {| is_open := true; tx := ""; short_writes := [1; 0; 0; 0]%nat; rx := [] |} =
  (true, {| is_open := true; tx := "1"; short_writes := []; rx := [] |}).
Proof.
  exact (SendCurrentCommand_unchecked_writes (SetCommand MoveAbs 5 Set_)
           {| is_open := true; tx := ""; short_writes := [1; 0; 0; 0]%nat;
              rx := [] |} [] eq_refl).
Defined.

(** *** One line per command *)

Lemma one_line_app (a b : string) :
  one_line (a ++ b) = (one_line a && one_line b)%bool.
Proof.
  induction a as [|c a IH]; simpl; [reflexivity|].
  rewrite IH. now rewrite !andb_assoc.
Qed.

Lemma one_line_uint_digits (d : Decimal.uint) :
  one_line (NilEmpty.string_of_uint d) = true.
Proof. induction d; simpl; auto. Qed.

Lemma one_line_uint (d : Decimal.uint) :
  one_line (NilZero.string_of_uint d) = true.
Proof.
  unfold NilZero.string_of_uint.
  destruct d; try apply one_line_uint_digits. reflexivity.
Qed.

Lemma one_line_zeros (n : nat) : one_line (zeros n) = true.
Proof. induction n as [|n IH]; simpl; auto. Qed.

Lemma one_line_to_string_int (z : Z) : one_line (to_string_int z) = true.
Proof.
  unfold to_string_int, NilZero.string_of_int.
  destruct (Z.to_int z); [apply one_line_uint|].
  change (String "-" (NilZero.string_of_uint d))
    with ("-" ++ NilZero.string_of_uint d).
  rewrite one_line_app, one_line_uint. reflexivity.
Qed.

Lemma one_line_to_string_float (q : Q) : one_line (to_string_float q) = true.
Proof.
  unfold to_string_float, pad_zeros.
  rewrite !one_line_app, !one_line_uint, one_line_zeros.
  destruct (Qnum q <? 0); reflexivity.
Qed.

Lemma one_line_code (t : CommandType) (q : Q) (g : CommandGetSetType) :
  one_line (CommandChar (EntryCommand (SetCommand t q g))) = true.
Proof. destruct t; reflexivity. Qed.

(** X4: on a port that takes every byte, [SendCurrentCommand] appends
    exactly one line to what was sent: the address, the code of the
    command and a payload, none of which holds a carriage return or a
    line feed, then the terminator.  For a query the payload is the
    question mark, whatever the parameter. *)
Theorem SendCurrentCommand_sends_one_line (t : CommandType) (q : Q)
  (g : CommandGetSetType) (p : Serial) :
  short_writes p = [] ->
  exists payload,
    SendCurrentCommand (SetCommand t q g) p =
    (true,
     {| is_open := is_open p;
        tx := tx p ++ (ControllerAdress
                ++ CommandChar (EntryCommand (SetCommand t q g)) ++ payload)
                ++ CRLF;
        short_writes := []; rx := rx p |}) /\
    one_line (ControllerAdress
                ++ CommandChar (EntryCommand (SetCommand t q g)) ++ payload)
      = true /\
    (g = Get -> payload = "?").
Proof.
  intros HS.
  exists (match g with
          | Get => "?"
          | _ => match SendType (EntryCommand (SetCommand t q g)) with
                 | Int => to_string_int (float_to_int q)
                 | Float => to_string_float q
                 | ParamNone => ""
                 end
          end).
  split; [|split].
  - unfold SendCurrentCommand.
    rewrite (write_all _ _ HS).
    cbn [negb Nat.eqb String.length ControllerAdress].
    cbn [GetOrSet Parameter_ SetCommand]. fold (SetCommand t q g).
    destruct g;
      repeat (rewrite write_all by reflexivity;
              cbn [snd is_open tx short_writes rx]);
      rewrite !append_assoc; reflexivity.
  - rewrite !one_line_app, one_line_code.
    destruct g; try reflexivity;
      destruct (SendType (EntryCommand (SetCommand t q _)));
      rewrite ?one_line_to_string_int, ?one_line_to_string_float; reflexivity.
  - intros ->. reflexivity.
Qed.

Lemma SendCurrentCommand_sends_one_line_witness :
  exists payload,
    SendCurrentCommand (SetCommand Velocity (5 # 2) Set_) accepting_port =
    (true,
     {| is_open := true;
        tx := "" ++ (ControllerAdress ++ "VA" ++ payload) ++ CRLF;
        short_writes := []; rx := [] |}) /\
    one_line (ControllerAdress ++ "VA" ++ payload) = true /\
    (Set_ = Get -> payload = "?").
Proof.
  exact (SendCurrentCommand_sends_one_line Velocity (5 # 2) Set_
           accepting_port eq_refl).
Defined.

(** *** The texts of [GetCurrentStatus] *)

Lemma lookup_status_cases (statusCode : string) :
  match lookup_status statusCode StatusLibrary with
  | Some text =>
      In text state_names /\
      (text = "Ready" <-> In statusCode ["32"; "33"; "34"; "35"])
  | None => ~ In statusCode ["32"; "33"; "34"; "35"]
  end.
Proof.
  unfold StatusLibrary, lookup_status, mkStatus, Code, Type_, status_text.
  repeat match goal with
  | |- context [String.eqb statusCode ?c] =>
      destruct (String.eqb_spec statusCode c) as [->|?];
      [ split; [simpl; tauto|];
        split; [ intros H; first [discriminate H | simpl; tauto]
               | intros H; simpl in H;
                 repeat (destruct H as [H|H]; [try discriminate H|]);
                 first [reflexivity | contradiction] ]
      | ]
  end.
  simpl. intros H.
  repeat (destruct H as [H|H]; [congruence|]). exact H.
Qed.

(** X5: [GetCurrentStatus] reads ["Ready"], the text that ends the wait
    of [moveStage], exactly on a response of at least seven characters
    whose state token is 32, 33, 34 or 35. *)
Theorem decode_status_ready_iff (response : string) :
  decode_status response = Ok "Ready" <->
  (7 <= String.length response)%nat /\
  In (String.substring 7 2 response) ["32"; "33"; "34"; "35"].
Proof.
  unfold decode_status, substr.
  destruct (Nat.ltb_spec (String.length response) 7) as [L|L]; cbn [rbind].
  - split; [intros H; discriminate H | intros [H _]; lia].
  - pose proof (lookup_status_cases (String.substring 7 2 response)) as C.
    destruct (lookup_status (String.substring 7 2 response) StatusLibrary)
      as [text|].
    + destruct C as [_ C]. split.
      * intros H. injection H as ->. split; [exact L | now apply C].
      * intros [_ H]. f_equal. now apply C.
    + split; [intros H; discriminate H | intros [_ H]; contradiction].
Qed.

(** X6: [GetCurrentStatus] either raises [std::out_of_range], on a
    response shorter than seven characters, or returns one of the seven
    state names of the table or the text for an unknown code; the texts
    ["Error"] and ["Unknown"] of its [switch] are never returned. *)
Theorem decode_status_range (response : string) :
  match decode_status response with
  | Throw e => e = out_of_range /\ (String.length response < 7)%nat
  | Ok text =>
      (7 <= String.length response)%nat /\
      (In text state_names \/
       text = "Unknown Status Code: " ++ String.substring 7 2 response) /\
      text <> "Error" /\ text <> "Unknown"
  end.
Proof.
  unfold decode_status, substr.
  destruct (Nat.ltb_spec (String.length response) 7) as [L|L]; cbn [rbind].
  - split; [reflexivity | exact L].
  - pose proof (lookup_status_cases (String.substring 7 2 response)) as C.
    destruct (lookup_status (String.substring 7 2 response) StatusLibrary)
      as [text|].
    + destruct C as [C _]. split; [exact L|].
      split; [left; exact C|].
      simpl in C. split; intros ->;
        repeat (destruct C as [C|C]; [discriminate C|]); exact C.
    + split; [exact L|]. split; [right; reflexivity|].
      split; intros H; discriminate H.
Qed.

(** *** Error texts *)

(** X7: [ConvertToErrorString] returns ["0"] exactly for the characters
    the manual does not list, and the texts of two listed characters
    differ unless the characters are the same. *)
Theorem ConvertToErrorString_documented (c1 c2 : ascii) :
  (ConvertToErrorString c1 = "0" <-> ~ In c1 documented_errors) /\
  (In c1 documented_errors ->
   ConvertToErrorString c1 = ConvertToErrorString c2 -> c1 = c2).
Proof.
  assert (D : forall c, {In c documented_errors} + {~ In c documented_errors})
    by (intros c; apply (in_dec Ascii.ascii_dec)).
  assert (A : forall c, In c documented_errors -> ConvertToErrorString c <> "0").
  { intros c H. simpl in H.
    repeat (destruct H as [H|H]; [subst c; discriminate|]). contradiction. }
  assert (B : forall c, ~ In c documented_errors -> ConvertToErrorString c = "0").
  { intros c H.
    destruct c as [[] [] [] [] [] [] [] []]; try reflexivity;
      exfalso; apply H; simpl; tauto. }
  split.
  - split.
    + intros H HI. exact (A c1 HI H).
    + apply B.
  - intros H1 HE. destruct (D c2) as [H2|H2].
    + simpl in H1, H2.
      repeat (destruct H1 as [H1|H1]; [subst c1|]); try contradiction;
        repeat (destruct H2 as [H2|H2]; [subst c2|]); try contradiction;
        first [reflexivity | discriminate HE].
    + rewrite (B c2 H2) in HE. exfalso. exact (A c1 H1 HE).
Qed.

(** *** The polling read *)

Lemma length_app (a b : string) :
  String.length (a ++ b) = (String.length a + String.length b)%nat.
Proof. induction a as [|c a IH]; simpl; [reflexivity | now rewrite IH]. Qed.

Lemma occurs_app (c : ascii) (a b : string) :
  occurs c (a ++ b) = (occurs c a || occurs c b)%bool.
Proof.
  induction a as [|x a IH]; simpl; [reflexivity|].
  rewrite IH. now rewrite orb_assoc.
Qed.

Lemma substring_all (s : string) : String.substring 0 (String.length s) s = s.
Proof. induction s as [|c s IH]; simpl; [reflexivity | now rewrite IH]. Qed.

Lemma substring_split (s : string) (n : nat) :
  (n <= String.length s)%nat ->
  String.substring 0 n s ++ String.substring n (String.length s - n) s = s.
Proof.
  revert n. induction s as [|c s IH]; intros n H.
  - destruct n; reflexivity.
  - destruct n as [|n].
    + simpl. now rewrite substring_all.
    + simpl in *. rewrite IH by lia. reflexivity.
Qed.

Lemma substring_length (s : string) (n : nat) :
  (n <= String.length s)%nat -> String.length (String.substring 0 n s) = n.
Proof.
  revert n. induction s as [|c s IH]; intros n H.
  - destruct n; simpl in *; [reflexivity | lia].
  - destruct n as [|n]; simpl in *; [reflexivity|]. rewrite IH by lia. reflexivity.
Qed.

Lemma stream_app_l (a b : string) (polls : list Poll) :
  stream (a ++ b) polls = a ++ stream b polls.
Proof.
  revert b. induction polls as [|p polls IH]; intros b; simpl; [reflexivity|].
  rewrite append_assoc. apply IH.
Qed.

Lemma copy_bytes_spec (finalChar : ascii) (buffer r : string) :
  match copy_bytes finalChar buffer r with
  | (false, r') => r' = r ++ buffer /\ occurs finalChar buffer = false
  | (true, r') =>
      exists a b, buffer = a ++ String finalChar b /\
                  occurs finalChar a = false /\
                  r' = r ++ a ++ String finalChar ""
  end.
Proof.
  revert r. induction buffer as [|c buffer IH]; intros r; simpl.
  - rewrite append_nil_r. split; reflexivity.
  - destruct (Ascii.eqb_spec c finalChar) as [->|N].
    + exists "", buffer. repeat split; reflexivity.
    + specialize (IH (r ++ String c "")).
      destruct (copy_bytes finalChar buffer (r ++ String c "")) as [[] r'].
      * destruct IH as (a & b & -> & Ha & ->).
        exists (String c a), b. simpl.
        destruct (Ascii.eqb_spec c finalChar) as [E|_]; [contradiction|].
        rewrite append_assoc. repeat split; exact Ha.
      * destruct IH as [-> Ho]. rewrite append_assoc. split; [reflexivity | exact Ho].
Qed.

Lemma readString_loop_inv (finalChar : ascii) (maxNbBytes : nat) (timeOut_ms : Z)
  (polls : list Poll) :
  forall pending received readStatus receivedString unread,
  occurs finalChar received = false ->
  (String.length received <= maxNbBytes)%nat ->
  readString_loop polls pending received finalChar maxNbBytes timeOut_ms =
    Some (readStatus, receivedString, unread) ->
  (String.length receivedString <= maxNbBytes)%nat /\
  readString_ending finalChar maxNbBytes readStatus receivedString /\
  exists used later dropped,
    polls = (used ++ later)%list /\
    received ++ stream pending used = receivedString ++ dropped ++ unread /\
    (readStatus <= 0 -> dropped = "").
Proof.
  induction polls as [|p rest IH];
    intros pending received readStatus receivedString unread Ho Hl; simpl.
  - destruct (Nat.leb_spec maxNbBytes (String.length received)) as [F|F];
      [|discriminate].
    intros H. injection H as <- <- <-.
    split; [exact Hl|]. split.
    + right. right. repeat split; [exact Ho | lia].
    + exists [], [], "". repeat split.
  - destruct (Nat.leb_spec maxNbBytes (String.length received)) as [F|F].
    { intros H. injection H as <- <- <-.
      split; [exact Hl|]. split.
      + right. right. repeat split; [exact Ho | lia].
      + exists [], (p :: rest), "". repeat split. }
    destruct (Z.ltb_spec timeOut_ms (elapsedTime p)) as [T|T].
    { intros H. injection H as <- <- <-.
      split; [exact Hl|]. split.
      + right. left. repeat split; [exact Ho | exact F].
      + exists [p], rest, "". repeat split. }
    set (inbuf := pending ++ arrived p).
    destruct (Nat.eqb_spec (String.length inbuf) 0) as [Z0|Z0].
    { intros H. destruct (IH _ _ _ _ _ Ho Hl H) as (B & E & used & later & dropped & -> & S1 & S2).
      split; [exact B|]. split; [exact E|].
      exists (p :: used), later, dropped. repeat split; assumption. }
    set (bytesToRead := Nat.min (String.length inbuf)
                          (maxNbBytes - String.length received)).
    assert (Hb : (bytesToRead <= String.length inbuf)%nat) by (unfold bytesToRead; lia).
    pose proof (substring_split inbuf bytesToRead Hb) as Split.
    pose proof (substring_length inbuf bytesToRead Hb) as Len.
    pose proof (copy_bytes_spec finalChar
                  (String.substring 0 bytesToRead inbuf) received) as C.
    destruct (copy_bytes finalChar (String.substring 0 bytesToRead inbuf)
                received) as [[] r].
    + destruct C as (a & b & Eb & Ha & ->).
      intros H. injection H as <- <- <-.
      assert (La : (String.length a + 1 + String.length b = bytesToRead)%nat).
      { rewrite <- Len, Eb, length_app. simpl. lia. }
      split; [rewrite !length_app; simpl; unfold bytesToRead in La; lia|].
      split.
      * left. split; [rewrite !length_app; simpl; lia|].
        split; [reflexivity|].
        exists (received ++ a). split; [now rewrite append_assoc|].
        rewrite occurs_app, Ho, Ha. reflexivity.
      * exists [p], rest, b. split; [reflexivity|].
        split; [|intros H; exfalso; rewrite !length_app in H; simpl in H; lia].
        simpl. fold inbuf. rewrite <- Split at 1. rewrite Eb.
        rewrite !append_assoc. reflexivity.
    + destruct C as [-> Hob].
      intros H.
      assert (Ho' : occurs finalChar
                      (received ++ String.substring 0 bytesToRead inbuf) = false)
        by (rewrite occurs_app, Ho, Hob; reflexivity).
      assert (Hl' : (String.length
                       (received ++ String.substring 0 bytesToRead inbuf)
                     <= maxNbBytes)%nat)
        by (rewrite length_app, Len; unfold bytesToRead; lia).
      destruct (IH _ _ _ _ _ Ho' Hl' H)
        as (B & E & used & later & dropped & -> & S1 & S2).
      split; [exact B|]. split; [exact E|].
      exists (p :: used), later, dropped. split; [reflexivity|].
      split; [|exact S2].
      simpl. fold inbuf. rewrite <- Split at 1.
      rewrite stream_app_l, <- append_assoc. exact S1.
Qed.

(** X8: whenever [readString] returns, it has stored at most
    [maxNbBytes] bytes, so that the null it writes after them stays
    inside a buffer of [maxNbBytes + 1]; and it returns the number of
    bytes stored when the last of them is the first final character met,
    [0] on a timeout with room left and no final character stored, [-3]
    when the buffer is full without one. *)
Theorem readString_result (polls : list Poll) (pending : string)
  (finalChar : ascii) (maxNbBytes : nat) (timeOut_ms : Z)
  (readStatus : Z) (receivedString unread : string) :
  readString polls pending finalChar maxNbBytes timeOut_ms =
    Some (readStatus, receivedString, unread) ->
  (String.length receivedString <= maxNbBytes)%nat /\
  readString_ending finalChar maxNbBytes readStatus receivedString.
Proof.
  intros H.
  destruct (readString_loop_inv finalChar maxNbBytes timeOut_ms polls
              pending "" readStatus receivedString unread eq_refl
              (Nat.le_0_l _) H) as (B & E & _).
  split; assumption.
Qed.

Lemma readString_result_witness :
  (String.length ("1TP5.0000" ++ CRLF) <= 63)%nat /\
  readString_ending LF 63 11 ("1TP5.0000" ++ CRLF).
Proof.
  exact (readString_result prompt_reply "" LF 63 20 11 ("1TP5.0000" ++ CRLF)
           "" eq_refl).
Defined.

(** X9: [readString] hands the bytes of the port over in the order of
    their arrival: what it has stored, then what it has read and dropped,
    then what the port still holds, is what the port held and received
    during the turns the call took.  Bytes are dropped only by a call
    that ends on the final character. *)
Theorem readString_in_order (polls : list Poll) (pending : string)
  (finalChar : ascii) (maxNbBytes : nat) (timeOut_ms : Z)
  (readStatus : Z) (receivedString unread : string) :
  readString polls pending finalChar maxNbBytes timeOut_ms =
    Some (readStatus, receivedString, unread) ->
  exists used later dropped,
    polls = (used ++ later)%list /\
    stream pending used = receivedString ++ dropped ++ unread /\
    (readStatus <= 0 -> dropped = "").
Proof.
  intros H.
  destruct (readString_loop_inv finalChar maxNbBytes timeOut_ms polls
              pending "" readStatus receivedString unread eq_refl
              (Nat.le_0_l _) H) as (_ & _ & S).
  exact S.
Qed.

Lemma readString_in_order_witness :
  exists used later dropped,
    silent_polls = (used ++ later)%list /\
    stream "1T" used = "1T" ++ dropped ++ "" /\
    (0 <= 0 -> dropped = "").
Proof.
  exact (readString_in_order silent_polls "1T" LF 63 20 0 "1T" "" eq_refl).
Defined.

Lemma readString_loop_returns (finalChar : ascii) (maxNbBytes : nat)
  (timeOut_ms : Z) (polls : list Poll) :
  forall pending received base,
  paced base polls ->
  base - 5 <= timeOut_ms ->
  timeOut_ms < base + 5 * (Z.of_nat (List.length polls) - 1) ->
  readString_loop polls pending received finalChar maxNbBytes timeOut_ms
    <> None.
Proof.
  induction polls as [|p rest IH]; intros pending received base HP HB HT;
    cbn [List.length] in HT; simpl readString_loop; simpl paced in HP.
  - exfalso. lia.
  - destruct (Nat.leb maxNbBytes (String.length received)); [discriminate|].
    destruct HP as [HP1 HP2].
    destruct (Z.ltb_spec timeOut_ms (elapsedTime p)) as [T|T]; [discriminate|].
    destruct (Nat.eqb (String.length (pending ++ arrived p)) 0).
    + apply (IH _ _ (base + 5)); [exact HP2 | lia | lia].
    + destruct (copy_bytes finalChar _ received) as [[] r]; [discriminate|].
      apply (IH _ _ (base + 5)); [exact HP2 | lia | lia].
Qed.

(** X10: [readString] returns.  With clock readings that advance by the
    5 ms it sleeps each turn, the call is over once a reading exceeds
    [timeOut_ms], whatever arrives and however slowly. *)
Theorem readString_returns (polls : list Poll) (pending : string)
  (finalChar : ascii) (maxNbBytes : nat) (timeOut_ms : Z) :
  0 <= timeOut_ms ->
  paced 0 polls ->
  timeOut_ms < 5 * (Z.of_nat (List.length polls) - 1) ->
  readString polls pending finalChar maxNbBytes timeOut_ms <> None.
Proof.
  intros H0 HP HT. unfold readString.
  apply (readString_loop_returns _ _ _ _ _ _ 0); [exact HP | lia | lia].
Qed.

Lemma readString_returns_witness :
  readString silent_polls "" LF 63 20 <> None.
Proof.
  apply (readString_returns silent_polls "" LF 63 20).
  - lia.
  - simpl. lia.
  - simpl. lia.
Defined.

Lemma substring_end (s : string) : String.substring (String.length s) 0 s = "".
Proof. induction s as [|c s IH]; simpl; [reflexivity | exact IH]. Qed.

Lemma copy_bytes_found (finalChar : ascii) (line extra r : string) :
  occurs finalChar line = false ->
  copy_bytes finalChar (line ++ String finalChar extra) r =
  (true, r ++ line ++ String finalChar "").
Proof.
  revert r. induction line as [|c line IH]; intros r H; simpl in *.
  - rewrite Ascii.eqb_refl. reflexivity.
  - apply orb_false_elim in H. destruct H as [H1 H2]. rewrite H1.
    rewrite (IH _ H2), append_assoc. reflexivity.
Qed.

(** X11: bytes that come out of the port in the same read as the final
    character, after it, are lost: [readString] returns the line up to
    the final character, the port no longer holds the bytes that
    followed, and no later call sees them. *)
Theorem readString_drops_rest_of_read (p : Poll) (rest : list Poll)
  (pending line extra : string) (finalChar : ascii) (maxNbBytes : nat)
  (timeOut_ms : Z) :
  elapsedTime p <= timeOut_ms ->
  pending ++ arrived p = line ++ String finalChar extra ->
  occurs finalChar line = false ->
  (String.length (line ++ String finalChar extra) <= maxNbBytes)%nat ->
  readString (p :: rest) pending finalChar maxNbBytes timeOut_ms =
  Some (Z.of_nat (S (String.length line)), line ++ String finalChar "", "").
Proof.
  intros HT HE HO HL. unfold readString. simpl readString_loop.
  rewrite HE.
  assert (L : String.length (line ++ String finalChar extra)
              = S (String.length line + String.length extra))
    by (rewrite length_app; simpl; lia).
  destruct (Nat.leb_spec maxNbBytes 0) as [F|_]; [lia|].
  destruct (Z.ltb_spec timeOut_ms (elapsedTime p)) as [T|_]; [lia|].
  rewrite L at 1. cbn [Nat.eqb].
  rewrite Nat.sub_0_r.
  replace (Nat.min (String.length (line ++ String finalChar extra)) maxNbBytes)
    with (String.length (line ++ String finalChar extra)) by lia.
  rewrite substring_all, Nat.sub_diag, substring_end.
  rewrite (copy_bytes_found _ _ _ _ HO). cbn [append].
  rewrite length_app. simpl String.length.
  replace (String.length line + 1)%nat with (S (String.length line)) by lia.
  reflexivity.
Qed.

(** Two replies that reach the port together: the second is gone. *)
Lemma readString_drops_rest_of_read_witness :
  readString
    [ {| elapsedTime := 0;
         arrived := ("1TP5.0000" ++ CRLF) ++ ("1TP6.0000" ++ CRLF) |} ]
    "" LF 63 20 =
  Some (11, "1TP5.0000" ++ CRLF, "").
Proof.
  apply (readString_drops_rest_of_read
           {| elapsedTime := 0;
              arrived := ("1TP5.0000" ++ CRLF) ++ ("1TP6.0000" ++ CRLF) |}
           [] "" ("1TP5.0000" ++ String CR "") ("1TP6.0000" ++ CRLF) LF 63 20).
  - simpl. lia.
  - reflexivity.
  - reflexivity.
  - simpl. lia.
Defined.

End DriverFacts.

(** ** Facts about the order of the images *)

Module FileOrderFacts.
Import Settings SettingsSpec FileOrder FileOrderSpec SMC100CFacts SettingsFacts
  DriverFacts.

Lemma strip_prefix_app_some (p s r t : string) :
  strip_prefix p s = Some r -> strip_prefix p (s ++ t) = Some (r ++ t).
Proof.
  revert s. induction p as [|a p IH]; intros s H; simpl in *.
  - injection H as ->. reflexivity.
  - destruct s as [|b s]; [discriminate|]. simpl.
    destruct (Ascii.eqb a b); [now apply IH | discriminate].
Qed.

Lemma strip_prefix_app_none (p s t : string) (x : ascii) :
  strip_prefix p s = None -> DriverSpec.occurs x p = false ->
  strip_prefix p (s ++ String x t) = None.
Proof.
  revert s. induction p as [|a p IH]; intros s H O; simpl in *.
  - discriminate.
  - apply orb_false_elim in O. destruct O as [O1 O2].
    destruct s as [|b s]; simpl.
    + now rewrite O1.
    + destruct (Ascii.eqb a b); [now apply IH | reflexivity].
Qed.

Lemma strip_prefix_cons (a b : ascii) (p s : string) :
  strip_prefix (String a p) (String b s) =
  if Ascii.eqb a b then strip_prefix p s else None.
Proof. reflexivity. Qed.

Lemma read_digits_app (r t : string) (x : ascii) :
  digit_of x = None ->
  forall acc k,
  read_digits (r ++ String x t) acc k =
  (let '(v, n, after) := read_digits r acc k in (v, n, after ++ String x t)).
Proof.
  intros X. induction r as [|c r IH]; intros acc k; simpl.
  - now rewrite X.
  - destruct (digit_of c); [apply IH | reflexivity].
Qed.

Lemma match_at_app_none (s t : string) :
  s <> "" -> match_at s = None -> match_at (s ++ String "S" t) = None.
Proof.
  intros N. unfold match_at.
  destruct s as [|a s1]; [contradiction|].
  change (String a s1 ++ String "S" t) with (String a (s1 ++ String "S" t)).
  change "SEC_" with (String "S" "EC_"). rewrite !strip_prefix_cons.
  destruct (Ascii.eqb "S" a); [|reflexivity].
  destruct (strip_prefix "EC_" s1) as [r|] eqn:E.
  - rewrite (strip_prefix_app_some _ _ _ _ E).
    rewrite (read_digits_app r t "S" eq_refl).
    destruct (read_digits r 0 0) as [[v n] after].
    destruct (Nat.eqb n 0); [reflexivity|].
    destruct (strip_prefix ".PNG" after) eqn:E2; [discriminate|].
    intros _. rewrite (strip_prefix_app_none _ _ t "S" E2 eq_refl). reflexivity.
  - intros _. rewrite (strip_prefix_app_none _ _ t "S" E eq_refl). reflexivity.
Qed.

Lemma regex_search_app (dir t : string) :
  regex_search dir = None ->
  regex_search (dir ++ String "S" t) = regex_search (String "S" t).
Proof.
  induction dir as [|c dir IH]; intros H; [reflexivity|].
  cbn [regex_search] in H.
  destruct (match_at (String c dir)) eqn:M; [discriminate|].
  change (String c dir ++ String "S" t) with (String c (dir ++ String "S" t)).
  cbn [regex_search].
  change (String c (dir ++ String "S" t)) with (String c dir ++ String "S" t).
  rewrite (match_at_app_none (String c dir) t); [|discriminate|exact M].
  now apply IH.
Qed.

Lemma substring_prefix (a b : string) :
  String.substring 0 (String.length a) (a ++ b) = a.
Proof.
  induction a as [|c a IH]; simpl; [apply substring_0_0 | now rewrite IH].
Qed.

Lemma is_number_all_digits (ds : string) :
  is_number ds = true -> all_digits ds = true /\ String.length ds <> 0%nat.
Proof. destruct ds; simpl; [discriminate | intros H; split; [exact H | discriminate]]. Qed.

Lemma match_at_slice (ds : string) :
  is_number ds = true -> match_at ("SEC_" ++ ds ++ ".PNG") = Some ds.
Proof.
  intros H. destruct (is_number_all_digits ds H) as [D L].
  unfold match_at.
  change (strip_prefix "SEC_" ("SEC_" ++ ds ++ ".PNG")) with (Some (ds ++ ".PNG")).
  cbv beta iota.
  rewrite (read_digits_number ds 0 0%nat ".PNG" D eq_refl).
  cbn [Nat.add].
  destruct (Nat.eqb_spec (String.length ds) 0) as [E|_]; [contradiction|].
  cbn [strip_prefix Ascii.eqb Bool.eqb]. now rewrite substring_prefix.
Qed.

Lemma regex_search_slice (dir ds : string) :
  regex_search dir = None -> is_number ds = true ->
  regex_search (slice_name dir ds) = Some ds.
Proof.
  intros HD HN. unfold slice_name.
  change ("SEC_" ++ ds ++ ".PNG") with (String "S" ("EC_" ++ ds ++ ".PNG")).
  rewrite (regex_search_app dir _ HD).
  change (String "S" ("EC_" ++ ds ++ ".PNG")) with ("SEC_" ++ ds ++ ".PNG").
  pose proof (match_at_slice ds HN) as M.
  destruct ("SEC_" ++ ds ++ ".PNG") eqn:E; cbn [regex_search]; rewrite M;
    reflexivity.
Qed.

Lemma stoi_number (ds : string) :
  is_number ds = true ->
  stoi ds = if INT_MAX <? digits_value 0 ds then Throw out_of_range
            else Ok (digits_value 0 ds).
Proof.
  intros H. destruct (is_number_all_digits ds H) as [D _].
  unfold stoi.
  pose proof (read_digits_number ds 0 0%nat "" D I) as R.
  rewrite append_nil_r in R. rewrite R. reflexivity.
Qed.

(** X13: two slice images, [SEC_<number>.PNG] in directories whose names
    hold no such pattern, are ordered by [customSort] as their numbers
    are, not as their texts; when one of the numbers exceeds the largest
    [int] the comparison raises [std::out_of_range]. *)
Theorem customSort_slices (dirA dirB da db : string) :
  regex_search dirA = None -> regex_search dirB = None ->
  is_number da = true -> is_number db = true ->
  customSort (slice_name dirA da) (slice_name dirB db) =
  if ((INT_MAX <? digits_value 0 da) || (INT_MAX <? digits_value 0 db))%bool
  then Throw out_of_range
  else Ok (digits_value 0 da <? digits_value 0 db).
Proof.
  intros HA HB NA NB. unfold customSort.
  rewrite (regex_search_slice _ _ HA NA), (regex_search_slice _ _ HB NB).
  rewrite (stoi_number _ NA), (stoi_number _ NB).
  destruct (INT_MAX <? digits_value 0 da); [reflexivity|].
  destruct (INT_MAX <? digits_value 0 db); reflexivity.
Qed.

(** Slice 9 comes before slice 10, which the order of the texts would
    put first. *)
Lemma customSort_slices_witness :
  customSort "slices/SEC_9.PNG" "slices/SEC_10.PNG" = Ok true /\
  String.ltb "slices/SEC_9.PNG" "slices/SEC_10.PNG" = false.
Proof.
  split; [|reflexivity].
  exact (customSort_slices "slices/" "slices/" "9" "10"
           eq_refl eq_refl eq_refl eq_refl).
Defined.

(** X14: on names that all carry a slice number within [int],
    [customSort] is a strict weak ordering, as [std::sort] requires: it
    is irreflexive and transitive, and so is being unordered both
    ways. *)
Theorem customSort_strict_weak_on_slices (a b c : string) (ka kb kc : Z) :
  sort_key a = Some ka -> sort_key b = Some kb -> sort_key c = Some kc ->
  customSort a a = Ok false /\
  (customSort a b = Ok true -> customSort b c = Ok true ->
   customSort a c = Ok true) /\
  (customSort a b = Ok false -> customSort b a = Ok false ->
   customSort b c = Ok false -> customSort c b = Ok false ->
   customSort a c = Ok false /\ customSort c a = Ok false).
Proof.
  unfold sort_key, customSort.
  destruct (regex_search a) as [da|]; [|discriminate].
  destruct (regex_search b) as [db|]; [|discriminate].
  destruct (regex_search c) as [dc|]; [|discriminate].
  destruct (stoi da) as [x|]; [|discriminate].
  destruct (stoi db) as [y|]; [|discriminate].
  destruct (stoi dc) as [z|]; [|discriminate].
  intros _ _ _. cbn [rbind].
  split; [now rewrite Z.ltb_irrefl|].
  split.
  - intros H1 H2. injection H1 as H1. injection H2 as H2. f_equal.
    apply Z.ltb_lt in H1, H2. apply Z.ltb_lt. lia.
  - intros H1 H2 H3 H4.
    injection H1 as H1. injection H2 as H2. injection H3 as H3. injection H4 as H4.
    apply Z.ltb_ge in H1, H2, H3, H4.
    split; f_equal; apply Z.ltb_ge; lia.
Qed.

Lemma customSort_strict_weak_on_slices_witness :
  customSort "SEC_1.PNG" "SEC_1.PNG" = Ok false /\
  (customSort "SEC_1.PNG" "SEC_2.PNG" = Ok true ->
   customSort "SEC_2.PNG" "SEC_10.PNG" = Ok true ->
   customSort "SEC_1.PNG" "SEC_10.PNG" = Ok true) /\
  (customSort "SEC_1.PNG" "SEC_2.PNG" = Ok false ->
   customSort "SEC_2.PNG" "SEC_1.PNG" = Ok false ->
   customSort "SEC_2.PNG" "SEC_10.PNG" = Ok false ->
   customSort "SEC_10.PNG" "SEC_2.PNG" = Ok false ->
   customSort "SEC_1.PNG" "SEC_10.PNG" = Ok false /\
   customSort "SEC_10.PNG" "SEC_1.PNG" = Ok false).
Proof.
  exact (customSort_strict_weak_on_slices "SEC_1.PNG" "SEC_2.PNG" "SEC_10.PNG"
           1 2 10 eq_refl eq_refl eq_refl).
Defined.

(** X15: over all names [customSort] is not a strict weak ordering.  A
    name without the pattern is compared as a text with the names that
    have it, and the two orders disagree: there are three names that
    each come before the next in a circle. *)
Theorem customSort_cycle :
  exists a b c,
    customSort a b = Ok true /\ customSort b c = Ok true /\
    customSort c a = Ok true.
Proof.
  exists "SEC_10.PNG", "SEC_5.png", "SEC_9.PNG".
  repeat split; vm_compute; reflexivity.
Qed.

End FileOrderFacts.

(** ** More facts about the settings file *)

Module SettingsFileFacts.
Import Settings SettingsSpec SettingsFileSpec DriverSpec SMC100CFacts
  SettingsFacts.

Lemma lt_lex (a b : LayerSettings) : lt a b = true <-> lex_lt a b.
Proof.
  unfold lt, lex_lt.
  destruct (Z.ltb_spec (intensity a) (intensity b)); [split; [left; lia | reflexivity]|].
  destruct (Z.ltb_spec (intensity b) (intensity a)); [split; [discriminate | lia]|].
  destruct (Z.ltb_spec (exposureTime a) (exposureTime b));
    [split; [right; split; lia | reflexivity]|].
  destruct (Z.ltb_spec (exposureTime b) (exposureTime a));
    [split; [discriminate | lia]|].
  destruct (Z.ltb_spec (darkTime a) (darkTime b));
    [split; [intros _; right; split; [lia | right; split; lia] | reflexivity]|].
  split; [discriminate | lia].
Qed.

Lemma lt_false_lex (a b : LayerSettings) : lt a b = false <-> ~ lex_lt a b.
Proof.
  rewrite <- lt_lex. destruct (lt a b); split; congruence.
Qed.

(** X16: [operator<] of [LayerSettings] is a strict total order, as the
    key of a [std::map] has to be: nothing is below itself, the order is
    transitive, and two settings neither of which is below the other
    have the same three fields, which is when [operator==] holds. *)
Theorem lt_strict_total_order (a b c : LayerSettings) :
  lt a a = false /\
  (lt a b = true -> lt b c = true -> lt a c = true) /\
  (lt a b = false -> lt b a = false -> a = b) /\
  (eqb a b = true <-> a = b).
Proof.
  split; [apply lt_false_lex; unfold lex_lt; lia|].
  split; [rewrite !lt_lex; unfold lex_lt; lia|].
  split.
  - rewrite !lt_false_lex. unfold lex_lt. intros H1 H2.
    destruct a as [i1 e1 d1], b as [i2 e2 d2]; cbn in *.
    assert (i1 = i2) by lia. assert (e1 = e2) by lia. assert (d1 = d2) by lia.
    congruence.
  - unfold eqb. split.
    + intros H. apply andb_true_iff in H. destruct H as [H H3].
      apply andb_true_iff in H. destruct H as [H1 H2].
      apply Z.eqb_eq in H1, H2, H3.
      destruct a, b; cbn in *; congruence.
    + intros ->. now rewrite !Z.eqb_refl.
Qed.

(** *** The lines of the file *)

Lemma getlines_acc (content line : string) :
  getlines line content =
  match getlines "" content with
  | [] => match line with EmptyString => [] | _ => [line] end
  | first :: rest => (line ++ first) :: rest
  end.
Proof.
  revert line. induction content as [|c r IH]; intros line.
  - reflexivity.
  - cbn [getlines]. destruct (Ascii.eqb c LF).
    + now rewrite append_nil_r.
    + rewrite (IH (line ++ String c "")), (IH ("" ++ String c "")).
      destruct (getlines "" r) as [|f rest].
      * destruct line; reflexivity.
      * now rewrite append_assoc.
Qed.

Lemma getlines_nil (content : string) :
  getlines "" content = [] -> content = "".
Proof.
  destruct content as [|c r]; [reflexivity|]. cbn [getlines].
  destruct (Ascii.eqb c LF); [discriminate|].
  rewrite getlines_acc. destruct (getlines "" r); discriminate.
Qed.

(** X17: the lines [std::getline] cuts a file into hold no line feed,
    and put together again, each with its line feed, they are the
    content of the file, with the line feed added that a last line may
    lack: no character of the file is lost or moved, and a last row
    without line feed is read as a row. *)
Theorem getlines_unlines (content : string) :
  Forall (fun l => occurs LF l = false) (getlines "" content) /\
  unlines (getlines "" content) =
  match content with
  | EmptyString => ""
  | _ => if ends_with LF content then content else content ++ String LF ""
  end.
Proof.
  induction content as [|c r [IHF IHU]]; [split; [constructor | reflexivity]|].
  cbn [getlines]. destruct (Ascii.eqb_spec c LF) as [->|N].
  - split; [constructor; [reflexivity | exact IHF]|].
    cbn [unlines append]. rewrite IHU.
    destruct r as [|c2 r2]; [reflexivity|].
    change (ends_with LF (String LF (String c2 r2)))
      with (ends_with LF (String c2 r2)).
    destruct (ends_with LF (String c2 r2)); reflexivity.
  - assert (E : Ascii.eqb c LF = false) by (apply Ascii.eqb_neq; exact N).
    rewrite getlines_acc.
    destruct (getlines "" r) as [|f rest] eqn:G.
    + apply getlines_nil in G. subst r.
      cbn [append unlines ends_with occurs]. rewrite E.
      split; [|reflexivity].
      constructor; [cbn [occurs]; rewrite E; reflexivity | constructor].
    + split.
      * inversion IHF as [|? ? Hf Hrest]; subst. constructor; [|exact Hrest].
        cbn [append occurs]. rewrite E. exact Hf.
      * cbn [unlines] in *. cbn [append]. rewrite IHU.
        destruct r as [|c2 r2]; [discriminate G|].
        change (ends_with LF (String c (String c2 r2)))
          with (ends_with LF (String c2 r2)).
        destruct (ends_with LF (String c2 r2)); reflexivity.
Qed.

Lemma getlines_first_line (header body line : string) :
  occurs LF header = false ->
  getlines line (header ++ String LF body) =
  (line ++ header) :: getlines "" body.
Proof.
  revert line. induction header as [|c h IH]; intros line H.
  - cbn [append getlines]. rewrite Ascii.eqb_refl. now rewrite append_nil_r.
  - cbn [occurs] in H. apply orb_false_elim in H. destruct H as [H1 H2].
    cbn [append getlines]. rewrite H1.
    rewrite (IH _ H2), append_assoc. reflexivity.
Qed.

(** X18: [readSettingsOrdered] drops the first line of the file whatever
    it holds: two files that differ in their first line only give the
    same table.  A file that starts with a data row loses that row. *)
Theorem readSettingsOrdered_ignores_first_line (uninit : nat -> Uninit)
  (header1 header2 body : string) :
  occurs LF header1 = false -> occurs LF header2 = false ->
  readSettingsOrdered uninit (Some (header1 ++ String LF body)) =
  readSettingsOrdered uninit (Some (header2 ++ String LF body)).
Proof.
  intros H1 H2. unfold readSettingsOrdered, data_rows, file_lines.
  rewrite (getlines_first_line _ _ _ H1), (getlines_first_line _ _ _ H2).
  reflexivity.
Qed.

Lemma readSettingsOrdered_ignores_first_line_witness :
  readSettingsOrdered uninit_sevens
    (Some ("layer,intensity,exposure,dark" ++ String LF "2,20,8,150")) =
  readSettingsOrdered uninit_sevens
    (Some ("1,10,5,100" ++ String LF "2,20,8,150")).
Proof.
  exact (readSettingsOrdered_ignores_first_line uninit_sevens
           "layer,intensity,exposure,dark" "1,10,5,100" "2,20,8,150"
           eq_refl eq_refl).
Defined.

Lemma extract_int_overflow (ds rest : string) (old : Z) :
  is_number ds = true -> starts_without_digit rest ->
  INT_MAX < digits_value 0 ds ->
  extract_int {| buf := ds ++ rest; good := true |} old =
  (INT_MAX, {| buf := rest; good := false |}).
Proof.
  intros N R Hmax. destruct ds as [|c ds]; [discriminate|].
  cbn [is_number] in N. unfold extract_int. cbn [good negb buf append skipws].
  pose proof N as N'. cbn [all_digits] in N'.
  destruct (digit_of c) as [d|] eqn:Dc; [|discriminate].
  destruct (digit_is_plain c d Dc) as (Sp & Mi & Pl).
  rewrite Sp, Mi, Pl. cbn [orb].
  change (String c (ds ++ rest)) with (String c ds ++ rest).
  rewrite (read_digits_number (String c ds) 0 0 rest N R).
  cbn [Nat.add String.length Nat.eqb].
  destruct (Z.ltb_spec INT_MAX (digits_value 0 (String c ds))); [reflexivity | lia].
Qed.

(** X19: a row whose intensity is a number above the largest [int] is
    not rejected: the extraction stores the largest [int] as intensity
    and stops there, so that exposure time and dark time are what the
    locals of the iteration held before, whatever the row says. *)
Theorem parse_row_intensity_overflow (u : Uninit)
  (layer intensity rest : string) :
  is_number layer = true -> 0 <= digits_value 0 layer <= INT_MAX ->
  is_number intensity = true -> INT_MAX < digits_value 0 intensity ->
  starts_without_digit rest ->
  parse_row u (layer ++ "," ++ intensity ++ rest) =
  ({| Settings.intensity := INT_MAX;
      Settings.exposureTime := u_exposureTime u;
      Settings.darkTime := u_darkTime u |},
   {| buf := rest; good := false |}).
Proof.
  intros N1 [L1 H1] N2 H2 R.
  unfold parse_row.
  rewrite (extract_int_number layer) by (assumption || reflexivity).
  rewrite extract_comma.
  rewrite (extract_int_overflow intensity rest _ N2 R H2).
  reflexivity.
Qed.

Lemma parse_row_intensity_overflow_witness :
  parse_row (uninit_sevens 0) ("1" ++ "," ++ "4000000000" ++ ",5,100") =
  ({| Settings.intensity := INT_MAX;
      Settings.exposureTime := u_exposureTime (uninit_sevens 0);
      Settings.darkTime := u_darkTime (uninit_sevens 0) |},
   {| buf := ",5,100"; good := false |}).
Proof.
  apply (parse_row_intensity_overflow (uninit_sevens 0) "1" "4000000000"
           ",5,100").
  - reflexivity.
  - vm_compute. split; discriminate.
  - reflexivity.
  - vm_compute. reflexivity.
  - reflexivity.
Defined.

Lemma parse_row_well_formed_witness :
  fst (parse_row (uninit_sevens 0) (row_text "3" "20" "8" "150")) =
  {| Settings.intensity := digits_value 0 "20";
     Settings.exposureTime := digits_value 0 "8";
     Settings.darkTime := digits_value 0 "150" |}.
Proof.
  apply (parse_row_well_formed (uninit_sevens 0) "3" "20" "8" "150");
    try reflexivity; vm_compute; split; discriminate.
Defined.

End SettingsFileFacts.

(** ** Facts about the frames of a layer *)

Module FrameFacts.
Import Settings PrintLoop PrintLoopSpec FrameSpec PrintLoopFacts.

(** *** The image on the screen *)

Lemma body_index imagePaths mode darkDuration s e s' evs flow :
  (currentImageIndex s < List.length imagePaths)%nat ->
  (nextImageLoaded s = true ->
   (S (currentImageIndex s) < List.length imagePaths)%nat) ->
  body imagePaths mode darkDuration s e = (s', evs, flow) ->
  (currentImageIndex s' < List.length imagePaths)%nat /\
  (nextImageLoaded s' = true ->
   (S (currentImageIndex s') < List.length imagePaths)%nat).
Proof.
  intros J1 J2. unfold body, light_branch, dark_branch.
  destruct (displayImage s).
  - destruct (abortFlag e); [intros H; injection H as <- _ _; auto|].
    destruct (maxCount_of mode s <=? imageDisplayCount s + 1);
      intros H; injection H as <- _ _; cbn; auto.
  - intros H. injection H as <- _ _.
    destruct s as [wo cti cii t0 t1 nil inl ais st isr dts pst idc fl ilp di cl iip lc].
    cbn -[Nat.ltb Z.ltb] in *.
    destruct (Nat.ltb_spec (cii + 1) (List.length imagePaths));
      destruct isr, nil, inl, (stageReady e),
        (darkDuration <? clock e - dts);
      cbn -[Nat.ltb Z.ltb] in *;
      split; intros; try discriminate; try lia;
      try (specialize (J2 eq_refl); lia).
Qed.



(** *** The frames of a light phase *)

Lemma draws_app (a b : list Event) : draws (a ++ b) = (draws a + draws b)%nat.
Proof.
  induction a as [|x a IH]; [reflexivity|].
  destruct x; cbn [app draws]; rewrite IH; reflexivity.
Qed.

(** One light iteration without abort: a single frame; the layer ends
    when the frame count reaches the threshold. *)
Lemma light_step imagePaths mode darkDuration s e :
  displayImage s = true -> abortFlag e = false ->
  let maxCount := maxCount_of mode s in
  let '(s', evs, flow) := body imagePaths mode darkDuration s e in
  draws evs = 1%nat /\ flow = Continue /\
  currentImageIndex s' = currentImageIndex s /\
  (if maxCount <=? imageDisplayCount s + 1
   then displayImage s' = false /\ currentLayer s' = currentLayer s + 1
   else displayImage s' = true /\ currentLayer s' = currentLayer s /\
        imageDisplayCount s' = imageDisplayCount s + 1 /\
        maxCount_of mode s' = maxCount).
Proof.
  intros D A. unfold body, light_branch. rewrite D, A.
  destruct (maxCount_of mode s <=? imageDisplayCount s + 1) eqn:T;
    cbn [currentImageIndex displayImage currentLayer imageDisplayCount].
  - split; [|auto].
    cbn [draws]. f_equal. rewrite draws_app.
    destruct (negb (filenameLogged s) && inLightPhase s)%bool;
      unfold position_log;
      destruct (Nat.leb 9 _); reflexivity.
  - split; [|split; [reflexivity|split; [reflexivity|]]].
    + cbn [draws]. f_equal.
      destruct (negb (filenameLogged s) && inLightPhase s)%bool; reflexivity.
    + split; [reflexivity|]. split; [reflexivity|]. split; [reflexivity|].
      destruct mode; reflexivity.
Qed.

Lemma light_phase_from imagePaths mode darkDuration (n : nat) :
  forall env s,
  displayImage s = true -> 0 <= imageDisplayCount s ->
  Forall (fun e => abortFlag e = false) env ->
  List.length env = n ->
  n = Z.to_nat (Z.max 1 (maxCount_of mode s - imageDisplayCount s)) ->
  let '(s', evs) := run_body imagePaths mode darkDuration env s in
  draws evs = n /\ displayImage s' = false /\
  currentLayer s' = currentLayer s + 1 /\
  currentImageIndex s' = currentImageIndex s.
Proof.
  induction n as [|n IH]; intros env s D C A L N; [lia|].
  destruct env as [|e rest]; [discriminate L|].
  injection L as L. inversion A as [|? ? Ae Arest]; subst.
  cbn [run_body].
  pose proof (light_step imagePaths mode darkDuration s e D Ae) as S1.
  cbv zeta in S1.
  destruct (body imagePaths mode darkDuration s e) as [[s1 ev1] flow].
  destruct S1 as (Dr & _ & Ix & S1).
  destruct (Z.leb_spec (maxCount_of mode s) (imageDisplayCount s + 1)) as [T|T].
  - destruct S1 as [D1 L1].
    assert (List.length rest = 0%nat) by lia.
    destruct rest; [|discriminate]. cbn [run_body].
    rewrite app_nil_r. repeat split; assumption.
  - destruct S1 as (D1 & L1 & C1 & M1).
    assert (N1 : List.length rest =
                 Z.to_nat (Z.max 1 (maxCount_of mode s1 - imageDisplayCount s1)))
      by (rewrite M1, C1; lia).
    specialize (IH rest s1 D1 ltac:(lia) Arest eq_refl N1).
    destruct (run_body imagePaths mode darkDuration rest s1) as [s2 ev2].
    destruct IH as (Dr2 & D2 & L2 & Ix2).
    rewrite draws_app, Dr, Dr2.
    repeat split; [exact D2 | lia | congruence].
Qed.

(** X22: a light phase that starts with the frame count at 0 and meets
    no abort shows its image for exactly [max 1 maxCount] frames, where
    [maxCount] is the exposure threshold of the moment; the last of them
    ends the layer, with the same image still current. *)
Theorem light_phase_frames imagePaths mode darkDuration env s :
  displayImage s = true -> imageDisplayCount s = 0 ->
  Forall (fun e => abortFlag e = false) env ->
  List.length env = Z.to_nat (Z.max 1 (maxCount_of mode s)) ->
  draws (snd (run_body imagePaths mode darkDuration env s)) = List.length env /\
  displayImage (fst (run_body imagePaths mode darkDuration env s)) = false /\
  currentLayer (fst (run_body imagePaths mode darkDuration env s))
    = currentLayer s + 1 /\
  currentImageIndex (fst (run_body imagePaths mode darkDuration env s))
    = currentImageIndex s.
Proof.
  intros D C A L.
  pose proof (light_phase_from imagePaths mode darkDuration (List.length env)
                env s D ltac:(lia) A eq_refl
                ltac:(rewrite L, C; f_equal; lia)) as H.
  destruct (run_body imagePaths mode darkDuration env s) as [s' evs].
  exact H.
Qed.

(** Three frames for a layer in the initial phase of a static run. *)
Lemma light_phase_frames_witness :
  let r := run_body five_images (Static 2 3 1) 0 (ticks_from 1 3)
             (initial_state true 0) in
  draws (snd r) = 3%nat /\ displayImage (fst r) = false /\
  currentLayer (fst r) = 1 /\ currentImageIndex (fst r) = 0%nat.
Proof.
  apply (light_phase_frames five_images (Static 2 3 1) 0 (ticks_from 1 3)
           (initial_state true 0)).
  - reflexivity.
  - reflexivity.
  - repeat constructor.
  - reflexivity.
Defined.

(** *** The exposure threshold of the static run *)

Lemma run_body_states imagePaths mode darkDuration env :
  forall s,
  run_states imagePaths mode darkDuration s ->
  run_states imagePaths mode darkDuration
    (fst (run_body imagePaths mode darkDuration env s)).
Proof.
  induction env as [|e rest IH]; intros s R; [exact R|].
  cbn [run_body].
  destruct (body imagePaths mode darkDuration s e) as [[s1 ev1] flow] eqn:B.
  specialize (IH s1 (run_step _ _ _ _ _ _ _ _ R B)).
  destruct (run_body imagePaths mode darkDuration rest s1) as [s2 ev2].
  exact IH.
Qed.

Lemma body_initial_phase imagePaths m i l darkDuration s e s' evs flow :
  0 <= currentLayer s ->
  inInitialPhase s = ((currentLayer s =? 0) || (currentLayer s <? l))%bool ->
  body imagePaths (Static m i l) darkDuration s e = (s', evs, flow) ->
  0 <= currentLayer s' /\
  inInitialPhase s' = ((currentLayer s' =? 0) || (currentLayer s' <? l))%bool.
Proof.
  intros K1 K2. unfold body, light_branch, dark_branch.
  destruct (displayImage s).
  - destruct (abortFlag e); [intros H; injection H as <- _ _; auto|].
    destruct (maxCount_of (Static m i l) s <=? imageDisplayCount s + 1);
      intros H; injection H as <- _ _;
      cbn [currentLayer inInitialPhase]; [|auto].
    split; [lia|]. rewrite K2.
    destruct (Z.leb_spec l (currentLayer s + 1));
      destruct (Z.eqb_spec (currentLayer s + 1) 0);
      destruct (Z.ltb_spec (currentLayer s + 1) l);
      destruct (Z.eqb_spec (currentLayer s) 0);
      destruct (Z.ltb_spec (currentLayer s) l);
      cbn; try reflexivity; lia.
  - intros H. injection H as <- _ _. cbn [currentLayer inInitialPhase]. auto.
Qed.

(** X23: in [RunFull] the exposure threshold of a layer is the initial
    count for the layer numbered 0 and for the layers numbered below
    [initialLayers], and [maxImageDisplayCount] for the others.  The
    first layer takes the initial count even when [initialLayers] is 0
    or negative. *)
Theorem static_exposure_threshold imagePaths m i l darkDuration s :
  run_states imagePaths (Static m i l) darkDuration s ->
  0 <= currentLayer s /\
  maxCount_of (Static m i l) s = static_threshold m i l (currentLayer s).
Proof.
  intros R.
  assert (K : 0 <= currentLayer s /\
              inInitialPhase s =
              ((currentLayer s =? 0) || (currentLayer s <? l))%bool).
  { induction R as [open startClock | s _ IH | s s' e evs flow _ IH H].
    - cbn. split; [lia | reflexivity].
    - exact IH.
    - destruct IH as [K1 K2]. exact (body_initial_phase _ _ _ _ _ _ _ _ _ _ K1 K2 H). }
  destruct K as [K1 K2]. split; [exact K1|].
  unfold maxCount_of, static_threshold. rewrite K2. reflexivity.
Qed.

(** With [initialLayers] at 0, the first layer is exposed for the three
    frames of the initial count and the second for the two of
    [maxImageDisplayCount]. *)
Lemma static_exposure_threshold_witness :
  let first := initial_state true 0 in
  let second :=
    fst (run_body five_images (Static 2 3 0) 0 (ticks_from 1 4) first) in
  (0 <= currentLayer first /\ maxCount_of (Static 2 3 0) first = 3) /\
  (0 <= currentLayer second /\ maxCount_of (Static 2 3 0) second = 2).
Proof.
  split.
  - exact (static_exposure_threshold five_images 2 3 0 0 _
             (run_init five_images (Static 2 3 0) 0 true 0)).
  - exact (static_exposure_threshold five_images 2 3 0 0 _
             (run_body_states five_images (Static 2 3 0) 0 (ticks_from 1 4) _
                (run_init five_images (Static 2 3 0) 0 true 0))).
Defined.

End FrameFacts.

(** ** Facts about the velocity helper, the warm-up and the preview *)

Module HelpersFacts.
Import SMC100C Commands CommandsSpec Velocity LightEngine Preview HelpersSpec
  SMC100CFacts CommandsFacts DriverSpec.

(** *** [waitForVelocity] *)

Lemma substring_0_0_l (s : string) : String.substring 0 0 s = "".
Proof. destruct s; reflexivity. Qed.

Section WaitForVelocityFacts.

Variable stof : string -> result Q.
Variable within : Q -> Q -> Q -> bool.
Variable ms : positive.
Variable delay : nat -> N.
Variables targetVelocity tolerance : Q.
Variable timeout : Z.

Local Abbreviation matched :=
  (velocity_matches stof within targetVelocity tolerance).

Lemma GetVelocity_step (c : Serial) :
  fst (GetVelocity c) = reply_at c 0 /\
  rx (snd (GetVelocity c)) = tl (rx c).
Proof.
  unfold GetVelocity, flushInput, SerialRead, reply_at.
  rewrite SendCurrentCommand_rx.
  destruct (rx c) as [|o rest] eqn:E; simpl; split; try reflexivity.
  rewrite SendCurrentCommand_rx. exact E.
Qed.

Lemma SetVelocity_rx (q : Q) (c : Serial) : rx (SetVelocity q c) = rx c.
Proof. apply SendCurrentCommand_rx. Qed.

Lemma velocity_trace_S (c c2 : Serial) (n : nat) :
  rx c2 = tl (rx c) ->
  velocity_trace targetVelocity c (S n) =
  ([EvGetVelocity (reply_at c 0); EvSetVelocity targetVelocity]
   ++ velocity_trace targetVelocity c2 n)%list.
Proof.
  intros H. unfold velocity_trace. cbn [seq flat_map]. f_equal.
  rewrite <- seq_shift, flat_map_concat_map, map_map,
    <- flat_map_concat_map.
  apply flat_map_ext. intros j. now rewrite (reply_at_tl _ _ _ H).
Qed.

Lemma waitForVelocity_loop_run (fuel : nat) :
  forall (i : nat) (e : Z) (c : Serial),
    (1 <= fuel)%nat ->
    timeout * (1000 * Zpos ms) <= e + Z.of_nat fuel * (150 * Zpos ms) ->
    exists m n c',
      waitForVelocity_loop stof within ms delay fuel i e c targetVelocity
        tolerance timeout = Some (m, n, velocity_trace targetVelocity c n, c') /\
      (1 <= n <= fuel)%nat /\
      (forall j, (S j < n)%nat -> matched (reply_at c j) = false) /\
      m = matched (reply_at c (n - 1)).
Proof.
  induction fuel as [|fuel IH]; intros i e c Hf Ht; [lia|].
  cbn [waitForVelocity_loop].
  destruct (GetVelocity_step c) as [G1 G2].
  destruct (GetVelocity c) as [vel c1]. cbn [fst snd] in G1, G2. subst vel.
  set (c2 := SetVelocity targetVelocity c1).
  assert (R2 : rx c2 = tl (rx c))
    by (unfold c2; rewrite SetVelocity_rx; exact G2).
  set (now := e + 150 * Zpos ms + Z.of_N (delay i)).
  destruct (checkTimeout ms now timeout) eqn:TO.
  - exists (matched (reply_at c 0)), 1%nat, c2.
    split; [rewrite (velocity_trace_S _ _ 0%nat R2); reflexivity|].
    split; [lia|]. split; [intros j Hj; lia | reflexivity].
  - destruct (matched (reply_at c 0)) eqn:M0.
    + exists true, 1%nat, c2.
      split; [rewrite (velocity_trace_S _ _ 0%nat R2); reflexivity|].
      split; [lia|]. split; [intros j Hj; lia | symmetry; exact M0].
    + pose proof (timed_out_false ms timeout now TO) as Lt.
      assert (Hfuel : (1 <= fuel)%nat).
      { destruct fuel; [|lia]. exfalso. unfold now in Lt. lia. }
      destruct (IH (S i) now c2 Hfuel) as [m [n [c' [E [Hn [Hearly Hm]]]]]].
      { unfold now. lia. }
      exists m, (S n), c'. rewrite E. cbn [obind].
      split; [rewrite (velocity_trace_S _ _ n R2); reflexivity|].
      split; [lia|]. split.
      * intros [|j] Hj; [exact M0|].
        rewrite <- (reply_at_tl _ _ _ R2). apply Hearly. lia.
      * rewrite Hm, (reply_at_tl _ _ _ R2).
        replace (S n - 1)%nat with (S (n - 1)) by lia. reflexivity.
Qed.

(** X26: for every sequence of replies and every timing,
    [waitForVelocity] returns, after at most [7 * timeout + 1] iterations
    (each takes 150 ms or more).  Every iteration queries the velocity
    and then sets the target velocity again; no iteration before the
    last found the velocity within the tolerance, and the value returned
    is what the last one found. *)
Theorem waitForVelocity_terminates (c : Serial) :
  exists m n c',
    waitForVelocity stof within ms delay (S (Z.to_nat (7 * timeout))) c
      targetVelocity tolerance timeout =
    Some (m, n, velocity_trace targetVelocity c n, c') /\
    (1 <= n <= S (Z.to_nat (7 * timeout)))%nat /\
    (forall j, (S j < n)%nat -> matched (reply_at c j) = false) /\
    m = matched (reply_at c (n - 1)).
Proof.
  unfold waitForVelocity.
  apply waitForVelocity_loop_run; [lia | nia].
Qed.

(** X27: [waitForVelocity] compares the target with the number written
    by the fourth and fifth characters of the reply alone: what follows
    them does not count, so that a reported 20.5 is read as 20.  A reply
    of two characters or fewer, once carriage return and line feed are
    taken out, never matches: with exactly two the guard lets it through
    and [substr] raises, which the handler catches. *)
Theorem velocity_matches_two_characters (p0 p1 p2 a b : ascii)
  (rest reply : string) :
  (one_line (String p0 (String p1 (String p2 (String a (String b "")))))
     = true ->
   matched (String p0 (String p1 (String p2 (String a (String b rest))))) =
   match stof (String a (String b "")) with
   | Ok currentVelocity => within currentVelocity targetVelocity tolerance
   | Throw _ => false
   end) /\
  ((String.length (erase_char CR (erase_char LF reply)) <= 2)%nat ->
   matched reply = false).
Proof.
  split.
  - cbn [one_line]. intros H.
    repeat (apply andb_true_iff in H; destruct H as [H ?]).
    repeat match goal with
           | X : (_ && _)%bool = true |- _ =>
               apply andb_true_iff in X; destruct X
           | X : negb _ = true |- _ => apply negb_true_iff in X
           end.
    unfold velocity_matches. cbn [erase_char].
    repeat match goal with X : Ascii.eqb _ _ = false |- _ => rewrite X; clear X end.
    cbn [erase_char].
    repeat match goal with X : Ascii.eqb _ _ = false |- _ => rewrite X; clear X end.
    cbn [String.length Nat.leb substr Nat.ltb String.substring rbind].
    rewrite substring_0_0_l. cbn [rbind].
    destruct (stof (String a (String b ""))); reflexivity.
  - intros H. unfold velocity_matches, substr.
    destruct (Nat.leb_spec 2 (String.length (erase_char CR (erase_char LF reply))));
      [|reflexivity].
    destruct (Nat.ltb_spec (String.length (erase_char CR (erase_char LF reply))) 3);
      [reflexivity | lia].
Qed.

End WaitForVelocityFacts.

(** A stage that reports 20.5 is not found at the target 20.5 within 0.1:
    the reply is read as 20. *)
Lemma velocity_matches_two_characters_witness :
  velocity_matches stof_decimal within_exact (41 # 2) (1 # 10)
    ("1VA20.5" ++ CRLF) = false.
Proof.
  exact (eq_trans
           (proj1 (velocity_matches_two_characters stof_decimal within_exact
                     (41 # 2) (1 # 10) "1" "V" "A" "2" "0" (".5" ++ CRLF) "")
                  eq_refl)
           eq_refl).
Defined.

(** *** The warm-up of the light engine *)

Lemma last_default (l : list Z) (y d d' : Z) :
  last (y :: l) d = last (y :: l) d'.
Proof.
  revert y. induction l as [|z l IH]; intros y; [reflexivity|].
  cbn [last] in *. apply (IH z).
Qed.

Lemma last_cons_default (x d : Z) (l : list Z) : last (x :: l) d = last l x.
Proof.
  destruct l as [|y l]; [reflexivity|].
  cbn [last]. apply last_default.
Qed.

Lemma warm_loop_ends (env : list WarmTick) :
  forall stat,
  stat = 1 \/ Exists (fun e => sysStatus e = 1 \/ 600 < total e) env ->
  exists r calls,
    warm_loop env stat = Some (r, calls) /\
    match r with
    | Warm => last (statuses calls) stat = 1 /\ switched_off calls = false
    | Exit1 =>
        exists before st,
          calls = (before ++ [GetSysStatus st; PowerOnOff 0])%list /\
          switched_off before = false
    end.
Proof.
  induction env as [|e rest IH]; intros stat H.
  - destruct H as [->|H]; [|inversion H].
    exists Warm, []. split; [reflexivity|]. split; reflexivity.
  - cbn [warm_loop]. destruct (Z.eqb_spec stat 1) as [->|N].
    + exists Warm, []. split; [reflexivity|]. split; reflexivity.
    + destruct (Z.ltb_spec 600 (total e)) as [T|T].
      * exists Exit1, [GetSysStatus (sysStatus e); PowerOnOff 0].
        split; [reflexivity|]. exists [], (sysStatus e). split; reflexivity.
      * assert (H' : sysStatus e = 1 \/
                     Exists (fun e => sysStatus e = 1 \/ 600 < total e) rest).
        { destruct H as [H|H]; [contradiction|].
          inversion H as [? ? [P|P]|]; subst; [left; exact P | lia | right; assumption]. }
        destruct (IH (sysStatus e) H') as (r & calls & E & C).
        rewrite E. cbn [Commands.obind].
        exists r, (GetSysStatus (sysStatus e) :: calls).
        split; [reflexivity|]. destruct r.
        -- destruct C as [C1 C2]. split; [|exact C2].
           cbn [statuses]. rewrite last_cons_default. exact C1.
        -- destruct C as (before & st & -> & C2).
           exists (GetSysStatus (sysStatus e) :: before), st.
           split; [reflexivity | exact C2].
Qed.

(** X28: [TurnLightEngineOn] ends as soon as the engine reports status 1
    or more than 600 s have passed.  It powers the engine on whatever the
    USB checks say.  It returns only after a status query that read 1,
    and has then not switched the engine off; otherwise its last call
    switches the engine off, and the program exits. *)
Theorem TurnLightEngineOn_ends (env : list WarmTick) :
  Exists (fun e => sysStatus e = 1 \/ 600 < total e) env ->
  exists r calls,
    TurnLightEngineOn env = Some (r, calls) /\
    firstn 4 calls =
      [EnumUsbDevice; SetUsbDeviceIndex 0; CheckUSBOnline; PowerOnOff 1] /\
    match r with
    | Warm => last (statuses calls) 4 = 1 /\ switched_off calls = false
    | Exit1 =>
        exists before st,
          calls = (before ++ [GetSysStatus st; PowerOnOff 0])%list /\
          switched_off before = false
    end.
Proof.
  intros H. unfold TurnLightEngineOn.
  destruct (warm_loop_ends env 4 (or_intror H)) as (r & calls & E & C).
  rewrite E. cbn [Commands.obind].
  eexists r, _. split; [reflexivity|]. split; [reflexivity|].
  destruct r.
  - exact C.
  - destruct C as (before & st & -> & C2).
    exists ([EnumUsbDevice; SetUsbDeviceIndex 0; CheckUSBOnline; PowerOnOff 1]
            ++ before)%list, st.
    split; [reflexivity | exact C2].
Qed.

Lemma TurnLightEngineOn_ends_witness :
  exists r calls,
    TurnLightEngineOn warming_engine = Some (r, calls) /\
    firstn 4 calls =
      [EnumUsbDevice; SetUsbDeviceIndex 0; CheckUSBOnline; PowerOnOff 1] /\
    match r with
    | Warm => last (statuses calls) 4 = 1 /\ switched_off calls = false
    | Exit1 =>
        exists before st,
          calls = (before ++ [GetSysStatus st; PowerOnOff 0])%list /\
          switched_off before = false
    end.
Proof.
  apply (TurnLightEngineOn_ends warming_engine).
  unfold warming_engine.
  apply Exists_cons_tl. apply Exists_cons_tl. apply Exists_cons_hd.
  left. reflexivity.
Defined.

(** *** The preview *)

Lemma skipn_nth (l : list string) (i : nat) :
  (i < List.length l)%nat -> skipn i l = nth i l "" :: skipn (S i) l.
Proof.
  revert i. induction l as [|x l IH]; intros i H; [cbn in H; lia|].
  destruct i as [|i]; [reflexivity|].
  cbn [skipn nth]. cbn in H. rewrite (IH i) by lia. reflexivity.
Qed.

Lemma preview_loop_smooth (imagePaths : list string) (env : list PreviewTick) :
  forall i,
  Forall smooth env ->
  (List.length imagePaths - i <= List.length env)%nat ->
  preview_loop imagePaths env true i =
  Some (map Shown (skipn i imagePaths) ++ [Closed])%list.
Proof.
  induction env as [|e rest IH]; intros i S L; cbn [preview_loop andb].
  - destruct (Nat.ltb_spec i (List.length imagePaths)) as [B|B];
      [cbn in L; lia|].
    rewrite skipn_all2 by lia. reflexivity.
  - destruct (Nat.ltb_spec i (List.length imagePaths)) as [B|B].
    + inversion S as [|? ? [S1 S2] Srest]; subst. rewrite S1, S2.
      rewrite (IH (Datatypes.S i) Srest) by (cbn in L; lia).
      cbn [Commands.obind app]. rewrite (skipn_nth _ _ B). reflexivity.
    + rewrite skipn_all2 by lia. reflexivity.
Qed.

(** X29: when every image loads and the window stays open,
    [RunFullDummy] shows each image of the directory once, in the order
    of the sorted listing, and then closes the window; with an empty
    directory it closes the window at once. *)
Theorem RunFullDummy_shows_all (imagePaths : list string)
  (env : list PreviewTick) :
  Forall smooth env ->
  (List.length imagePaths <= List.length env)%nat ->
  RunFullDummy (Some imagePaths) true env =
  Some (map Shown imagePaths ++ [Closed])%list.
Proof.
  intros S L. unfold RunFullDummy.
  rewrite (preview_loop_smooth imagePaths env 0 S) by lia. reflexivity.
Qed.

Lemma RunFullDummy_shows_all_witness :
  RunFullDummy (Some ["SEC_1.PNG"; "SEC_2.PNG"]) true
    [ {| closeRequested := false; loadOk := true |};
      {| closeRequested := false; loadOk := true |} ] =
  Some [Shown "SEC_1.PNG"; Shown "SEC_2.PNG"; Closed].
Proof.
  apply (RunFullDummy_shows_all ["SEC_1.PNG"; "SEC_2.PNG"]
           [ {| closeRequested := false; loadOk := true |};
             {| closeRequested := false; loadOk := true |} ]).
  - repeat constructor.
  - simpl. lia.
Defined.

(** X30: an image that does not load is tried again at every turn:
    while it fails and the window stays open, [RunFullDummy] does not
    move to the next image and does not end, however many turns it is
    given. *)
Theorem RunFullDummy_stuck_on_failed_load (imagePaths : list string)
  (env : list PreviewTick) :
  imagePaths <> [] -> Forall stuck env ->
  RunFullDummy (Some imagePaths) true env = None.
Proof.
  intros NE S. unfold RunFullDummy.
  assert (B : Nat.ltb 0 (List.length imagePaths) = true)
    by (destruct imagePaths; [contradiction | reflexivity]).
  induction S as [|e rest [S1 S2] _ IH]; cbn [preview_loop andb]; rewrite B.
  - reflexivity.
  - rewrite S1, S2, IH. reflexivity.
Qed.

Lemma RunFullDummy_stuck_on_failed_load_witness :
  RunFullDummy (Some ["SEC_1.PNG"; "SEC_2.PNG"]) true
    (repeat {| closeRequested := false; loadOk := false |} 50) = None.
Proof.
  apply (RunFullDummy_stuck_on_failed_load ["SEC_1.PNG"; "SEC_2.PNG"]).
  - discriminate.
  - apply Forall_forall. intros e H. apply repeat_spec in H. subst e.
    split; reflexivity.
Defined.

End HelpersFacts.

(** ** Runs of the stage move and of the static print *)

Module RunFacts.
Import SMC100C Commands SMC100CSpec CommandsSpec CommandsFacts.
Import PrintLoop PrintLoopSpec PrintLoopFacts.

(** A DLP move on a stage that is ready at every status query: the pump
    move up, the step, the pump move down. *)
Lemma moveStage_returns_witness :
  exists tr c',
    moveStage 1
      (quiet_port [Received (status_line "33"); Received (status_line "33");
                   Received (status_line "33")])
      (1 # 10) false 2 = Some (tr, c') /\
    moves tr = [(-1 * 2)%Q; 1 # 10; 2%Q] /\
    rx c' = [].
Proof.
  exact (moveStage_returns 1
           (quiet_port [Received (status_line "33"); Received (status_line "33");
                        Received (status_line "33")])
           (1 # 10) false 2 [] [] []
           (Received (status_line "33")) (Received (status_line "33"))
           (Received (status_line "33")) []
           eq_refl (Forall_nil _) (Forall_nil _) (Forall_nil _)
           eq_refl eq_refl eq_refl (le_n 1) (le_n 1) (le_n 1)).
Defined.

(** A static DLP run over two images that reaches the end of the
    function. *)
Lemma RunFull_stage_moves_alternate_witness :
  match RunFull 2 0 false 1 1
          (world_of ["SEC_1.PNG"; "SEC_2.PNG"] (ticks_from 1 12)) with
  | Some (result, tr) =>
      result = Completed /\
      exists inflight,
        flight false tr = Some inflight /\
        (result = Completed -> inflight = false)
  | None => False
  end.
Proof.
  pose proof (RunFull_stage_moves_alternate 2 0 false 1 1
                (world_of ["SEC_1.PNG"; "SEC_2.PNG"] (ticks_from 1 12))) as H.
  destruct (RunFull 2 0 false 1 1
              (world_of ["SEC_1.PNG"; "SEC_2.PNG"] (ticks_from 1 12)))
    as [[result tr]|] eqn:E.
  - split; [|exact (H result tr eq_refl)].
    vm_compute in E. injection E as <- _. reflexivity.
  - vm_compute in E. discriminate E.
Defined.

End RunFacts.

(** ** Abort of the dynamic run *)

Module DynamicAbortFacts.
Import Settings PrintLoop PrintLoopSpec FrameSpec PrintLoopFacts.

Ltac kept_events :=
  repeat match goal with
         | |- Forall _ (_ ++ _) => apply Forall_app; split
         | |- Forall _ (_ :: _) => apply Forall_cons; [reflexivity|]
         | |- Forall _ [] => apply Forall_nil
         | |- Forall _ (if ?b then _ else _) => destruct b
         | |- Forall _ (match ?m with Static _ _ _ => _ | Dynamic _ => _ end) =>
             destruct m
         end.

Lemma body_keeps_state imagePaths mode darkDuration s e s' evs flow :
  body imagePaths mode darkDuration s e = (s', evs, flow) ->
  Forall (fun ev => keeps_state ev = true) evs.
Proof.
  unfold body. intros H. destruct (displayImage s).
  - apply Forall_forall. intros ev Hin.
    destruct (light_branch_events _ _ _ _ _ _ _ H _ Hin)
      as [[m ->]|[[i ->]|[r ->]]]; reflexivity.
  - unfold dark_branch in H. injection H as _ <- _.
    kept_events.
Qed.

Lemma body_return imagePaths mode darkDuration s e s' evs :
  body imagePaths mode darkDuration s e = (s', evs, Return_) ->
  evs = [Log "Run Full aborted."].
Proof.
  unfold body, light_branch, dark_branch. destruct (displayImage s).
  - destruct (abortFlag e).
    + intros H. injection H as _ <-. reflexivity.
    + destruct (maxCount_of mode s <=? imageDisplayCount s + 1); discriminate.
  - discriminate.
Qed.

Lemma group_loop_aborted imagePaths currentSetting layerCount env :
  forall s s' evs rest,
  group_loop imagePaths currentSetting layerCount env s =
    Some (GroupAborted, s', evs, rest) ->
  Forall (fun ev => keeps_state ev = true) evs /\
  exists front, evs = (front ++ [Log "Run Full aborted."])%list.
Proof.
  induction env as [|e more IH]; intros s s' evs rest H;
    cbn [group_loop] in H;
    destruct (layerCount <? layercounter s); try discriminate.
  destruct (body imagePaths (Dynamic currentSetting) (darkTime currentSetting)
              s e) as [[s1 ev1] flow] eqn:B.
  pose proof (body_keeps_state _ _ _ _ _ _ _ _ B) as K1.
  destruct flow.
  - destruct (finished s1); [discriminate|].
    destruct (group_loop imagePaths currentSetting layerCount more s1)
      as [[[[y s2] evs2] rest2]|] eqn:L; cbn in H; [|discriminate].
    injection H as -> <- <- <-.
    destruct (IH _ _ _ _ L) as [K2 [front ->]]. split.
    + apply Forall_app. split; assumption.
    + exists (ev1 ++ front)%list. now rewrite <- app_assoc.
  - injection H as <- <- <-. split; [exact K1|].
    exists []. exact (body_return _ _ _ _ _ _ _ B).
Qed.

Lemma settings_loop_aborted imagePaths orderedSettings :
  forall env s s' evs,
  settings_loop imagePaths orderedSettings env s = Some (LoopAborted, s', evs) ->
  exists front currentSetting layerCount tail,
    In (currentSetting, layerCount) orderedSettings /\
    evs = (front ++ SetCurrent (intensity currentSetting mod 256) :: tail)%list /\
    Forall (fun ev => keeps_state ev = true) tail /\
    exists before, tail = (before ++ [Log "Run Full aborted."])%list.
Proof.
  induction orderedSettings as [|[currentSetting layerCount] more IH];
    intros env s s' evs H; cbn [settings_loop] in H; [discriminate|].
  destruct (group_loop imagePaths currentSetting layerCount env
              (set_layercounter s 0)) as [[[[x s1] gevs] rest]|] eqn:G;
    cbn [Commands.obind] in H; [|discriminate].
  assert (Later :
    Commands.obind (settings_loop imagePaths more rest s1)
      (fun '(y, s2, evs') =>
         Some (y, s2, (apply_events currentSetting ++ gevs ++ evs')%list))
    = Some (LoopAborted, s', evs) ->
    exists front cur count tail,
      In (cur, count) ((currentSetting, layerCount) :: more) /\
      evs = (front ++ SetCurrent (intensity cur mod 256) :: tail)%list /\
      Forall (fun ev => keeps_state ev = true) tail /\
      exists before, tail = (before ++ [Log "Run Full aborted."])%list).
  { intros H'.
    destruct (settings_loop imagePaths more rest s1)
      as [[[y s2] evs2]|] eqn:L; cbn in H'; [|discriminate].
    injection H' as -> <- <-.
    destruct (IH _ _ _ _ L) as (front & cur & count & tail & I & -> & K & E).
    exists (apply_events currentSetting ++ gevs ++ front)%list, cur, count, tail.
    split; [right; exact I|]. split; [now rewrite <- !app_assoc|].
    split; assumption. }
  destruct x; [|exact (Later H)|exact (Later H)].
  injection H as <- <-.
  destruct (group_loop_aborted _ _ _ _ _ _ _ _ G) as [K E].
  eexists [_], currentSetting, layerCount, gevs.
  split; [left; reflexivity|]. split; [reflexivity|]. split; assumption.
Qed.



End DynamicAbortFacts.
